(** * Lab Works Tracking: the data-access layer and the AI-assist client

    A shallow embedding of [database.py] and [groq_client.py].

    The SQLite file is a record of three tables, each a list of rows in
    rowid order (ids come from AUTOINCREMENT, so that is insertion order).
    Every data-access function runs one transaction: it either commits a
    new store or raises, and a raise rolls the store back.  The value of
    CURRENT_TIMESTAMP is an explicit argument, counted in seconds and
    read once per statement: [now] for an INSERT or a lone UPDATE, and
    [now_upd] for the UPDATE that follows the INSERT of [log_activity].
    The stored text 'YYYY-MM-DD HH:MM:SS' is ordered the same way.

    Python strings are modelled over the code points U+0000..U+00FF, one
    [ascii] per code point.  Integers bound to a statement are taken to
    fit SQLite's 64-bit INTEGER. *)

From Stdlib Require Import ZArith List String Ascii Bool Lia Permutation.
From Stdlib Require Import DecimalString.
Import ListNotations.

Set Warnings "-register-all".

Local Open Scope string_scope.
Local Open Scope Z_scope.

(** ** Python and SQLite string primitives *)

Module Str.

Definition code (c : ascii) : N := N_of_ascii c.

(** [str.isspace] on one code point below U+0100. *)
Definition is_space (c : ascii) : bool :=
  let n := code c in
  ((9 <=? n) && (n <=? 13) || (28 <=? n) && (n <=? 32)
   || (n =? 133) || (n =? 160))%N.

(** [str.lower] on one code point: A-Z and the Latin-1 capitals
    U+00C0..U+00DE except the multiplication sign U+00D7. *)
Definition py_lower_char (c : ascii) : ascii :=
  let n := code c in
  if ((65 <=? n) && (n <=? 90)
      || (192 <=? n) && (n <=? 222) && negb (n =? 215))%N
  then ascii_of_N (n + 32) else c.

(** SQLite's built-in LOWER() folds the ASCII letters only. *)
Definition sqlite_lower_char (c : ascii) : ascii :=
  let n := code c in
  if ((65 <=? n) && (n <=? 90))%N then ascii_of_N (n + 32) else c.

Fixpoint map (f : ascii -> ascii) (s : string) : string :=
  match s with
  | EmptyString => EmptyString
  | String c r => String (f c) (map f r)
  end.

Definition lower : string -> string := map py_lower_char.
Definition sqlite_lower : string -> string := map sqlite_lower_char.

Fixpoint lstrip (s : string) : string :=
  match s with
  | EmptyString => EmptyString
  | String c r => if is_space c then lstrip r else s
  end.

Fixpoint rstrip (s : string) : string :=
  match s with
  | EmptyString => EmptyString
  | String c r =>
      match rstrip r with
      | EmptyString => if is_space c then EmptyString else String c EmptyString
      | r' => String c r'
      end
  end.

(** [str.strip()] with no argument. *)
Definition strip (s : string) : string := rstrip (lstrip s).

(** A string made of whitespace only. *)
Fixpoint all_space (s : string) : bool :=
  match s with
  | EmptyString => true
  | String c r => is_space c && all_space r
  end.

(** Truth value of a Python [str]. *)
Definition truthy (s : string) : bool :=
  match s with EmptyString => false | _ => true end.

End Str.

(** ** The store *)

Record user_row := mkUser {
  u_id : Z;
  u_name : string;
  u_email : string;
  u_role : string;
  u_password_hash : string;
  u_created_at : Z
}.

Record goal_row := mkGoal {
  g_id : Z;
  g_user_id : Z;
  g_title : string;
  g_description : option string;
  g_due_date : option string;
  g_status : string;
  g_visibility : string;
  g_created_at : Z;
  g_last_updated : Z
}.

Record activity_row := mkActivity {
  a_id : Z;
  a_goal_id : Z;
  a_user_id : Z;
  a_entry_text : string;
  a_progress : option Z;
  a_ai_generated : Z;
  a_created_at : Z
}.

(** [seq_*] is the AUTOINCREMENT counter of sqlite_sequence: the largest
    rowid ever handed out in the table. *)
Record store := mkStore {
  users : list user_row;
  goals : list goal_row;
  activities : list activity_row;
  seq_users : Z;
  seq_goals : Z;
  seq_activities : Z
}.

Definition empty_store : store := mkStore [] [] [] 0 0 0.

(** ** Transactions *)

Inductive constraint :=
| CheckRole
| CheckVisibility
| UniqueEmail
| ForeignKey.

(** [sqlite3.IntegrityError], tagged with the constraint that failed. *)
Inductive db_error :=
| IntegrityError (c : constraint).

Inductive result (A : Type) :=
| Ok (a : A)
| Raise (e : db_error).
Arguments Ok {A} a.
Arguments Raise {A} e.

(** A statement sequence inside [with get_connection() as conn]. *)
Definition txn (A : Type) : Type := store -> result (store * A).

Definition ret {A} (a : A) : txn A := fun st => Ok (st, a).

Definition bind {A B} (m : txn A) (k : A -> txn B) : txn B :=
  fun st => match m st with
            | Ok (st', a) => k a st'
            | Raise e => Raise e
            end.

Definition raise {A} (e : db_error) : txn A := fun _ => Raise e.

Definition get : txn store := fun st => Ok (st, st).
Definition put (st : store) : txn unit := fun _ => Ok (st, tt).

Definition guard (b : bool) (c : constraint) : txn unit :=
  if b then ret tt else raise (IntegrityError c).

Declare Scope txn_scope.
Delimit Scope txn_scope with txn.
Notation "x <- m ;; k" := (bind m (fun x => k))
  (at level 61, m at next level, right associativity) : txn_scope.
Notation "m ;; k" := (bind m (fun _ => k))
  (at level 61, right associativity) : txn_scope.

(** Leaving the [with] block: commit on success, roll back on a raise. *)
Definition commit {A} (m : txn A) (st : store) : store * result A :=
  match m st with
  | Ok (st', a) => (st', Ok a)
  | Raise e => (st, Raise e)
  end.

(** ** SQL building blocks *)

Module Sql.

Section Relational.
Context {A B : Type}.

(** [l JOIN r ON on]: nested loop, outer table first. *)
Definition inner_join (on : A -> B -> bool) (l : list A) (r : list B)
  : list (A * B) :=
  flat_map (fun a => List.map (pair a) (filter (on a) r)) l.

(** [l LEFT JOIN r ON on]: an unmatched left row is kept once with NULLs. *)
Definition left_join (on : A -> B -> bool) (l : list A) (r : list B)
  : list (A * option B) :=
  flat_map (fun a => match filter (on a) r with
                     | [] => [(a, None)]
                     | m => List.map (fun b => (a, Some b)) m
                     end) l.

(** [WHERE c1 AND ... AND cn]; no clause, no WHERE. *)
Definition where_ (clauses : list (A -> bool)) (l : list A) : list A :=
  filter (fun r => forallb (fun c => c r) clauses) l.

(** [ORDER BY key DESC]; rows with equal keys stay in scan order. *)
Fixpoint insert_desc (key : A -> Z) (x : A) (l : list A) : list A :=
  match l with
  | [] => [x]
  | y :: r => if key x <? key y then y :: insert_desc key x r else x :: l
  end.

Fixpoint order_by_desc (key : A -> Z) (l : list A) : list A :=
  match l with
  | [] => []
  | x :: r => insert_desc key x (order_by_desc key r)
  end.

(** [LIMIT n]; a negative bound means no bound. *)
Definition limit (n : Z) (l : list A) : list A :=
  if n <? 0 then l else firstn (Z.to_nat n) l.
End Relational.

Definition coalesce {A} (o : option A) (d : A) : A :=
  match o with Some a => a | None => d end.

End Sql.

(** ** database.py *)

Definition has_user (st : store) (uid : Z) : bool :=
  existsb (fun u => u_id u =? uid) (users st).

Definition has_goal (st : store) (gid : Z) : bool :=
  existsb (fun g => g_id g =? gid) (goals st).

Definition role_check (role : string) : bool :=
  String.eqb role "student" || String.eqb role "mentor".

Definition visibility_check (v : string) : bool :=
  String.eqb v "public" || String.eqb v "private".

Definition email_taken (st : store) (email : string) : bool :=
  existsb (fun u => String.eqb (u_email u) email) (users st).

Local Open Scope txn_scope.

Definition create_user (now : Z) (name email role password_hash : string)
  : txn Z :=
  st <- get ;;
  let row := mkUser (seq_users st + 1) (Str.strip name)
                    (Str.lower (Str.strip email)) role password_hash now in
  guard (role_check (u_role row)) CheckRole ;;
  guard (negb (email_taken st (u_email row))) UniqueEmail ;;
  put (mkStore (users st ++ [row]) (goals st) (activities st)
               (u_id row) (seq_goals st) (seq_activities st)) ;;
  ret (u_id row).

Definition fetchone {A} (l : list A) : option A := hd_error l.

Definition fetch_user_by_email (st : store) (email : string)
  : option user_row :=
  let param := Str.lower (Str.strip email) in
  fetchone (filter (fun u => String.eqb (Str.sqlite_lower (u_email u)) param)
                   (users st)).

Definition fetch_user_by_id (st : store) (user_id : Z) : option user_row :=
  fetchone (filter (fun u => u_id u =? user_id) (users st)).

Definition create_goal (now : Z) (user_id : Z) (title : string)
    (description due_date : option string) (status visibility : string)
  : txn Z :=
  st <- get ;;
  let desc := match description with
              | Some d => if Str.truthy d then Some (Str.strip d) else None
              | None => None
              end in
  let row := mkGoal (seq_goals st + 1) user_id (Str.strip title) desc
                    due_date status visibility now now in
  guard (visibility_check (g_visibility row)) CheckVisibility ;;
  guard (has_user st (g_user_id row)) ForeignKey ;;
  put (mkStore (users st) (goals st ++ [row]) (activities st)
               (seq_users st) (g_id row) (seq_activities st)) ;;
  ret (g_id row).

(** [UPDATE goals SET ... WHERE cond]. *)
Definition update_goals (cond : goal_row -> bool) (set : goal_row -> goal_row)
  : txn unit :=
  st <- get ;;
  put (mkStore (users st)
               (List.map (fun g => if cond g then set g else g) (goals st))
               (activities st)
               (seq_users st) (seq_goals st) (seq_activities st)).

Definition set_status (status : string) (g : goal_row) : goal_row :=
  mkGoal (g_id g) (g_user_id g) (g_title g) (g_description g) (g_due_date g)
         status (g_visibility g) (g_created_at g) (g_last_updated g).

Definition set_last_updated (t : Z) (g : goal_row) : goal_row :=
  mkGoal (g_id g) (g_user_id g) (g_title g) (g_description g) (g_due_date g)
         (g_status g) (g_visibility g) (g_created_at g) t.

Definition update_goal_status (now : Z) (goal_id : Z) (status : string)
  : txn unit :=
  update_goals (fun g => g_id g =? goal_id)
               (fun g => set_last_updated now (set_status status g)).

(** [now] is CURRENT_TIMESTAMP in the INSERT, [now_upd] in the UPDATE of
    last_updated that follows it. *)
Definition log_activity (now now_upd : Z) (goal_id user_id : Z)
    (entry_text : string) (progress : option Z) (ai_generated : bool)
  : txn Z :=
  st <- get ;;
  let row := mkActivity (seq_activities st + 1) goal_id user_id
                        (Str.strip entry_text) progress
                        (Z.b2z ai_generated) now in
  guard (has_goal st (a_goal_id row) && has_user st (a_user_id row))
        ForeignKey ;;
  put (mkStore (users st) (goals st) (activities st ++ [row])
               (seq_users st) (seq_goals st) (a_id row)) ;;
  update_goals (fun g => g_id g =? goal_id) (set_last_updated now_upd) ;;
  match progress with
  | Some p =>
      if 100 <=? p
      then update_goals (fun g => (g_id g =? goal_id)
                                  && negb (String.eqb (g_status g) "Completed"))
                        (set_status "Completed")
      else ret tt
  | None => ret tt
  end ;;
  ret (a_id row).

Local Close Scope txn_scope.

(** *** Read queries *)

(** One row of
    [SELECT goal_id, COUNT( * ), MAX(created_at) FROM activities GROUP BY goal_id]. *)
Record activity_count := mkCount {
  ac_goal_id : Z;
  ac_total_updates : Z;
  ac_latest_update : Z
}.

Fixpoint group_add (a : activity_row) (groups : list activity_count)
  : list activity_count :=
  match groups with
  | [] => [mkCount (a_goal_id a) 1 (a_created_at a)]
  | c :: r =>
      if ac_goal_id c =? a_goal_id a
      then mkCount (ac_goal_id c) (ac_total_updates c + 1)
                   (Z.max (ac_latest_update c) (a_created_at a)) :: r
      else c :: group_add a r
  end.

Definition activity_counts (acts : list activity_row) : list activity_count :=
  fold_left (fun groups a => group_add a groups) acts [].

Definition on_goal_id (g : goal_row) (c : activity_count) : bool :=
  ac_goal_id c =? g_id g.

Record goal_summary := mkSummary {
  gs_goal : goal_row;
  gs_updates_count : Z;
  gs_latest_update : Z
}.

Definition list_goals_for_user (st : store) (user_id : Z)
  : list goal_summary :=
  let from := Sql.left_join on_goal_id (goals st)
                            (activity_counts (activities st)) in
  let rows := Sql.where_ [fun r => g_user_id (fst r) =? user_id] from in
  let rows := Sql.order_by_desc (fun r => g_last_updated (fst r)) rows in
  List.map (fun r =>
    mkSummary (fst r)
      (Sql.coalesce (option_map ac_total_updates (snd r)) 0)
      (Sql.coalesce (option_map ac_latest_update (snd r))
                    (g_last_updated (fst r)))) rows.

Record goal_listing := mkListing {
  gl_goal : goal_row;
  gl_user_name : string;
  gl_user_role : string;
  gl_updates_count : Z;
  gl_latest_update : Z
}.

Definition get_all_goals (st : store) (viewer_role : string)
    (viewer_id : option Z) : list goal_listing :=
  let clauses : list (goal_row * user_row * option activity_count -> bool) :=
    if negb (String.eqb viewer_role "mentor") then
      match viewer_id with
      | None =>
          [fun r => String.eqb (g_visibility (fst (fst r))) "public"]
      | Some v =>
          [fun r => String.eqb (g_visibility (fst (fst r))) "public"
                    || (g_user_id (fst (fst r)) =? v)]
      end
    else [] in
  let from :=
    Sql.left_join (fun gu c => on_goal_id (fst gu) c)
      (Sql.inner_join (fun g u => u_id u =? g_user_id g) (goals st) (users st))
      (activity_counts (activities st)) in
  let rows := Sql.where_ clauses from in
  let rows := Sql.order_by_desc (fun r => g_last_updated (fst (fst r))) rows in
  List.map (fun r =>
    let g := fst (fst r) in
    let u := snd (fst r) in
    mkListing g (u_name u) (u_role u)
      (Sql.coalesce (option_map ac_total_updates (snd r)) 0)
      (Sql.coalesce (option_map ac_latest_update (snd r)) (g_last_updated g)))
    rows.

Record feed_entry := mkEntry {
  fe_activity : activity_row;
  fe_goal_title : string;
  fe_user_name : string;
  fe_user_role : string
}.

Definition get_recent_activity (st : store) (limit : Z)
    (viewer_id : option Z) (viewer_role : string) : list feed_entry :=
  let clauses : list (activity_row * goal_row * user_row -> bool) :=
    if negb (String.eqb viewer_role "mentor") then
      match viewer_id with
      | None =>
          [fun r => String.eqb (g_visibility (snd (fst r))) "public"]
      | Some v =>
          [fun r => String.eqb (g_visibility (snd (fst r))) "public"
                    || (a_user_id (fst (fst r)) =? v)]
      end
    else [] in
  let from :=
    Sql.inner_join (fun ag u => u_id u =? a_user_id (fst ag))
      (Sql.inner_join (fun a g => g_id g =? a_goal_id a)
                      (activities st) (goals st))
      (users st) in
  let rows := Sql.where_ clauses from in
  let rows := Sql.order_by_desc (fun r => a_created_at (fst (fst r))) rows in
  let rows := Sql.limit limit rows in
  List.map (fun r =>
    mkEntry (fst (fst r)) (g_title (snd (fst r)))
            (u_name (snd r)) (u_role (snd r))) rows.

(** *** Schema constraints *)

(** What the schema enforces on every committed store: primary keys are
    unique and below the AUTOINCREMENT counter, emails are UNIQUE, and
    the foreign keys of goals and activities resolve. *)
Record schema_ok (st : store) : Prop := mkSchemaOk {
  users_pk : NoDup (List.map u_id (users st));
  goals_pk : NoDup (List.map g_id (goals st));
  activities_pk : NoDup (List.map a_id (activities st));
  users_seq : forall u, In u (users st) -> u_id u <= seq_users st;
  goals_seq : forall g, In g (goals st) -> g_id g <= seq_goals st;
  activities_seq :
    forall a, In a (activities st) -> a_id a <= seq_activities st;
  email_unique : NoDup (List.map u_email (users st));
  goals_fk : forall g, In g (goals st) -> has_user st (g_user_id g) = true;
  activities_fk :
    forall a, In a (activities st) ->
      has_goal st (a_goal_id a) = true /\ has_user st (a_user_id a) = true
}.

(** What [create_user] adds on top of the schema: a stored email is in
    lower case already. *)
Definition emails_folded (st : store) : Prop :=
  forall u, In u (users st) -> Str.lower (u_email u) = u_email u.

(** One committed call of a mutating function. *)
Inductive step (st st' : store) : Prop :=
| step_create_user now name email role password_hash id :
    create_user now name email role password_hash st = Ok (st', id) ->
    step st st'
| step_create_goal now user_id title description due_date status visibility id :
    create_goal now user_id title description due_date status visibility st
    = Ok (st', id) ->
    step st st'
| step_update_goal_status now goal_id status :
    update_goal_status now goal_id status st = Ok (st', tt) ->
    step st st'
| step_log_activity now now_upd goal_id user_id entry_text progress
    ai_generated id :
    log_activity now now_upd goal_id user_id entry_text progress ai_generated st
    = Ok (st', id) ->
    step st st'.

(** The stores the application can be in, starting from [init_db] on a
    fresh file. *)
Inductive reachable : store -> Prop :=
| reachable_init : reachable empty_store
| reachable_step st st' : reachable st -> step st st' -> reachable st'.

(** ** groq_client.py *)

Module Groq.

(** A value read from [st.secrets] (parsed TOML). *)
Inductive pyval :=
| VStr (s : string)
| VInt (z : Z)
| VBool (b : bool)
| VTable (kvs : list (string * pyval)).

Definition truthy (v : pyval) : bool :=
  match v with
  | VStr s => Str.truthy s
  | VInt z => negb (z =? 0)
  | VBool b => b
  | VTable kvs => match kvs with [] => false | _ => true end
  end.

(** [not key] for an optional value: [None] is falsy. *)
Definition falsy (o : option pyval) : bool :=
  match o with Some v => negb (truthy v) | None => true end.

Fixpoint lookup {V} (k : string) (kvs : list (string * V)) : option V :=
  match kvs with
  | [] => None
  | (k', v) :: r => if String.eqb k' k then Some v else lookup k r
  end.

(** [st.secrets]: either the import or the first access raises (no
    streamlit, no secrets file), or it is a mapping. *)
Inductive secrets :=
| SecretsRaise
| Secrets (top : list (string * pyval)).

Record environment := mkEnv {
  env_GROQ_API_KEY : option string;
  st_secrets : secrets;
  API_URL : string;
  DEFAULT_MODEL : string
}.

Definition DEFAULT_SYSTEM_PROMPT : string :=
  "You are a concise writing partner that helps researchers document lab work. "
  ++ "Clean up the text, keep it factual, and highlight measurable outcomes.".

(** The [try] block of [_load_key].  A [groq] entry that is not a table
    ends in [None]: membership in a number raises, and a string that
    happens to contain "api_key" raises on the subscript; both are
    swallowed by [except Exception: pass]. *)
Definition secrets_key (s : secrets) : option pyval :=
  match s with
  | SecretsRaise => None
  | Secrets top =>
      match lookup "GROQ_API_KEY" top with
      | Some v => Some v
      | None =>
          match lookup "groq" top with
          | Some (VTable kvs) => lookup "api_key" kvs
          | _ => None
          end
      end
  end.

(** [if key: return key] for an optional string. *)
Definition if_set (o : option string) : option string :=
  match o with
  | Some s => if Str.truthy s then Some s else None
  | None => None
  end.

Definition _load_key (env : environment) (explicit_key : option string)
  : option pyval :=
  match if_set explicit_key with
  | Some k => Some (VStr k)
  | None =>
      match if_set (env_GROQ_API_KEY env) with
      | Some env_key => Some (VStr env_key)
      | None => secrets_key (st_secrets env)
      end
  end.

(** *** The HTTP exchange *)

Inductive json :=
| JNull
| JBool (b : bool)
| JNum (literal : string)
| JStr (s : string)
| JArr (items : list json)
| JObj (members : list (string * json)).

Inductive py_exception :=
| KeyError
| IndexError
| TypeError
| AttributeError
| JSONDecodeError.

Inductive py (A : Type) :=
| Value (a : A)
| Exn (e : py_exception).
Arguments Value {A} a.
Arguments Exn {A} e.

Definition py_bind {A B} (m : py A) (k : A -> py B) : py B :=
  match m with Value a => k a | Exn e => Exn e end.

(** A JSON object decodes to a dict: of two equal member names the last
    one stays. *)
Definition dict_get (k : string) (members : list (string * json))
  : option json :=
  lookup k (rev members).

(** [x[k]] for a string [k]. *)
Definition getitem_str (x : json) (k : string) : py json :=
  match x with
  | JObj members =>
      match dict_get k members with
      | Some v => Value v
      | None => Exn KeyError
      end
  | _ => Exn TypeError
  end.

(** [x[0]]. *)
Definition getitem_0 (x : json) : py json :=
  match x with
  | JArr (v :: _) => Value v
  | JArr [] => Exn IndexError
  | JStr (String c _) => Value (JStr (String c EmptyString))
  | JStr EmptyString => Exn IndexError
  | JObj _ => Exn KeyError
  | _ => Exn TypeError
  end.

(** [x.strip()]: only [str] has the method. *)
Definition call_strip (x : json) : py string :=
  match x with
  | JStr s => Value (Str.strip s)
  | _ => Exn AttributeError
  end.

Record response := mkResponse {
  status_code : Z;
  text : string;
  (** what [response.json()] decodes [text] to; [None] when it raises *)
  decoded : option json
}.

Definition response_json (r : response) : py json :=
  match decoded r with Some j => Value j | None => Exn JSONDecodeError end.

Section Client.
(** Python's [float], carried through untouched. *)
Variable float : Type.

Record request := mkRequest {
  rq_url : string;
  rq_bearer : pyval;
  rq_model : string;
  rq_temperature : float;
  rq_max_tokens : Z;
  rq_system : string;
  rq_user : string
}.

Inductive post_outcome :=
| Responded (r : response)
| RequestException (exc : string).

(** A computation that may call [requests.post]. *)
Inductive io (A : Type) :=
| Done (a : A)
| Post (rq : request) (k : post_outcome -> io A).
Arguments Done {A} a.
Arguments Post {A} rq k.

(** What the caller of [request_completion] sees. *)
Inductive outcome :=
| Returned (content : option string) (error : option string)
| Propagated (e : py_exception).

Definition or_default (o : option string) (d : string) : string :=
  match o with
  | Some s => if Str.truthy s then s else d
  | None => d
  end.

Definition show_Z (z : Z) : string :=
  DecimalString.NilZero.string_of_int (Z.to_int z).

Definition extract_content (r : response) : py string :=
  py_bind (response_json r) (fun data =>
  py_bind (getitem_str data "choices") (fun x =>
  py_bind (getitem_0 x) (fun x =>
  py_bind (getitem_str x "message") (fun x =>
  py_bind (getitem_str x "content") call_strip)))).

Definition request_completion (env : environment) (prompt : string)
    (temperature : float) (max_tokens : Z)
    (api_key system_prompt model : option string) : io outcome :=
  let key := _load_key env api_key in
  match key with
  | Some k =>
      if truthy k then
        Post (mkRequest (API_URL env) k
                        (or_default model (DEFAULT_MODEL env))
                        temperature max_tokens
                        (or_default system_prompt DEFAULT_SYSTEM_PROMPT)
                        (Str.strip prompt))
          (fun o =>
             match o with
             | RequestException exc =>
                 Done (Returned None (Some ("Groq request failed: " ++ exc)))
             | Responded r =>
                 if 400 <=? status_code r then
                   Done (Returned None
                           (Some ("Groq API error " ++ show_Z (status_code r)
                                  ++ ": " ++ text r)))
                 else
                   match extract_content r with
                   | Value content => Done (Returned (Some content) None)
                   | Exn KeyError | Exn IndexError | Exn TypeError =>
                       Done (Returned None
                               (Some "Unexpected response from Groq API."))
                   | Exn e => Done (Propagated e)
                   end
             end)
      else
        Done (Returned None
          (Some "Set GROQ_API_KEY in .streamlit/secrets.toml or as an environment variable."))
  | None =>
      Done (Returned None
        (Some "Set GROQ_API_KEY in .streamlit/secrets.toml or as an environment variable."))
  end.

(** Run against a network, recording every request that goes out. *)
Fixpoint run {A} (net : request -> post_outcome) (p : io A)
  : A * list request :=
  match p with
  | Done a => (a, [])
  | Post rq k => let (a, sent) := run net (k (net rq)) in (a, rq :: sent)
  end.
End Client.

Arguments Done {float A} a.
Arguments Post {float A} rq k.
Arguments run {float A} net p.

End Groq.

(** ** Notions used in the statements *)

Fixpoint distinct {A} (eqb : A -> A -> bool) (l : list A) : bool :=
  match l with
  | [] => true
  | x :: r => negb (existsb (eqb x) r) && distinct eqb r
  end.

(** A decision procedure for [schema_ok]. *)
Definition check_schema (st : store) : bool :=
  distinct Z.eqb (List.map u_id (users st))
  && distinct Z.eqb (List.map g_id (goals st))
  && distinct Z.eqb (List.map a_id (activities st))
  && forallb (fun u => u_id u <=? seq_users st) (users st)
  && forallb (fun g => g_id g <=? seq_goals st) (goals st)
  && forallb (fun a => a_id a <=? seq_activities st) (activities st)
  && distinct String.eqb (List.map u_email (users st))
  && forallb (fun g => has_user st (g_user_id g)) (goals st)
  && forallb (fun a => has_goal st (a_goal_id a) && has_user st (a_user_id a))
             (activities st).

Definition check_emails_folded (st : store) : bool :=
  forallb (fun u => String.eqb (Str.lower (u_email u)) (u_email u))
          (users st).

(** The row a primary key names. *)
Definition find_goal (st : store) (gid : Z) : option goal_row :=
  find (fun g => g_id g =? gid) (goals st).

Definition find_user (st : store) (uid : Z) : option user_row :=
  find (fun u => u_id u =? uid) (users st).

(** The expected text field of a completion response: an object whose
    "choices" member is an array, whose first element is an object with
    a "message" object, which has a "content" member. *)
Definition text_field (body : Groq.json) : option Groq.json :=
  match body with
  | Groq.JObj top =>
      match Groq.dict_get "choices" top with
      | Some (Groq.JArr (Groq.JObj choice :: _)) =>
          match Groq.dict_get "message" choice with
          | Some (Groq.JObj message) => Groq.dict_get "content" message
          | _ => None
          end
      | _ => None
      end
  | _ => None
  end.

(** The description column [create_goal] is meant to fill. *)
Definition stored_description (description : option string)
  : option string :=
  match description with
  | None => None
  | Some EmptyString => None
  | Some d => Some (Str.strip d)
  end.

(** Whether an activity's progress triggers auto-completion. *)
Definition reaches_100 (progress : option Z) : bool :=
  match progress with Some p => 100 <=? p | None => false end.

Definition set_credential_message : string :=
  "Set GROQ_API_KEY in .streamlit/secrets.toml or as an environment variable.".

(** [precedes x y l]: some occurrence of [x] in [l] has a [y] after it. *)
Inductive precedes {A} (x y : A) : list A -> Prop :=
| precedes_here l : In y l -> precedes x y (x :: l)
| precedes_skip a l : precedes x y l -> precedes x y (a :: l).

(** Newest or most recently updated first. *)
Fixpoint descending {A} (key : A -> Z) (l : list A) : Prop :=
  match l with
  | [] => True
  | x :: r => (forall y, In y r -> key y <= key x) /\ descending key r
  end.

(** The activities logged on a goal, and the newest of their timestamps. *)
Definition activities_of (st : store) (gid : Z) : list activity_row :=
  filter (fun a => a_goal_id a =? gid) (activities st).

Definition newest (acts : list activity_row) : option Z :=
  match acts with
  | [] => None
  | a :: r => Some (fold_left Z.max (List.map a_created_at r) (a_created_at a))
  end.

(** A goal as "list goals for user" is to show it: with the number of its
    activities and the time of the newest one, or its own last-updated
    time when it has none. *)
Definition summarize (st : store) (g : goal_row) : goal_summary :=
  mkSummary g
    (Z.of_nat (List.length (activities_of st (g_id g))))
    (match newest (activities_of st (g_id g)) with
     | Some t => t
     | None => g_last_updated g
     end).

(** The row of the GROUP BY subquery for one goal, if it has one. *)
Definition group_of (acts : list activity_row) (gid : Z)
  : option activity_count :=
  match filter (fun a => a_goal_id a =? gid) acts with
  | [] => None
  | a :: r =>
      Some (mkCount gid (Z.of_nat (List.length (a :: r)))
              (fold_left Z.max (List.map a_created_at r) (a_created_at a)))
  end.

(** The rows a foreign key points to.  The schema makes them exist; the
    blank rows only keep the functions total. *)
Definition blank_user : user_row := mkUser 0 "" "" "" "" 0.
Definition blank_goal : goal_row := mkGoal 0 0 "" None None "" "" 0 0.

Definition owner_of (st : store) (g : goal_row) : user_row :=
  match find_user st (g_user_id g) with Some u => u | None => blank_user end.

Definition goal_of (st : store) (a : activity_row) : goal_row :=
  match find_goal st (a_goal_id a) with Some g => g | None => blank_goal end.

Definition author_of (st : store) (a : activity_row) : user_row :=
  match find_user st (a_user_id a) with Some u => u | None => blank_user end.

(** A goal as the team list is to show it. *)
Definition listing (st : store) (g : goal_row) : goal_listing :=
  mkListing g (u_name (owner_of st g)) (u_role (owner_of st g))
            (gs_updates_count (summarize st g))
            (gs_latest_update (summarize st g)).

(** An activity as the feed is to show it. *)
Definition joined (st : store) (a : activity_row) : feed_entry :=
  mkEntry a (g_title (goal_of st a))
          (u_name (author_of st a)) (u_role (author_of st a)).

(** Who may read a goal in the goal list. *)
Definition goal_visible_to (viewer_role : string) (viewer_id : option Z)
    (g : goal_row) : bool :=
  if String.eqb viewer_role "mentor" then true
  else match viewer_id with
       | Some v => String.eqb (g_visibility g) "public" || (g_user_id g =? v)
       | None => String.eqb (g_visibility g) "public"
       end.

(** Which activities a viewer who is not a mentor gets in the feed: the
    goal is public or the viewer wrote the entry. *)
Definition in_feed_of (st : store) (viewer_id : Z) (a : activity_row) : bool :=
  match find_goal st (a_goal_id a) with
  | Some g => String.eqb (g_visibility g) "public" || (a_user_id a =? viewer_id)
  | None => false
  end.

(** ** A small lab, used for worked instances *)

Module Lab.

Definition ada : user_row := mkUser 1 "Ada" "ada@lab.edu" "student" "h1" 10.
Definition bob : user_row := mkUser 2 "Bob" "bob@lab.edu" "student" "h2" 11.
Definition eve : user_row := mkUser 3 "Eve" "eve@lab.edu" "mentor" "h3" 12.

(** Ada's private goal and Bob's public one. *)
Definition cultures : goal_row :=
  mkGoal 1 1 "Grow cultures" None None "In progress" "private" 13 16.
Definition writeup : goal_row :=
  mkGoal 2 2 "Write up" (Some "draft") None "Not started" "public" 14 15.

(** Bob and Eve both wrote on Ada's private goal. *)
Definition note1 : activity_row := mkActivity 1 2 2 "outline" (Some 10) 0 15.
Definition note2 : activity_row := mkActivity 2 1 2 "plates" (Some 20) 0 16.
Definition note3 : activity_row := mkActivity 3 1 3 "review" None 1 16.

Definition st : store :=
  mkStore [ada; bob; eve] [cultures; writeup] [note1; note2; note3] 3 2 3.

End Lab.

(** ** database.py: the remaining read queries *)

(** One row of
    [SELECT goal_id, COUNT( * ) AS total_updates FROM activities GROUP BY goal_id],
    the subquery of [list_public_goals]. *)
Record update_count := mkUpdateCount {
  uc_goal_id : Z;
  uc_total_updates : Z
}.

Fixpoint count_add (a : activity_row) (groups : list update_count)
  : list update_count :=
  match groups with
  | [] => [mkUpdateCount (a_goal_id a) 1]
  | c :: r =>
      if uc_goal_id c =? a_goal_id a
      then mkUpdateCount (uc_goal_id c) (uc_total_updates c + 1) :: r
      else c :: count_add a r
  end.

Definition update_counts (acts : list activity_row) : list update_count :=
  fold_left (fun groups a => count_add a groups) acts [].

Record public_goal := mkPublicGoal {
  pg_goal : goal_row;
  pg_user_name : string;
  pg_user_role : string;
  pg_updates_count : Z
}.

Definition list_public_goals (st : store) : list public_goal :=
  let from :=
    Sql.left_join (fun gu c => uc_goal_id c =? g_id (fst gu))
      (Sql.inner_join (fun g u => u_id u =? g_user_id g) (goals st) (users st))
      (update_counts (activities st)) in
  let rows :=
    Sql.where_ [fun r => String.eqb (g_visibility (fst (fst r))) "public"]
               from in
  let rows := Sql.order_by_desc (fun r => g_last_updated (fst (fst r))) rows in
  List.map (fun r =>
    mkPublicGoal (fst (fst r)) (u_name (snd (fst r))) (u_role (snd (fst r)))
      (Sql.coalesce (option_map uc_total_updates (snd r)) 0)) rows.

Record goal_update := mkGoalUpdate {
  gu_activity : activity_row;
  gu_user_name : string
}.

Definition get_goal_activity (st : store) (goal_id : Z) (limit : Z)
  : list goal_update :=
  let from :=
    Sql.inner_join (fun a u => u_id u =? a_user_id a)
                   (activities st) (users st) in
  let rows := Sql.where_ [fun r => a_goal_id (fst r) =? goal_id] from in
  let rows := Sql.order_by_desc (fun r => a_created_at (fst r)) rows in
  let rows := Sql.limit limit rows in
  List.map (fun r => mkGoalUpdate (fst r) (u_name (snd r))) rows.

(** The CHECK constraints of the schema, as a property of a store. *)
Definition checks_ok (st : store) : Prop :=
  (forall u, In u (users st) -> role_check (u_role u) = true)
  /\ (forall g, In g (goals st) -> visibility_check (g_visibility g) = true).

(** One list extends another at its end. *)
Definition extends {A} (l' l : list A) : Prop :=
  exists added, l' = (l ++ added)%list.

(** The columns of a goal that no statement of the program assigns
    after the INSERT. *)
Definition same_fixed_columns (g g' : goal_row) : Prop :=
  g_id g' = g_id g /\ g_user_id g' = g_user_id g /\ g_title g' = g_title g
  /\ g_description g' = g_description g /\ g_due_date g' = g_due_date g
  /\ g_visibility g' = g_visibility g /\ g_created_at g' = g_created_at g.

(** Any number of committed calls, one after the other. *)
Inductive steps : store -> store -> Prop :=
| steps_refl st : steps st st
| steps_then st st' st'' : steps st st' -> step st' st'' -> steps st st''.

(** Which activities the WHERE clause of [get_recent_activity] lets
    through, for any viewer. *)
Definition feed_visible_to (st : store) (viewer_role : string)
    (viewer_id : option Z) (a : activity_row) : bool :=
  if String.eqb viewer_role "mentor" then true
  else match viewer_id with
       | Some v => in_feed_of st v a
       | None => String.eqb (g_visibility (goal_of st a)) "public"
       end.

(** ** groq_client.py and streamlit_app.py: helpers around the client *)

Definition newline : string := String (ascii_of_nat 10) EmptyString.

(** [needle in haystack] for two strings. *)
Fixpoint str_contains (needle haystack : string) : bool :=
  String.prefix needle haystack
  || match haystack with
     | EmptyString => false
     | String _ rest => str_contains needle rest
     end.

Section Polish.
Variable float : Type.
(** The default [temperature=0.3] of [request_completion]. *)
Variable default_temperature : float.

Definition polish_prompt (text intent : string) : string :=
  "Rewrite the following note so it clearly communicates "
  ++ intent
  ++ ". Keep technical terminology, reply in less than 180 words."
  ++ newline ++ newline ++ "TEXT:" ++ newline ++ Str.strip text.

Definition polish_text (env : Groq.environment) (text intent : string)
  : Groq.io float Groq.outcome :=
  Groq.request_completion float env (polish_prompt text intent)
                          default_temperature 400 None None None.
End Polish.

(** [has_groq_key] of streamlit_app.py.  Membership in a secrets value
    that is a string is a substring test; in a number or a boolean it
    raises, which [except Exception] turns into [False]. *)
Definition has_groq_key (env : Groq.environment) : bool :=
  match Groq.if_set (Groq.env_GROQ_API_KEY env) with
  | Some _ => true
  | None =>
      match Groq.st_secrets env with
      | Groq.SecretsRaise => false
      | Groq.Secrets top =>
          match Groq.lookup "GROQ_API_KEY" top with
          | Some _ => true
          | None =>
              match Groq.lookup "groq" top with
              | Some (Groq.VTable kvs) =>
                  match Groq.lookup "api_key" kvs with
                  | Some _ => true
                  | None => false
                  end
              | Some (Groq.VStr s) => str_contains "api_key" s
              | Some _ => false
              | None => false
              end
          end
      end
  end.

(** ** streamlit_app.py: what the forms do on submit

    The widgets are not modelled: each handler takes the values the
    widgets returned and gives the store it leaves and the notice it
    shows.  bcrypt and its random salt are parameters. *)

Inductive notice :=
| st_error (message : string)
| st_warning (message : string)
| st_success (message : string).

Section Forms.
(** [bcrypt.hashpw(password, salt)] and [bcrypt.checkpw(password, hashed)],
    the latter giving [None] where it raises ValueError. *)
Variable bcrypt_hashpw : string -> string -> string.
Variable bcrypt_checkpw : string -> string -> option bool.

Definition hash_password (salt password : string) : string :=
  bcrypt_hashpw password salt.

Definition verify_password (password hashed : string) : bool :=
  match bcrypt_checkpw password hashed with
  | Some ok => ok
  | None => false
  end.

(** The "Create my space" branch of [login_register_panel]. *)
Definition register_submitted (now : Z) (salt : string)
    (name email role password confirm : string) (agree : bool) (st : store)
  : store * notice :=
  if negb (Str.truthy name && Str.truthy email && Str.truthy password) then
    (st, st_error "Fill out all fields")
  else if negb (String.eqb password confirm) then
    (st, st_error "Passwords do not match")
  else if negb agree then
    (st, st_warning "Please confirm the responsibility checkbox")
  else
    match commit (create_user now name email role
                              (hash_password salt password)) st with
    | (st', Ok _) =>
        (st', st_success "Account created. Sign in on the previous tab.")
    | (st', Raise (IntegrityError _)) =>
        (st', st_warning "That email is already registered.")
    end.

(** The "Sign in" branch of [login_register_panel]: the user put in the
    session, if any, and the notice. *)
Definition sign_in_submitted (email password : string) (st : store)
  : option user_row * notice :=
  match fetch_user_by_email st email with
  | Some user =>
      if verify_password password (u_password_hash user)
      then (Some user, st_success "Welcome back! Redirecting...")
      else (None, st_error "Invalid credentials")
  | None => (None, st_error "Invalid credentials")
  end.
End Forms.

(** The "Save goal" branch of [render_goal_creator].  An integrity error
    of [create_goal] is not caught there. *)
Definition save_goal_clicked (now : Z) (user_id : Z)
    (title description : string) (due_date : option string)
    (status visibility : string) (st : store)
  : store * result notice :=
  if negb (Str.truthy (Str.strip title)) then
    (st, Ok (st_warning "Give your goal a title."))
  else
    match commit (create_goal now user_id title (Some description) due_date
                              status visibility) st with
    | (st', Ok _) =>
        (st', Ok (st_success "Goal saved! Scroll below to track it."))
    | (st', Raise e) => (st', Raise e)
    end.

(** The "Log activity" branch of [render_activity_form]. *)
Definition log_activity_clicked (now now_upd : Z) (goal_id user_id : Z)
    (text : string) (progress_value : Z) (ai_flag : bool) (st : store)
  : store * result notice :=
  let entry := Str.strip text in
  if negb (Str.truthy entry) then
    (st, Ok (st_warning "Write a short note before saving."))
  else
    match commit (log_activity now now_upd goal_id user_id entry
                               (Some progress_value) ai_flag) st with
    | (st', Ok _) => (st', Ok (st_success "Update stored"))
    | (st', Raise e) => (st', Raise e)
    end.

(** * Properties *)

(** ** The AI-assist client *)

Section ClientFacts.
Variable float : Type.
Import Groq.

Lemma if_set_none (o : option string) :
  if_set o = None <-> o = None \/ o = Some "".
Proof.
  destruct o as [[|c s]|]; simpl; split; intros H; auto;
    try discriminate; destruct H; discriminate.
Qed.

Lemma if_set_some (o : option string) (k : string) :
  o = Some k -> k <> "" -> if_set o = Some k.
Proof. intros -> Hk. destruct k; [contradiction|reflexivity]. Qed.

Lemma no_key_no_call env prompt temperature max_tokens api_key sys model :
  falsy (_load_key env api_key) = true ->
  request_completion float env prompt temperature max_tokens api_key sys model
  = Done (Returned None (Some set_credential_message)).
Proof.
  unfold Groq.request_completion, falsy. intros H.
  destruct (_load_key env api_key) as [k|]; [|reflexivity].
  destruct (truthy k); [discriminate|reflexivity].
Qed.

(** C5: the credential is the explicit parameter when that is set; else
    the environment variable when that is set; else the secrets store,
    where a top-level GROQ_API_KEY entry comes before the api_key entry
    of a groq table; else nothing.  A usable credential found this way is
    the bearer sent with the one request; and when no credential is found
    anywhere the call returns the set-the-credential message without
    posting. *)
Theorem credential_resolution_order env api_key :
  (forall k, api_key = Some k -> k <> "" ->
     _load_key env api_key = Some (VStr k))
  /\ (forall e, (api_key = None \/ api_key = Some "") ->
        env_GROQ_API_KEY env = Some e -> e <> "" ->
        _load_key env api_key = Some (VStr e))
  /\ (forall top v,
        (api_key = None \/ api_key = Some "") ->
        (env_GROQ_API_KEY env = None \/ env_GROQ_API_KEY env = Some "") ->
        st_secrets env = Secrets top ->
        lookup "GROQ_API_KEY" top = Some v ->
        _load_key env api_key = Some v)
  /\ (forall top kvs v,
        (api_key = None \/ api_key = Some "") ->
        (env_GROQ_API_KEY env = None \/ env_GROQ_API_KEY env = Some "") ->
        st_secrets env = Secrets top ->
        lookup "GROQ_API_KEY" top = None ->
        lookup "groq" top = Some (VTable kvs) ->
        lookup "api_key" kvs = Some v ->
        _load_key env api_key = Some v)
  /\ ((api_key = None \/ api_key = Some "") ->
      (env_GROQ_API_KEY env = None \/ env_GROQ_API_KEY env = Some "") ->
      (st_secrets env = SecretsRaise
       \/ exists top,
            st_secrets env = Secrets top
            /\ lookup "GROQ_API_KEY" top = None
            /\ forall kvs, lookup "groq" top = Some (VTable kvs) ->
                           lookup "api_key" kvs = None) ->
      _load_key env api_key = None
      /\ forall prompt temperature max_tokens sys model net,
           request_completion float env prompt temperature max_tokens
                              api_key sys model
           = Done (Returned None (Some set_credential_message))
           /\ run net (request_completion float env prompt temperature
                                          max_tokens api_key sys model)
              = (Returned None (Some set_credential_message), []))
  /\ (forall prompt temperature max_tokens sys model net v,
        _load_key env api_key = Some v -> truthy v = true ->
        exists rq,
          snd (run net (request_completion float env prompt temperature
                                           max_tokens api_key sys model))
          = [rq]
          /\ rq_bearer float rq = v)
  /\ (forall prompt temperature max_tokens sys model net,
        falsy (_load_key env api_key) = true ->
        request_completion float env prompt temperature max_tokens api_key
                           sys model
        = Done (Returned None (Some set_credential_message))
        /\ run net (request_completion float env prompt temperature max_tokens
                                       api_key sys model)
           = (Returned None (Some set_credential_message), [])).
Proof.
  assert (Hsecrets : (api_key = None \/ api_key = Some "") ->
      (env_GROQ_API_KEY env = None \/ env_GROQ_API_KEY env = Some "") ->
      _load_key env api_key = secrets_key (st_secrets env)).
  { intros Ha He. unfold _load_key.
    apply if_set_none in Ha, He. now rewrite Ha, He. }
  assert (Hnone : forall prompt temperature max_tokens sys model net,
      falsy (_load_key env api_key) = true ->
      request_completion float env prompt temperature max_tokens api_key
                         sys model
      = Done (Returned None (Some set_credential_message))
      /\ run net (request_completion float env prompt temperature max_tokens
                                     api_key sys model)
         = (Returned None (Some set_credential_message), [])).
  { intros prompt temperature max_tokens sys model net H.
    now rewrite no_key_no_call. }
  split; [|split; [|split; [|split; [|split; [|split]]]]].
  - intros k Hk Hne. unfold _load_key. now rewrite (if_set_some _ _ Hk Hne).
  - intros e Ha He Hne. unfold _load_key.
    apply if_set_none in Ha. now rewrite Ha, (if_set_some _ _ He Hne).
  - intros top v Ha He Hs Hv. rewrite (Hsecrets Ha He), Hs. simpl.
    now rewrite Hv.
  - intros top kvs v Ha He Hs Hv Hg Hk. rewrite (Hsecrets Ha He), Hs. simpl.
    now rewrite Hv, Hg.
  - intros Ha He Hs.
    assert (E : _load_key env api_key = None).
    { rewrite (Hsecrets Ha He).
      destruct Hs as [-> | (top & -> & Hv & Hg)]; [reflexivity|]. simpl.
      rewrite Hv. destruct (lookup "groq" top) as [[s|z|b|kvs]|];
        try reflexivity. now apply Hg. }
    split; [exact E|]. intros prompt temperature max_tokens sys model net.
    apply Hnone. now rewrite E.
  - intros prompt temperature max_tokens sys model net v Hv Ht.
    unfold Groq.request_completion. rewrite Hv, Ht.
    eexists. split.
    + simpl. destruct (net _) as [r|exc]; [|reflexivity].
      destruct (400 <=? status_code r); [reflexivity|].
      destruct (extract_content r) as [c|[]]; reflexivity.
    + reflexivity.
  - exact Hnone.
Qed.
Lemma extract_content_found (r : response) (body v : json) :
  decoded r = Some body -> text_field body = Some v ->
  extract_content r = call_strip v.
Proof.
  unfold extract_content, response_json. intros -> H.
  destruct body as [| | | | |top]; try discriminate. simpl in *.
  destruct (dict_get "choices" top) as [[| | | |[|[| | | | |choice] ?]|]|];
    try discriminate. simpl.
  destruct (dict_get "message" choice) as [[| | | | |message]|];
    try discriminate. simpl.
  now rewrite H.
Qed.

Lemma extract_content_missing (r : response) (body : json) :
  decoded r = Some body -> text_field body = None ->
  extract_content r = Exn KeyError \/ extract_content r = Exn IndexError
  \/ extract_content r = Exn TypeError.
Proof.
  unfold extract_content, response_json. intros -> H.
  destruct body as [| | | | |top]; simpl; auto.
  simpl in H.
  destruct (dict_get "choices" top) as [[| | |[|? ?]|[|x ?]|]|];
    simpl; auto.
  destruct x as [| | | | |choice]; simpl; auto.
  destruct (dict_get "message" choice) as [[| | | | |message]|];
    simpl; auto.
  rewrite H. simpl. auto.
Qed.

(** C6, as the code has it: the call returns (none, message) when no
    credential is found, when the post raises a request exception, when
    the status is 400 or above, and when the decoded body lacks the text
    field; it returns (stripped text, none) when the status is below 400
    and the text field is a string; and whatever it returns has exactly
    one component present. *)
Theorem completion_result env prompt temperature max_tokens api_key sys
    model net :
  let call := request_completion float env prompt temperature max_tokens
                                 api_key sys model in
  (falsy (_load_key env api_key) = true ->
     run net call = (Returned None (Some set_credential_message), []))
  /\ (forall k, _load_key env api_key = Some k -> truthy k = true ->
       exists rq,
         snd (run net call) = [rq] /\ rq_bearer float rq = k
         /\ (forall exc, net rq = RequestException exc ->
               fst (run net call)
               = Returned None (Some ("Groq request failed: " ++ exc)))
         /\ (forall r, net rq = Responded r -> 400 <= status_code r ->
               fst (run net call)
               = Returned None
                   (Some ("Groq API error " ++ show_Z (status_code r)
                          ++ ": " ++ text r)))
         /\ (forall r body s,
               net rq = Responded r -> status_code r < 400 ->
               decoded r = Some body -> text_field body = Some (JStr s) ->
               fst (run net call) = Returned (Some (Str.strip s)) None)
         /\ (forall r body,
               net rq = Responded r -> status_code r < 400 ->
               decoded r = Some body -> text_field body = None ->
               fst (run net call)
               = Returned None (Some "Unexpected response from Groq API.")))
  /\ (forall content error,
        fst (run net call) = Returned content error ->
        (content = None /\ error <> None)
        \/ (content <> None /\ error = None)).
Proof.
  intros call. split; [|split].
  - intros H. subst call. now rewrite no_key_no_call.
  - intros k Hk Ht. subst call. unfold Groq.request_completion.
    rewrite Hk, Ht. eexists. split; [|split; [|repeat split]].
    + simpl. destruct (net _) as [r|exc]; [|reflexivity].
      destruct (400 <=? status_code r); [reflexivity|].
      destruct (extract_content r) as [c|[]]; reflexivity.
    + reflexivity.
    + intros exc E. simpl. rewrite E. reflexivity.
    + intros r E Hs. simpl. rewrite E.
      apply Z.leb_le in Hs. rewrite Hs. reflexivity.
    + intros r body s E Hs Hd Hf. simpl. rewrite E.
      apply Z.leb_gt in Hs. rewrite Hs.
      rewrite (extract_content_found _ _ _ Hd Hf). reflexivity.
    + intros r body E Hs Hd Hf. simpl. rewrite E.
      apply Z.leb_gt in Hs. rewrite Hs.
      destruct (extract_content_missing _ _ Hd Hf) as [X|[X|X]];
        rewrite X; reflexivity.
  - intros content error. subst call. unfold Groq.request_completion.
    destruct (_load_key env api_key) as [k|].
    + destruct (truthy k).
      * simpl. destruct (net _) as [r|exc].
        -- destruct (400 <=? status_code r).
           ++ simpl. intros [= <- <-]. left. split; congruence.
           ++ destruct (extract_content r) as [c|[]]; simpl;
                intros [= <- <-];
                solve [left; split; congruence | right; split; congruence].
        -- simpl. intros [= <- <-]. left. split; congruence.
      * simpl. intros [= <- <-]. left. split; congruence.
    + simpl. intros [= <- <-]. left. split; congruence.
Qed.
End ClientFacts.

Lemma credential_resolution_order_witness :
  let url := "https://api.groq.com/openai/v1/chat/completions" in
  let secrets :=
    Groq.Secrets [("groq", Groq.VTable [("api_key", Groq.VStr "from-table")]);
                  ("GROQ_API_KEY", Groq.VStr "from-secrets")] in
  let env := Groq.mkEnv (Some "from-env") secrets url "llama3-8b-8192" in
  let quiet := Groq.mkEnv None secrets url "llama3-8b-8192" in
  let table :=
    Groq.mkEnv (Some "")
      (Groq.Secrets [("groq", Groq.VTable [("api_key",
                                            Groq.VStr "from-table")])])
      url "llama3-8b-8192" in
  let bare := Groq.mkEnv None Groq.SecretsRaise url "llama3-8b-8192" in
  Groq._load_key env (Some "explicit") = Some (Groq.VStr "explicit")
  /\ Groq._load_key env (Some "") = Some (Groq.VStr "from-env")
  /\ Groq._load_key quiet None = Some (Groq.VStr "from-secrets")
  /\ Groq._load_key table None = Some (Groq.VStr "from-table")
  /\ (exists rq,
        snd (Groq.run (fun _ => Groq.RequestException "timed out")
               (Groq.request_completion unit table "note" tt 400 None None
                                        None)) = [rq]
        /\ Groq.rq_bearer unit rq = Groq.VStr "from-table")
  /\ Groq._load_key bare None = None
  /\ Groq.run (fun _ => Groq.RequestException "unreachable")
       (Groq.request_completion unit bare "note" tt 400 None None None)
     = (Groq.Returned None (Some set_credential_message), []).
Proof.
  intros url secrets env quiet table bare.
  destruct (credential_resolution_order unit env (Some "explicit"))
    as (H1 & _).
  destruct (credential_resolution_order unit env (Some ""))
    as (_ & H2 & _).
  destruct (credential_resolution_order unit quiet None)
    as (_ & _ & H3 & _).
  destruct (credential_resolution_order unit table None)
    as (_ & _ & _ & H4 & _ & H6 & _).
  destruct (credential_resolution_order unit bare None)
    as (_ & _ & _ & _ & H5 & _).
  split; [apply H1; [reflexivity|discriminate]|].
  split; [apply (H2 "from-env"); [right; reflexivity|reflexivity|discriminate]|].
  split.
  { eapply H3; [left; reflexivity | left; reflexivity | reflexivity
               | reflexivity]. }
  assert (Htable : Groq._load_key table None = Some (Groq.VStr "from-table")).
  { eapply H4; [left; reflexivity | right; reflexivity | reflexivity
               | reflexivity | reflexivity | reflexivity]. }
  split; [exact Htable|].
  split; [apply (H6 "note" tt 400 None None _ _ Htable); reflexivity|].
  destruct H5 as [Hnone Hcall];
    [left; reflexivity | left; reflexivity | left; reflexivity |].
  split; [exact Hnone|]. apply Hcall.
Defined.

Lemma completion_result_witness :
  let env := Groq.mkEnv None Groq.SecretsRaise
               "https://api.groq.com/openai/v1/chat/completions"
               "llama3-8b-8192" in
  let body := Groq.JObj [("choices",
                Groq.JArr [Groq.JObj [("message",
                  Groq.JObj [("role", Groq.JStr "assistant");
                             ("content", Groq.JStr " Grew 3 cultures. ")])]])] in
  let net := fun _ : Groq.request unit =>
               Groq.Responded (Groq.mkResponse 200 "{...}" (Some body)) in
  fst (Groq.run net
         (Groq.request_completion unit env "note" tt 400 (Some "gsk")
                                  None None))
  = Groq.Returned (Some "Grew 3 cultures.") None.
Proof.
  intros env body net.
  destruct (completion_result unit env "note" tt 400 (Some "gsk") None None
                              net) as (_ & H & _).
  destruct (H (Groq.VStr "gsk") eq_refl eq_refl)
    as (rq & _ & _ & _ & _ & Hok & _).
  apply (Hok (Groq.mkResponse 200 "{...}" (Some body)) body
             " Grew 3 cultures. ");
    [reflexivity | simpl; lia | reflexivity | reflexivity].
Defined.

(** C6 as stated fails on a response outside 2xx and below 400: a 300
    that carries the text field is returned as a success. *)
Lemma completion_non_2xx_counterexample :
  ~ (forall env prompt max_tokens api_key sys model
            (net : Groq.request unit -> Groq.post_outcome) rq r,
       snd (Groq.run net (Groq.request_completion unit env prompt tt
                            max_tokens api_key sys model)) = [rq] ->
       net rq = Groq.Responded r ->
       ~ (200 <= Groq.status_code r < 300) ->
       exists message,
         fst (Groq.run net (Groq.request_completion unit env prompt tt
                              max_tokens api_key sys model))
         = Groq.Returned None (Some message)).
Proof.
  intros claim.
  pose (body := Groq.JObj [("choices",
                  Groq.JArr [Groq.JObj [("message",
                    Groq.JObj [("content", Groq.JStr "Pick one")])]])]).
  pose (r := Groq.mkResponse 300 "{...}" (Some body)).
  pose (env := Groq.mkEnv None Groq.SecretsRaise "u" "m").
  destruct (claim env "note" 400 (Some "gsk") None None
                  (fun _ => Groq.Responded r)
                  (Groq.mkRequest unit "u" (Groq.VStr "gsk") "m" tt 400
                     Groq.DEFAULT_SYSTEM_PROMPT "note") r)
    as [message H]; [reflexivity | reflexivity | simpl; lia |].
  discriminate H.
Qed.

(** Outside the cases above the handler does not return: a body that is
    not JSON, or a text field that is not a string, raises through
    [except (KeyError, IndexError, TypeError)]. *)
Example completion_undecodable_body :
  fst (Groq.run
         (fun _ => Groq.Responded (Groq.mkResponse 200 "<html>" None))
         (Groq.request_completion unit
            (Groq.mkEnv None Groq.SecretsRaise "u" "m")
            "note" tt 400 (Some "gsk") None None))
  = Groq.Propagated Groq.JSONDecodeError.
Proof. reflexivity. Qed.

Example completion_null_content :
  fst (Groq.run
         (fun _ => Groq.Responded
            (Groq.mkResponse 200 "{...}"
               (Some (Groq.JObj [("choices",
                  Groq.JArr [Groq.JObj [("message",
                    Groq.JObj [("content", Groq.JNull)])]])]))))
         (Groq.request_completion unit
            (Groq.mkEnv None Groq.SecretsRaise "u" "m")
            "note" tt 400 (Some "gsk") None None))
  = Groq.Propagated Groq.AttributeError.
Proof. reflexivity. Qed.

(** ** Strings *)

Module StrFacts.
Import Str.

Ltac each_char c :=
  destruct c as [[] [] [] [] [] [] [] []]; vm_compute; try reflexivity.

Lemma py_lower_char_idem c : py_lower_char (py_lower_char c) = py_lower_char c.
Proof. each_char c. Qed.

Lemma sqlite_lower_char_of_py c :
  sqlite_lower_char (py_lower_char c) = py_lower_char c.
Proof. each_char c. Qed.

Lemma is_space_py_lower_char c : is_space (py_lower_char c) = is_space c.
Proof. each_char c. Qed.

Lemma lower_idem s : lower (lower s) = lower s.
Proof.
  unfold lower. induction s as [|c s IH]; simpl; [reflexivity|].
  now rewrite py_lower_char_idem, IH.
Qed.

Lemma sqlite_lower_lower s : sqlite_lower (lower s) = lower s.
Proof.
  unfold lower, sqlite_lower. induction s as [|c s IH]; simpl; [reflexivity|].
  now rewrite sqlite_lower_char_of_py, IH.
Qed.

Lemma lstrip_lower s : lstrip (lower s) = lower (lstrip s).
Proof.
  unfold lower. induction s as [|c s IH]; simpl; [reflexivity|].
  rewrite is_space_py_lower_char. destruct (is_space c); [exact IH|reflexivity].
Qed.

Lemma rstrip_lower s : rstrip (lower s) = lower (rstrip s).
Proof.
  unfold lower. induction s as [|c s IH]; simpl; [reflexivity|].
  rewrite IH, is_space_py_lower_char.
  destruct (rstrip s); simpl; [destruct (is_space c)|]; reflexivity.
Qed.

(** Stripping and lower-casing commute. *)
Lemma strip_lower s : strip (lower s) = lower (strip s).
Proof. unfold strip. now rewrite lstrip_lower, rstrip_lower. Qed.

(** Two strings that differ only in letter case still do after [strip]. *)
Lemma lower_strip_congr s t :
  lower s = lower t -> lower (strip s) = lower (strip t).
Proof. intros H. now rewrite <- !strip_lower, H. Qed.

End StrFacts.

(** ** The mutating functions, statement by statement *)

Ltac run_txn :=
  unfold bind, get, put, guard, ret, raise, update_goals; simpl.

Lemma create_user_eq now name email role password_hash st :
  create_user now name email role password_hash st
  = if role_check role then
      if email_taken st (Str.lower (Str.strip email))
      then Raise (IntegrityError UniqueEmail)
      else Ok (mkStore
                 (users st ++ [mkUser (seq_users st + 1) (Str.strip name)
                                 (Str.lower (Str.strip email)) role
                                 password_hash now])
                 (goals st) (activities st)
                 (seq_users st + 1) (seq_goals st) (seq_activities st),
               seq_users st + 1)
    else Raise (IntegrityError CheckRole).
Proof.
  unfold create_user. run_txn.
  destruct (role_check role); simpl; [|reflexivity].
  destruct (email_taken st _); reflexivity.
Qed.

Lemma create_goal_eq now user_id title description due_date status
    visibility st :
  create_goal now user_id title description due_date status visibility st
  = if visibility_check visibility then
      if has_user st user_id then
        Ok (mkStore (users st)
              (goals st ++
                 [mkGoal (seq_goals st + 1) user_id (Str.strip title)
                    match description with
                    | Some d => if Str.truthy d then Some (Str.strip d)
                                else None
                    | None => None
                    end
                    due_date status visibility now now])
              (activities st)
              (seq_users st) (seq_goals st + 1) (seq_activities st),
            seq_goals st + 1)
      else Raise (IntegrityError ForeignKey)
    else Raise (IntegrityError CheckVisibility).
Proof.
  unfold create_goal. run_txn.
  destruct (visibility_check visibility); simpl; [|reflexivity].
  destruct (has_user st user_id); reflexivity.
Qed.

Lemma update_goal_status_eq now goal_id status st :
  update_goal_status now goal_id status st
  = Ok (mkStore (users st)
          (List.map (fun g => if g_id g =? goal_id
                              then set_last_updated now (set_status status g)
                              else g) (goals st))
          (activities st)
          (seq_users st) (seq_goals st) (seq_activities st), tt).
Proof. reflexivity. Qed.

(** The two UPDATE statements of [log_activity] on one goal row. *)
Lemma log_activity_eq now now_upd goal_id user_id entry_text progress
    ai_generated st :
  log_activity now now_upd goal_id user_id entry_text progress ai_generated st
  = if has_goal st goal_id && has_user st user_id then
      Ok (mkStore (users st)
            (let touched :=
               List.map (fun g => if g_id g =? goal_id
                                  then set_last_updated now_upd g else g)
                        (goals st) in
             match progress with
             | Some p =>
                 if 100 <=? p
                 then List.map
                        (fun g => if (g_id g =? goal_id)
                                     && negb (String.eqb (g_status g)
                                                         "Completed")
                                  then set_status "Completed" g else g)
                        touched
                 else touched
             | None => touched
             end)
            (activities st ++
               [mkActivity (seq_activities st + 1) goal_id user_id
                  (Str.strip entry_text) progress (Z.b2z ai_generated) now])
            (seq_users st) (seq_goals st) (seq_activities st + 1),
          seq_activities st + 1)
    else Raise (IntegrityError ForeignKey).
Proof.
  unfold log_activity. run_txn.
  destruct (has_goal st goal_id && has_user st user_id); simpl;
    [|reflexivity].
  destruct progress as [p|]; [destruct (100 <=? p)|]; reflexivity.
Qed.

(** ** The schema invariant *)

Lemma has_user_iff st uid :
  has_user st uid = true <-> exists u, In u (users st) /\ u_id u = uid.
Proof.
  unfold has_user. rewrite existsb_exists.
  split; intros (u & Hin & H); exists u; split; auto;
    now apply Z.eqb_eq.
Qed.

Lemma has_goal_iff st gid :
  has_goal st gid = true <-> exists g, In g (goals st) /\ g_id g = gid.
Proof.
  unfold has_goal. rewrite existsb_exists.
  split; intros (g & Hin & H); exists g; split; auto;
    now apply Z.eqb_eq.
Qed.

Lemma email_taken_iff st email :
  email_taken st email = true <-> In email (List.map u_email (users st)).
Proof.
  unfold email_taken. rewrite existsb_exists, in_map_iff.
  split; intros (u & H1 & H2); exists u.
  - apply String.eqb_eq in H2. auto.
  - split; [exact H2|]. now apply String.eqb_eq.
Qed.

Lemma NoDup_snoc {A} (l : list A) (x : A) :
  NoDup l -> ~ In x l -> NoDup (l ++ [x]).
Proof.
  intros Hl Hx. apply NoDup_app; [exact Hl | repeat constructor; intros [] |].
  intros y Hy [<-|[]]. contradiction.
Qed.

Lemma fresh_id {A} (id : A -> Z) (l : list A) (n : Z) :
  (forall x, In x l -> id x <= n) -> ~ In (n + 1) (List.map id l).
Proof.
  intros H Hin. apply in_map_iff in Hin as (x & E & Hx).
  apply H in Hx. lia.
Qed.

(** An UPDATE on goals that keeps the primary key. *)
Lemma map_update_ids (cond : goal_row -> bool) (set : goal_row -> goal_row)
    (l : list goal_row) :
  (forall g, g_id (set g) = g_id g) ->
  List.map g_id (List.map (fun g => if cond g then set g else g) l)
  = List.map g_id l.
Proof.
  intros H. rewrite map_map. apply map_ext. intros g.
  destruct (cond g); [apply H|reflexivity].
Qed.

Lemma map_update_owner (cond : goal_row -> bool) (set : goal_row -> goal_row)
    (l : list goal_row) :
  (forall g, g_user_id (set g) = g_user_id g) ->
  List.map g_user_id (List.map (fun g => if cond g then set g else g) l)
  = List.map g_user_id l.
Proof.
  intros H. rewrite map_map. apply map_ext. intros g.
  destruct (cond g); [apply H|reflexivity].
Qed.

Lemma distinct_Z_sound (l : list Z) : distinct Z.eqb l = true -> NoDup l.
Proof.
  induction l as [|x l IH]; simpl; intros H; constructor;
    apply andb_true_iff in H as [H1 H2]; auto.
  intros Hin. apply negb_true_iff in H1.
  assert (existsb (Z.eqb x) l = true); [|congruence].
  apply existsb_exists. exists x. split; [exact Hin|apply Z.eqb_refl].
Qed.

Lemma distinct_string_sound (l : list string) :
  distinct String.eqb l = true -> NoDup l.
Proof.
  induction l as [|x l IH]; simpl; intros H; constructor;
    apply andb_true_iff in H as [H1 H2]; auto.
  intros Hin. apply negb_true_iff in H1.
  assert (existsb (String.eqb x) l = true); [|congruence].
  apply existsb_exists. exists x. split; [exact Hin|apply String.eqb_refl].
Qed.

Lemma check_schema_sound st : check_schema st = true -> schema_ok st.
Proof.
  unfold check_schema. rewrite !andb_true_iff, !forallb_forall.
  intros ((((((((H1 & H2) & H3) & H4) & H5) & H6) & H7) & H8) & H9).
  constructor.
  - now apply distinct_Z_sound.
  - now apply distinct_Z_sound.
  - now apply distinct_Z_sound.
  - intros u Hu. apply Z.leb_le. auto.
  - intros g Hg. apply Z.leb_le. auto.
  - intros a Ha. apply Z.leb_le. auto.
  - now apply distinct_string_sound.
  - auto.
  - intros a Ha. apply andb_true_iff. auto.
Qed.

Lemma check_emails_folded_sound st :
  check_emails_folded st = true -> emails_folded st.
Proof.
  unfold check_emails_folded, emails_folded. intros H u Hu.
  eapply forallb_forall in H; eauto. now apply String.eqb_eq.
Qed.

Lemma has_user_in st uid :
  has_user st uid = true <-> In uid (List.map u_id (users st)).
Proof.
  rewrite has_user_iff, in_map_iff.
  split; intros (u & H1 & H2); exists u; auto.
Qed.

Lemma has_goal_in st gid :
  has_goal st gid = true <-> In gid (List.map g_id (goals st)).
Proof.
  rewrite has_goal_iff, in_map_iff.
  split; intros (g & H1 & H2); exists g; auto.
Qed.

Lemma empty_store_ok : schema_ok empty_store.
Proof. apply check_schema_sound. reflexivity. Qed.

(** Rewriting goal rows in place, keys and owners kept. *)
Lemma schema_ok_update_goals st gs :
  schema_ok st ->
  List.map g_id gs = List.map g_id (goals st) ->
  List.map g_user_id gs = List.map g_user_id (goals st) ->
  schema_ok (mkStore (users st) gs (activities st)
                     (seq_users st) (seq_goals st) (seq_activities st)).
Proof.
  intros [Hu Hg Ha Hus Hgs Has He Hgf Haf] Hid Hown.
  constructor; simpl.
  - exact Hu.
  - now rewrite Hid.
  - exact Ha.
  - exact Hus.
  - intros g Hin. apply (in_map g_id) in Hin. rewrite Hid in Hin.
    apply in_map_iff in Hin as (g0 & <- & Hin0). auto.
  - exact Has.
  - exact He.
  - intros g Hin. apply (in_map g_user_id) in Hin. rewrite Hown in Hin.
    apply in_map_iff in Hin as (g0 & E & Hin0).
    rewrite <- E. exact (Hgf g0 Hin0).
  - intros a Hin. destruct (Haf a Hin) as [H1 H2].
    split; [|exact H2]. apply has_goal_in. simpl. rewrite Hid.
    now apply has_goal_in.
Qed.

Lemma schema_ok_add_user st row :
  schema_ok st ->
  u_id row = seq_users st + 1 ->
  email_taken st (u_email row) = false ->
  schema_ok (mkStore (users st ++ [row]) (goals st) (activities st)
                     (u_id row) (seq_goals st) (seq_activities st)).
Proof.
  intros [Hu Hg Ha Hus Hgs Has He Hgf Haf] Hid Hfree.
  assert (Hmono : forall uid,
             has_user st uid = true ->
             has_user (mkStore (users st ++ [row]) (goals st) (activities st)
                               (u_id row) (seq_goals st) (seq_activities st))
                      uid = true).
  { intros uid. unfold has_user. simpl. rewrite existsb_app.
    intros ->. reflexivity. }
  constructor; simpl.
  - rewrite map_app. simpl. apply NoDup_snoc; [assumption|].
    rewrite Hid. now apply fresh_id.
  - exact Hg.
  - exact Ha.
  - intros u Hin. apply in_app_iff in Hin as [Hin|[<-|[]]]; [|lia].
    apply Hus in Hin. lia.
  - exact Hgs.
  - exact Has.
  - rewrite map_app. simpl. apply NoDup_snoc; [assumption|].
    intros Hin. apply email_taken_iff in Hin. congruence.
  - intros g Hin. apply Hmono. auto.
  - intros a Hin. destruct (Haf a Hin) as [H1 H2].
    split; [exact H1 | now apply Hmono].
Qed.

Lemma schema_ok_add_goal st row :
  schema_ok st ->
  g_id row = seq_goals st + 1 ->
  has_user st (g_user_id row) = true ->
  schema_ok (mkStore (users st) (goals st ++ [row]) (activities st)
                     (seq_users st) (g_id row) (seq_activities st)).
Proof.
  intros [Hu Hg Ha Hus Hgs Has He Hgf Haf] Hid Hown.
  constructor; simpl.
  - exact Hu.
  - rewrite map_app. simpl. apply NoDup_snoc; [assumption|].
    rewrite Hid. now apply fresh_id.
  - exact Ha.
  - exact Hus.
  - intros g Hin. apply in_app_iff in Hin as [Hin|[<-|[]]]; [|lia].
    apply Hgs in Hin. lia.
  - exact Has.
  - exact He.
  - intros g Hin.
    apply in_app_iff in Hin as [Hin|[<-|[]]];
      [exact (Hgf g Hin) | exact Hown].
  - intros a Hin. destruct (Haf a Hin) as [H1 H2].
    split; [|exact H2]. unfold has_goal in *. simpl. rewrite existsb_app.
    now rewrite H1.
Qed.

Lemma schema_ok_add_activity st row :
  schema_ok st ->
  a_id row = seq_activities st + 1 ->
  has_goal st (a_goal_id row) = true ->
  has_user st (a_user_id row) = true ->
  schema_ok (mkStore (users st) (goals st) (activities st ++ [row])
                     (seq_users st) (seq_goals st) (a_id row)).
Proof.
  intros [Hu Hg Ha Hus Hgs Has He Hgf Haf] Hid Hgoal Huser.
  constructor; simpl.
  - exact Hu.
  - exact Hg.
  - rewrite map_app. simpl. apply NoDup_snoc; [assumption|].
    rewrite Hid. now apply fresh_id.
  - exact Hus.
  - exact Hgs.
  - intros a Hin. apply in_app_iff in Hin as [Hin|[<-|[]]]; [|lia].
    apply Has in Hin. lia.
  - exact He.
  - exact Hgf.
  - intros a Hin.
    apply in_app_iff in Hin as [Hin|[<-|[]]];
      [exact (Haf a Hin) | split; [exact Hgoal | exact Huser]].
Qed.

Lemma touched_ids now goal_id progress (gs : list goal_row) :
  let touched :=
    List.map (fun g => if g_id g =? goal_id then set_last_updated now g else g)
             gs in
  let gs' :=
    match progress with
    | Some p =>
        if 100 <=? p
        then List.map
               (fun g => if (g_id g =? goal_id)
                            && negb (String.eqb (g_status g) "Completed")
                         then set_status "Completed" g else g) touched
        else touched
    | None => touched
    end in
  List.map g_id gs' = List.map g_id gs
  /\ List.map g_user_id gs' = List.map g_user_id gs.
Proof.
  intros touched gs'.
  assert (Ht : List.map g_id touched = List.map g_id gs
               /\ List.map g_user_id touched = List.map g_user_id gs).
  { split; [apply map_update_ids | apply map_update_owner]; reflexivity. }
  subst gs'. destruct progress as [p|]; [destruct (100 <=? p)|]; try exact Ht.
  destruct Ht as [<- <-].
  split; [apply map_update_ids | apply map_update_owner]; reflexivity.
Qed.

(** Every committed call keeps the schema constraints. *)
Lemma step_schema_ok st st' : step st st' -> schema_ok st -> schema_ok st'.
Proof.
  intros [now name email role ph id H
         |now uid title descr due status vis id H
         |now gid status H
         |now now_upd gid uid entry progress ai id H] Hok.
  - rewrite create_user_eq in H.
    destruct (role_check role); [|discriminate].
    destruct (email_taken st _) eqn:E; [discriminate|].
    injection H as <- _.
    now apply (schema_ok_add_user st
                 (mkUser (seq_users st + 1) (Str.strip name)
                         (Str.lower (Str.strip email)) role ph now)).
  - rewrite create_goal_eq in H.
    destruct (visibility_check vis); [|discriminate].
    destruct (has_user st uid) eqn:E; [|discriminate].
    injection H as <- _.
    now apply (schema_ok_add_goal st
                 (mkGoal (seq_goals st + 1) uid (Str.strip title)
                    match descr with
                    | Some d => if Str.truthy d then Some (Str.strip d)
                                else None
                    | None => None
                    end due status vis now now)).
  - rewrite update_goal_status_eq in H. injection H as <-.
    apply schema_ok_update_goals; [exact Hok| |];
      [apply map_update_ids | apply map_update_owner]; reflexivity.
  - rewrite log_activity_eq in H.
    destruct (has_goal st gid && has_user st uid) eqn:E; [|discriminate].
    apply andb_true_iff in E as [Eg Eu].
    injection H as <- _.
    destruct (touched_ids now_upd gid progress (goals st)) as [Hid Hown].
    cbv zeta in Hid, Hown.
    match goal with
    | |- schema_ok (mkStore _ ?gs _ _ _ _) =>
        pose proof (schema_ok_update_goals st gs Hok Hid Hown) as Hup;
        apply (schema_ok_add_activity _
                 (mkActivity (seq_activities st + 1) gid uid
                    (Str.strip entry) progress (Z.b2z ai) now) Hup)
    end.
    + reflexivity.
    + apply has_goal_in. simpl. rewrite Hid. now apply has_goal_in.
    + exact Eu.
Qed.

Lemma step_emails_folded st st' :
  step st st' -> emails_folded st -> emails_folded st'.
Proof.
  intros [now name email role ph id H
         |now uid title descr due status vis id H
         |now gid status H
         |now now_upd gid uid entry progress ai id H] Hok.
  - rewrite create_user_eq in H.
    destruct (role_check role); [|discriminate].
    destruct (email_taken st _); [discriminate|].
    injection H as <- _. intros u Hin. simpl in Hin.
    apply in_app_iff in Hin as [Hin|[<-|[]]]; [now apply Hok|].
    simpl. apply StrFacts.lower_idem.
  - rewrite create_goal_eq in H.
    destruct (visibility_check vis); [|discriminate].
    destruct (has_user st uid); [|discriminate].
    injection H as <- _. exact Hok.
  - rewrite update_goal_status_eq in H. injection H as <-. exact Hok.
  - rewrite log_activity_eq in H.
    destruct (has_goal st gid && has_user st uid); [|discriminate].
    injection H as <- _. exact Hok.
Qed.

(** The invariant of the running application. *)
Lemma reachable_invariant st :
  reachable st -> schema_ok st /\ emails_folded st.
Proof.
  induction 1 as [|st st' _ [IH1 IH2] Hstep].
  - split; [exact empty_store_ok | intros u []].
  - split; [eapply step_schema_ok | eapply step_emails_folded]; eauto.
Qed.

(** ** Goals *)

Lemma lstrip_all_space s : Str.all_space s = true -> Str.lstrip s = "".
Proof.
  induction s as [|c s IH]; simpl; [reflexivity|].
  intros H. apply andb_true_iff in H as [-> H]. auto.
Qed.

Lemma strip_all_space s : Str.all_space s = true -> Str.strip s = "".
Proof. intros H. unfold Str.strip. now rewrite lstrip_all_space. Qed.

(** C10: a successful [create_goal] appends one goal row whose description
    is NULL when the argument is None or empty and the stripped argument
    otherwise; the call succeeds whenever the visibility is valid and the
    owner exists; so a description of whitespace only is stored as the
    empty string, not as NULL. *)
Theorem create_goal_description st now user_id title description due_date
    status visibility :
  (forall st' id,
     create_goal now user_id title description due_date status visibility st
     = Ok (st', id) ->
     exists row,
       goals st' = (goals st ++ [row])%list /\ g_id row = id
       /\ g_description row = stored_description description)
  /\ (visibility_check visibility = true -> has_user st user_id = true ->
      exists st' id,
        create_goal now user_id title description due_date status visibility
                    st = Ok (st', id))
  /\ (forall d, description = Some d -> d <> "" ->
      Str.all_space d = true ->
      stored_description description = Some "").
Proof.
  rewrite create_goal_eq. split; [|split].
  - intros st' id H.
    destruct (visibility_check visibility); [|discriminate].
    destruct (has_user st user_id); [|discriminate].
    injection H as <- <-. eexists. split; [reflexivity|].
    split; [reflexivity|]. simpl.
    destruct description as [[|c d]|]; reflexivity.
  - intros -> ->. eauto.
  - intros d -> Hne Hws. simpl. destruct d as [|c d]; [contradiction|].
    now rewrite strip_all_space.
Qed.

Lemma create_goal_description_witness :
  exists st' id row,
    create_goal 7 1 " Grow cultures " (Some "   ") None "Not started" "public"
      (mkStore [mkUser 1 "Ada" "ada@lab.edu" "student" "h" 3] [] [] 1 0 0)
    = Ok (st', id)
    /\ goals st' = [row] /\ g_description row = Some "".
Proof.
  destruct (create_goal_description
              (mkStore [mkUser 1 "Ada" "ada@lab.edu" "student" "h" 3] [] []
                       1 0 0)
              7 1 " Grow cultures " (Some "   ") None "Not started" "public")
    as (Hrow & Hok & Hws).
  destruct (Hok eq_refl eq_refl) as (st' & id & E).
  destruct (Hrow st' id E) as (row & Hg & _ & Hd).
  exists st', id, row. split; [exact E|]. split; [exact Hg|].
  rewrite Hd. apply (Hws "   "); [reflexivity|discriminate|reflexivity].
Defined.

Lemma find_update (gid : Z) (cond : goal_row -> bool)
    (set : goal_row -> goal_row) (l : list goal_row) :
  (forall g, g_id (set g) = g_id g) ->
  find (fun g => g_id g =? gid)
       (List.map (fun g => if cond g then set g else g) l)
  = option_map (fun g => if cond g then set g else g)
               (find (fun g => g_id g =? gid) l).
Proof.
  intros H. induction l as [|g l IH]; simpl; [reflexivity|].
  replace (g_id (if cond g then set g else g)) with (g_id g)
    by (destruct (cond g); [symmetry; apply H|reflexivity]).
  destruct (g_id g =? gid); [reflexivity|exact IH].
Qed.

Lemma find_goal_id st gid g : find_goal st gid = Some g -> g_id g = gid.
Proof.
  unfold find_goal. intros H. apply find_some in H as [_ H].
  now apply Z.eqb_eq.
Qed.

Lemma find_goal_none st gid : find_goal st gid = None <-> has_goal st gid = false.
Proof.
  unfold find_goal, has_goal. induction (goals st) as [|g l IH]; simpl.
  - tauto.
  - destruct (g_id g =? gid); simpl; [split; discriminate|exact IH].
Qed.

(** C8: [update_goal_status] never raises; it rewrites the status and the
    last-updated time of the rows with the given id and leaves every other
    row, every other column and both other tables alone; with no such row
    the store is unchanged. *)
Theorem update_goal_status_effect st now goal_id status :
  exists st',
    update_goal_status now goal_id status st = Ok (st', tt)
    /\ (forall g, find_goal st goal_id = Some g ->
          find_goal st' goal_id
          = Some (mkGoal (g_id g) (g_user_id g) (g_title g) (g_description g)
                         (g_due_date g) status (g_visibility g)
                         (g_created_at g) now))
    /\ (has_goal st goal_id = false -> st' = st)
    /\ (forall i g, nth_error (goals st) i = Some g -> g_id g <> goal_id ->
          nth_error (goals st') i = Some g)
    /\ List.length (goals st') = List.length (goals st)
    /\ users st' = users st /\ activities st' = activities st.
Proof.
  rewrite update_goal_status_eq. eexists. split; [reflexivity|].
  repeat split; simpl.
  - intros g Hg. unfold find_goal in *. simpl.
    rewrite find_update by reflexivity. rewrite Hg. simpl.
    apply find_some in Hg as [_ ->]. reflexivity.
  - intros Hno. destruct st as [us gs acts s1 s2 s3]. simpl in *. f_equal.
    unfold has_goal in Hno. simpl in Hno.
    induction gs as [|g gs IH]; simpl in *; [reflexivity|].
    apply orb_false_iff in Hno as [-> Hno]. f_equal. auto.
  - intros i g Hi Hne. rewrite nth_error_map, Hi. simpl.
    apply Z.eqb_neq in Hne. now rewrite Hne.
  - apply length_map.
Qed.

Lemma update_goal_status_effect_witness :
  let g1 := mkGoal 1 1 "Grow cultures" None None "Not started" "public" 5 5 in
  let g2 := mkGoal 2 1 "Write up" None None "In progress" "private" 6 6 in
  let st := mkStore [mkUser 1 "Ada" "ada@lab.edu" "student" "h" 3] [g1; g2] []
                    1 2 0 in
  exists st',
    update_goal_status 9 2 "Stuck" st = Ok (st', tt)
    /\ find_goal st' 2
       = Some (mkGoal 2 1 "Write up" None None "Stuck" "private" 6 9)
    /\ nth_error (goals st') 0 = Some g1
    /\ update_goal_status 9 3 "Stuck" st = Ok (st, tt).
Proof.
  intros g1 g2 st.
  destruct (update_goal_status_effect st 9 2 "Stuck")
    as (st' & E & Hset & _ & Hkeep & _).
  destruct (update_goal_status_effect st 9 3 "Stuck")
    as (st0 & E0 & _ & Hno & _).
  exists st'. split; [exact E|]. split; [exact (Hset g2 eq_refl)|]. split.
  - apply Hkeep; [reflexivity|]. simpl. lia.
  - rewrite E0, (Hno eq_refl). reflexivity.
Defined.

(** ** Activities *)

Lemma find_goal_some st gid :
  has_goal st gid = true -> exists g, find_goal st gid = Some g.
Proof.
  intros H. destruct (find_goal st gid) as [g|] eqn:E; [eauto|].
  apply find_goal_none in E. congruence.
Qed.

(** The goal row with id [goal_id] after the UPDATEs of [log_activity]. *)
Lemma log_activity_goal st now now_upd goal_id user_id entry_text progress
    ai_generated st' id g :
  log_activity now now_upd goal_id user_id entry_text progress ai_generated st
  = Ok (st', id) ->
  find_goal st goal_id = Some g ->
  exists g',
    find_goal st' goal_id = Some g'
    /\ g_status g' = (if reaches_100 progress then "Completed" else g_status g)
    /\ g_last_updated g' = now_upd
    /\ g_id g' = g_id g /\ g_user_id g' = g_user_id g
    /\ g_title g' = g_title g /\ g_visibility g' = g_visibility g.
Proof.
  rewrite log_activity_eq.
  destruct (has_goal st goal_id && has_user st user_id); [|discriminate].
  intros [= <- _] Hg. unfold find_goal in *. simpl.
  pose proof Hg as Hid. apply find_some in Hid as [_ Hid].
  destruct progress as [p|]; simpl; [destruct (100 <=? p)|].
  - rewrite !find_update by reflexivity. rewrite Hg. simpl. rewrite Hid. simpl.
    rewrite Hid. simpl. eexists. split; [reflexivity|].
    destruct (String.eqb (g_status g) "Completed") eqn:E; simpl.
    + apply String.eqb_eq in E. rewrite E. repeat split; reflexivity.
    + repeat split; reflexivity.
  - rewrite find_update by reflexivity. rewrite Hg. simpl. rewrite Hid.
    eexists. split; [reflexivity|]. repeat split; reflexivity.
  - rewrite find_update by reflexivity. rewrite Hg. simpl. rewrite Hid.
    eexists. split; [reflexivity|]. repeat split; reflexivity.
Qed.

Lemma log_activity_succeeds st now now_upd goal_id user_id entry_text progress
    ai_generated :
  has_goal st goal_id = true -> has_user st user_id = true ->
  exists st',
    log_activity now now_upd goal_id user_id entry_text progress ai_generated st
    = Ok (st', seq_activities st + 1).
Proof. intros Hg Hu. rewrite log_activity_eq, Hg, Hu. simpl. eauto. Qed.

Lemma log_activity_needs_goal st now now_upd goal_id user_id entry_text progress
    ai_generated st' id :
  log_activity now now_upd goal_id user_id entry_text progress ai_generated st
  = Ok (st', id) ->
  has_goal st goal_id = true /\ has_user st user_id = true.
Proof.
  rewrite log_activity_eq.
  destruct (has_goal st goal_id && has_user st user_id) eqn:E;
    [|discriminate].
  intros _. now apply andb_true_iff.
Qed.

(** C2: logging an activity on an existing goal by an existing user
    succeeds; afterwards the goal's status is "Completed" when the progress
    is present and at least 100 and is the prior status otherwise.  Hence
    100 on "In progress" gives "Completed", 100 a second time keeps
    "Completed", and 50 or no progress keeps the status. *)
Theorem log_activity_status st now now_upd goal_id user_id entry_text
    ai_generated :
  (forall progress,
     has_goal st goal_id = true -> has_user st user_id = true ->
     exists st' id,
       log_activity now now_upd goal_id user_id entry_text progress
         ai_generated st
       = Ok (st', id))
  /\ (forall progress st' id,
        log_activity now now_upd goal_id user_id entry_text progress
          ai_generated st
        = Ok (st', id) ->
        exists g g',
          find_goal st goal_id = Some g /\ find_goal st' goal_id = Some g'
          /\ g_status g'
             = if reaches_100 progress then "Completed" else g_status g)
  /\ (forall g st' id,
        find_goal st goal_id = Some g -> g_status g = "In progress" ->
        log_activity now now_upd goal_id user_id entry_text (Some 100)
          ai_generated st
        = Ok (st', id) ->
        exists g', find_goal st' goal_id = Some g'
                   /\ g_status g' = "Completed")
  /\ (forall st1 id1 now2 now_upd2 user2 entry2 ai2 st2 id2,
        log_activity now now_upd goal_id user_id entry_text (Some 100)
          ai_generated st
        = Ok (st1, id1) ->
        log_activity now2 now_upd2 goal_id user2 entry2 (Some 100) ai2 st1
        = Ok (st2, id2) ->
        exists g1 g2,
          find_goal st1 goal_id = Some g1 /\ g_status g1 = "Completed"
          /\ find_goal st2 goal_id = Some g2 /\ g_status g2 = "Completed")
  /\ (forall progress g st' id,
        progress = Some 50 \/ progress = None ->
        find_goal st goal_id = Some g ->
        log_activity now now_upd goal_id user_id entry_text progress
          ai_generated st
        = Ok (st', id) ->
        exists g', find_goal st' goal_id = Some g'
                   /\ g_status g' = g_status g).
Proof.
  assert (main : forall st now now_upd goal_id user_id entry_text progress
                        ai_generated st' id,
             log_activity now now_upd goal_id user_id entry_text progress
                          ai_generated st = Ok (st', id) ->
             exists g g',
               find_goal st goal_id = Some g
               /\ find_goal st' goal_id = Some g'
               /\ g_status g'
                  = if reaches_100 progress then "Completed"
                    else g_status g).
  { clear. intros st now now_upd gid uid entry progress ai st' id H.
    destruct (log_activity_needs_goal _ _ _ _ _ _ _ _ _ _ H) as [Hg _].
    destruct (find_goal_some _ _ Hg) as [g Eg].
    destruct (log_activity_goal _ _ _ _ _ _ _ _ _ _ _ H Eg) as (g' & E' & Hs & _).
    eauto. }
  split; [|split; [|split; [|split]]].
  - intros progress Hg Hu.
    destruct (log_activity_succeeds st now now_upd goal_id user_id entry_text
                progress ai_generated Hg Hu) as [st' E]. eauto.
  - intros progress st' id. apply main.
  - intros g st' id Hg Hs H.
    destruct (main _ _ _ _ _ _ _ _ _ _ H) as (g0 & g' & E0 & E' & Hs').
    eauto.
  - intros st1 id1 now2 now_upd2 user2 entry2 ai2 st2 id2 H1 H2.
    destruct (main _ _ _ _ _ _ _ _ _ _ H1) as (g0 & g1 & _ & E1 & Hs1).
    destruct (main _ _ _ _ _ _ _ _ _ _ H2) as (g1' & g2 & E1' & E2 & Hs2).
    exists g1, g2. auto.
  - intros progress g st' id Hp Hg H.
    destruct (main _ _ _ _ _ _ _ _ _ _ H) as (g0 & g' & E0 & E' & Hs').
    rewrite Hg in E0. injection E0 as <-.
    exists g'. split; [exact E'|].
    destruct Hp as [-> | ->]; exact Hs'.
Qed.

Lemma lab_schema_ok : schema_ok Lab.st.
Proof. apply check_schema_sound. reflexivity. Qed.

Lemma lab_emails_folded : emails_folded Lab.st.
Proof. apply check_emails_folded_sound. reflexivity. Qed.

Lemma log_activity_status_witness :
  exists st1 id1 st2 id2 g1 g2,
    log_activity 20 20 1 1 "all plates grown" (Some 100) false Lab.st
    = Ok (st1, id1)
    /\ log_activity 21 21 1 3 "confirmed" (Some 100) true st1 = Ok (st2, id2)
    /\ find_goal st1 1 = Some g1 /\ g_status g1 = "Completed"
    /\ find_goal st2 1 = Some g2 /\ g_status g2 = "Completed".
Proof.
  destruct (log_activity_status Lab.st 20 20 1 1 "all plates grown" false)
    as (Hrun & _ & _ & Htwice & _).
  destruct (Hrun (Some 100) eq_refl eq_refl) as (st1 & id1 & E1).
  destruct (log_activity_status st1 21 21 1 3 "confirmed" true)
    as (Hrun' & _).
  assert (Hg : has_goal st1 1 = true) by (injection E1 as <- _; reflexivity).
  assert (Hu : has_user st1 3 = true) by (injection E1 as <- _; reflexivity).
  destruct (Hrun' (Some 100) Hg Hu) as (st2 & id2 & E2).
  destruct (Htwice st1 id1 21 21 3 "confirmed" true st2 id2 E1 E2)
    as (g1 & g2 & H).
  exists st1, id1, st2, id2, g1, g2. tauto.
Defined.

(** ** Users *)

Lemma email_taken_folded st email :
  emails_folded st ->
  (exists u, In u (users st) /\ Str.lower (u_email u) = Str.lower email) ->
  email_taken st (Str.lower email) = true.
Proof.
  intros Hf (u & Hin & E). apply email_taken_iff, in_map_iff.
  exists u. split; [|exact Hin]. now rewrite <- E, (Hf u Hin).
Qed.

(** C4: a successful [create_user] appends one row with the stripped name
    and the stripped, lower-cased email.  When some stored email equals
    the new one up to letter case the call raises an integrity error (the
    UNIQUE one whenever the role is a valid one) and the store stays as it
    was; so the second of two registrations whose emails differ only in
    case is rejected. *)
Theorem create_user_unique_email st now name email role password_hash :
  emails_folded st ->
  (forall st' id,
     create_user now name email role password_hash st = Ok (st', id) ->
     users st'
     = (users st ++ [mkUser id (Str.strip name) (Str.lower (Str.strip email))
                            role password_hash now])%list
     /\ goals st' = goals st /\ activities st' = activities st)
  /\ ((exists u, In u (users st)
                 /\ Str.lower (u_email u) = Str.lower (Str.strip email)) ->
      exists c,
        commit (create_user now name email role password_hash) st
        = (st, Raise (IntegrityError c))
        /\ (role_check role = true -> c = UniqueEmail))
  /\ (forall st' id now2 name2 email2 role2 password_hash2,
        create_user now name email role password_hash st = Ok (st', id) ->
        Str.lower email2 = Str.lower email ->
        role_check role2 = true ->
        commit (create_user now2 name2 email2 role2 password_hash2) st'
        = (st', Raise (IntegrityError UniqueEmail))).
Proof.
  intros Hf. split; [|split].
  - intros st' id. rewrite create_user_eq.
    destruct (role_check role); [|discriminate].
    destruct (email_taken st _); [discriminate|].
    intros [= <- <-]. auto.
  - intros Hdup. unfold commit. rewrite create_user_eq.
    destruct (role_check role).
    + exists UniqueEmail. split; [|reflexivity].
      now rewrite (email_taken_folded st _ Hf Hdup).
    + exists CheckRole. split; [reflexivity|discriminate].
  - intros st' id now2 name2 email2 role2 ph2 H Hcase Hrole.
    unfold commit. rewrite create_user_eq, Hrole.
    rewrite (StrFacts.lower_strip_congr _ _ Hcase).
    rewrite create_user_eq in H.
    destruct (role_check role); [|discriminate].
    destruct (email_taken st _); [discriminate|].
    injection H as <- _.
    unfold email_taken. simpl. rewrite existsb_app. simpl.
    rewrite String.eqb_refl, orb_true_r. reflexivity.
Qed.

Lemma create_user_unique_email_witness :
  commit (create_user 30 "Ada L." " ADA@Lab.Edu " "student" "h9") Lab.st
  = (Lab.st, Raise (IntegrityError UniqueEmail))
  /\ exists st1 id1,
       create_user 30 "Kay" "Kay@Lab.Edu" "student" "h4" Lab.st = Ok (st1, id1)
       /\ commit (create_user 31 "Kay 2" "kAY@lAB.eDU" "mentor" "h5") st1
          = (st1, Raise (IntegrityError UniqueEmail)).
Proof.
  split.
  - destruct (create_user_unique_email Lab.st 30 "Ada L." " ADA@Lab.Edu "
                "student" "h9" lab_emails_folded) as (_ & Hdup & _).
    destruct Hdup as (c & E & Hc).
    + exists Lab.ada. split; [left; reflexivity | reflexivity].
    + rewrite E, (Hc eq_refl). reflexivity.
  - destruct (create_user_unique_email Lab.st 30 "Kay" "Kay@Lab.Edu"
                "student" "h4" lab_emails_folded) as (_ & _ & Htwice).
    assert (E : exists st1 id1,
               create_user 30 "Kay" "Kay@Lab.Edu" "student" "h4" Lab.st
               = Ok (st1, id1)) by (vm_compute; eauto).
    destruct E as (st1 & id1 & E). exists st1, id1. split; [exact E|].
    apply (Htwice st1 id1 31 "Kay 2" "kAY@lAB.eDU" "mentor" "h5" E);
      reflexivity.
Defined.

Lemma filter_none {A} (f : A -> bool) (l : list A) :
  (forall x, In x l -> f x = false) -> filter f l = [].
Proof.
  induction l as [|x l IH]; simpl; intros H; [reflexivity|].
  rewrite (H x) by now left. auto.
Qed.

Lemma sqlite_lower_folded s : Str.lower s = s -> Str.sqlite_lower s = s.
Proof. intros H. rewrite <- H. apply StrFacts.sqlite_lower_lower. Qed.

Lemma lstrip_pad l s : Str.all_space l = true -> Str.lstrip (l ++ s) = Str.lstrip s.
Proof.
  induction l as [|c l IH]; simpl; [reflexivity|].
  intros H. apply andb_true_iff in H as [-> H]. auto.
Qed.

Lemma rstrip_all_space r : Str.all_space r = true -> Str.rstrip r = "".
Proof.
  induction r as [|c r IH]; simpl; [reflexivity|].
  intros H. apply andb_true_iff in H as [-> H]. now rewrite IH.
Qed.

Lemma rstrip_pad s r : Str.all_space r = true -> Str.rstrip (s ++ r) = Str.rstrip s.
Proof.
  intros H. induction s as [|c s IH]; simpl.
  - now apply rstrip_all_space.
  - now rewrite IH.
Qed.

Lemma strip_pad_right s r :
  Str.all_space r = true -> Str.strip (s ++ r) = Str.strip s.
Proof.
  intros H. unfold Str.strip. induction s as [|c s IH]; simpl.
  - now rewrite lstrip_all_space.
  - destruct (Str.is_space c); [exact IH|].
    change (String c (s ++ r)) with (String c s ++ r).
    now apply rstrip_pad.
Qed.

(** Whitespace around a string does not survive [strip]. *)
Lemma strip_pad l s r :
  Str.all_space l = true -> Str.all_space r = true ->
  Str.strip (l ++ s ++ r) = Str.strip s.
Proof.
  intros Hl Hr. unfold Str.strip. rewrite lstrip_pad by exact Hl.
  now apply strip_pad_right.
Qed.

(** C9: after [create_user] succeeds with email [e], looking up any string
    that equals [e] up to letter case and surrounding whitespace returns
    the row just stored. *)
Theorem fetch_user_by_email_roundtrip st now name email role password_hash
    st' id :
  emails_folded st ->
  create_user now name email role password_hash st = Ok (st', id) ->
  let row := mkUser id (Str.strip name) (Str.lower (Str.strip email)) role
                    password_hash now in
  (forall v, Str.lower (Str.strip v) = Str.lower (Str.strip email) ->
     fetch_user_by_email st' v = Some row)
  /\ (forall l w r,
        Str.all_space l = true -> Str.all_space r = true ->
        Str.lower w = Str.lower email ->
        fetch_user_by_email st' (l ++ w ++ r) = Some row).
Proof.
  intros Hf H row.
  assert (main : forall v,
             Str.lower (Str.strip v) = Str.lower (Str.strip email) ->
             fetch_user_by_email st' v = Some row).
  { intros v Hv. rewrite create_user_eq in H.
    destruct (role_check role); [|discriminate].
    destruct (email_taken st _) eqn:Hfree; [discriminate|].
    injection H as <- <-. subst row.
    unfold fetch_user_by_email. simpl. rewrite Hv, filter_app. simpl.
    rewrite StrFacts.sqlite_lower_lower, String.eqb_refl.
    rewrite filter_none; [reflexivity|].
    intros u Hin. rewrite (sqlite_lower_folded _ (Hf u Hin)).
    destruct (String.eqb (u_email u) _) eqn:E; [|reflexivity].
    apply String.eqb_eq in E.
    assert (email_taken st (Str.lower (Str.strip email)) = true);
      [|congruence].
    apply email_taken_iff, in_map_iff. eauto. }
  split; [exact main|].
  intros l w r Hl Hr Hw. apply main.
  rewrite strip_pad by assumption. now apply StrFacts.lower_strip_congr.
Qed.

Lemma fetch_user_by_email_roundtrip_witness :
  exists st1,
    create_user 30 " Kay " "Kay@Lab.Edu" "student" "h4" Lab.st = Ok (st1, 4)
    /\ fetch_user_by_email st1 "  KAY@lab.EDU "
       = Some (mkUser 4 "Kay" "kay@lab.edu" "student" "h4" 30).
Proof.
  assert (E : exists st1,
             create_user 30 " Kay " "Kay@Lab.Edu" "student" "h4" Lab.st
             = Ok (st1, 4)) by (vm_compute; eauto).
  destruct E as (st1 & E). exists st1. split; [exact E|].
  destruct (fetch_user_by_email_roundtrip Lab.st 30 " Kay " "Kay@Lab.Edu"
              "student" "h4" st1 4 lab_emails_folded E) as (Hfetch & _).
  apply (Hfetch "  KAY@lab.EDU "). reflexivity.
Defined.

(** ** The SQL operators *)

Module SqlFacts.
Import Sql.

Section Sorting.
Context {A : Type} (key : A -> Z).

Lemma insert_desc_perm x l : Permutation (x :: l) (insert_desc key x l).
Proof.
  induction l as [|y l IH]; simpl; [reflexivity|].
  destruct (key x <? key y); [|reflexivity].
  rewrite perm_swap. now constructor.
Qed.

Lemma order_by_desc_perm l : Permutation l (order_by_desc key l).
Proof.
  induction l as [|x l IH]; simpl; [reflexivity|].
  rewrite <- insert_desc_perm. now constructor.
Qed.

Lemma order_by_desc_in x l : In x (order_by_desc key l) <-> In x l.
Proof.
  split; apply Permutation_in;
    [symmetry|]; apply order_by_desc_perm.
Qed.

Lemma insert_desc_in x y l : In y (insert_desc key x l) <-> y = x \/ In y l.
Proof.
  split.
  - intros H. apply (Permutation_in _ (Permutation_sym (insert_desc_perm x l)))
      in H. destruct H; auto.
  - intros H. apply (Permutation_in _ (insert_desc_perm x l)).
    destruct H; [left|right]; auto.
Qed.

Lemma insert_desc_descending x l :
  descending key l -> descending key (insert_desc key x l).
Proof.
  induction l as [|y l IH]; simpl.
  - intros _. split; [intros ? []|exact I].
  - intros [Hy Hl]. destruct (key x <? key y) eqn:E.
    + apply Z.ltb_lt in E. split; [|auto].
      intros z Hz. apply insert_desc_in in Hz as [->|Hz]; [lia|auto].
    + apply Z.ltb_ge in E. split; [|split; assumption].
      intros z [<-|Hz]; [exact E|]. specialize (Hy z Hz). lia.
Qed.

Lemma order_by_desc_descending l : descending key (order_by_desc key l).
Proof.
  induction l as [|x l IH]; simpl; [exact I|].
  now apply insert_desc_descending.
Qed.

(** Inserting a row keeps the order of the rows already there. *)
Lemma insert_desc_precedes a x y l :
  precedes x y l -> precedes x y (insert_desc key a l).
Proof.
  induction 1 as [l Hy|b l H IH]; simpl.
  - destruct (key a <? key x).
    + apply precedes_here. apply insert_desc_in. now right.
    + apply precedes_skip. now apply precedes_here.
  - destruct (key a <? key b).
    + now apply precedes_skip.
    + apply precedes_skip. now apply precedes_skip.
Qed.

(** A new row goes in front of every row that is not newer. *)
Lemma insert_desc_first x y l :
  In y l -> key y <= key x -> precedes x y (insert_desc key x l).
Proof.
  induction l as [|b l IH]; simpl; [intros []|].
  intros Hy Hk. destruct (key x <? key b) eqn:E.
  - apply Z.ltb_lt in E. destruct Hy as [->|Hy]; [lia|].
    apply precedes_skip. auto.
  - now apply precedes_here.
Qed.

(** ORDER BY ... DESC is stable: of two rows in scan order, the first
    stays first unless the second has the larger key. *)
Lemma order_by_desc_stable x y l :
  precedes x y l -> key y <= key x -> precedes x y (order_by_desc key l).
Proof.
  induction 1 as [l Hy|b l H IH]; simpl; intros Hk.
  - apply insert_desc_first; [|exact Hk]. now apply order_by_desc_in.
  - apply insert_desc_precedes. auto.
Qed.
End Sorting.

Section Projection.
Context {A B : Type} (f : A -> B).

Lemma map_insert_desc (key : B -> Z) x l :
  List.map f (insert_desc (fun r => key (f r)) x l)
  = insert_desc key (f x) (List.map f l).
Proof.
  induction l as [|y l IH]; simpl; [reflexivity|].
  destruct (key (f x) <? key (f y)); simpl; [now rewrite IH|reflexivity].
Qed.

(** Sorting rows on a column of their projection. *)
Lemma map_order_by_desc (key : B -> Z) l :
  List.map f (order_by_desc (fun r => key (f r)) l)
  = order_by_desc key (List.map f l).
Proof.
  induction l as [|x l IH]; simpl; [reflexivity|].
  now rewrite map_insert_desc, IH.
Qed.

Lemma map_filter (p : B -> bool) l :
  List.map f (filter (fun r => p (f r)) l) = filter p (List.map f l).
Proof.
  induction l as [|x l IH]; simpl; [reflexivity|].
  destruct (p (f x)); simpl; now rewrite IH.
Qed.

Lemma map_limit n l : List.map f (limit n l) = limit n (List.map f l).
Proof.
  unfold limit. destruct (n <? 0); [reflexivity|]. symmetry. apply firstn_map.
Qed.

Lemma map_precedes x y l :
  precedes x y l -> precedes (f x) (f y) (List.map f l).
Proof.
  induction 1 as [l Hy|b l H IH]; simpl.
  - apply precedes_here. now apply in_map.
  - now apply precedes_skip.
Qed.
End Projection.

Section Joins.
Context {A B : Type}.

(** A join whose ON clause picks exactly one right row per left row. *)
Lemma inner_join_unique (on : A -> B -> bool) (pick : A -> B) l r :
  (forall a, In a l -> filter (on a) r = [pick a]) ->
  inner_join on l r = List.map (fun a => (a, pick a)) l.
Proof.
  unfold inner_join. induction l as [|a l IH]; simpl; intros H;
    [reflexivity|].
  rewrite (H a) by now left. simpl. f_equal. apply IH.
  intros a' Ha'. apply H. now right.
Qed.

(** A left join whose ON clause picks at most one right row. *)
Lemma left_join_unique (on : A -> B -> bool) (pick : A -> option B) l r :
  (forall a, In a l ->
     filter (on a) r = match pick a with Some b => [b] | None => [] end) ->
  left_join on l r = List.map (fun a => (a, pick a)) l.
Proof.
  unfold left_join. induction l as [|a l IH]; simpl; intros H;
    [reflexivity|].
  rewrite (H a) by now left.
  assert (IH' := IH (fun a' Ha' => H a' (or_intror Ha'))).
  destruct (pick a); simpl; f_equal; exact IH'.
Qed.
End Joins.

Lemma precedes_app_r {A} (x y : A) l1 l2 :
  precedes x y l2 -> precedes x y (l1 ++ l2)%list.
Proof.
  intros H. induction l1 as [|a l1 IH]; simpl; [exact H|].
  now apply precedes_skip.
Qed.

(** [precedes] read positionally. *)
Lemma precedes_split {A} (x y : A) l :
  precedes x y l -> exists l1 l2 l3, l = (l1 ++ x :: l2 ++ y :: l3)%list.
Proof.
  induction 1 as [l Hy|b l H (l1 & l2 & l3 & ->)].
  - apply in_split in Hy as (l2 & l3 & ->). now exists [], l2, l3.
  - now exists (b :: l1), l2, l3.
Qed.

Lemma limit_length {A} n (l : list A) :
  0 <= n -> Z.of_nat (List.length (limit n l)) <= n.
Proof.
  intros Hn. unfold limit. destruct (n <? 0) eqn:E; [apply Z.ltb_lt in E; lia|].
  rewrite length_firstn. lia.
Qed.

Lemma limit_all {A} n (l : list A) :
  n < 0 \/ Z.of_nat (List.length l) <= n -> limit n l = l.
Proof.
  intros H. unfold limit. destruct (n <? 0) eqn:E; [reflexivity|].
  apply Z.ltb_ge in E. apply firstn_all2. lia.
Qed.

Lemma limit_prefix {A} n (l : list A) : exists rest, l = (limit n l ++ rest)%list.
Proof.
  unfold limit. destruct (n <? 0).
  - exists []. now rewrite app_nil_r.
  - exists (skipn (Z.to_nat n) l). symmetry. apply firstn_skipn.
Qed.

End SqlFacts.

(** ** The GROUP BY subquery *)

Lemma activity_counts_snoc acts a :
  activity_counts (acts ++ [a]) = group_add a (activity_counts acts).
Proof. unfold activity_counts. now rewrite fold_left_app. Qed.

Lemma group_add_filter a groups gid :
  filter (fun c => ac_goal_id c =? gid) (group_add a groups)
  = if a_goal_id a =? gid then
      match filter (fun c => ac_goal_id c =? gid) groups with
      | [] => [mkCount (a_goal_id a) 1 (a_created_at a)]
      | c :: rest =>
          mkCount (ac_goal_id c) (ac_total_updates c + 1)
                  (Z.max (ac_latest_update c) (a_created_at a)) :: rest
      end
    else filter (fun c => ac_goal_id c =? gid) groups.
Proof.
  induction groups as [|c r IH]; simpl.
  - destruct (a_goal_id a =? gid); reflexivity.
  - destruct (ac_goal_id c =? a_goal_id a) eqn:E1; simpl.
    + apply Z.eqb_eq in E1.
      replace (ac_goal_id c =? gid) with (a_goal_id a =? gid)
        by now rewrite E1.
      destruct (a_goal_id a =? gid); reflexivity.
    + rewrite IH. destruct (ac_goal_id c =? gid) eqn:E2;
        destruct (a_goal_id a =? gid) eqn:E3; try reflexivity.
      apply Z.eqb_eq in E2, E3. apply Z.eqb_neq in E1. congruence.
Qed.

(** The subquery has one row per goal with activities: their number and
    the newest timestamp. *)
Lemma activity_counts_group acts gid :
  filter (fun c => ac_goal_id c =? gid) (activity_counts acts)
  = match group_of acts gid with Some c => [c] | None => [] end.
Proof.
  induction acts as [|a acts IH] using rev_ind; [reflexivity|].
  rewrite activity_counts_snoc, group_add_filter, IH.
  unfold group_of. rewrite filter_app. simpl.
  destruct (a_goal_id a =? gid) eqn:E.
  - apply Z.eqb_eq in E.
    destruct (filter _ acts) as [|x r]; simpl; [now rewrite E|].
    rewrite map_app, fold_left_app, length_app. simpl.
    do 2 f_equal. f_equal. lia.
  - rewrite app_nil_r. reflexivity.
Qed.

(** ** Listing the goals of a user *)

Lemma annotate_group st g :
  mkSummary g
    (Sql.coalesce
       (option_map ac_total_updates (group_of (activities st) (g_id g))) 0)
    (Sql.coalesce
       (option_map ac_latest_update (group_of (activities st) (g_id g)))
       (g_last_updated g))
  = summarize st g.
Proof.
  unfold summarize, group_of, activities_of, newest.
  destruct (filter _ (activities st)); reflexivity.
Qed.

Lemma where_one {A} (c : A -> bool) (l : list A) :
  Sql.where_ [c] l = filter c l.
Proof.
  unfold Sql.where_. apply filter_ext. intros a. simpl. apply andb_true_r.
Qed.

(** The query of [list_goals_for_user], read off table by table. *)
Lemma list_goals_for_user_eq st uid :
  list_goals_for_user st uid
  = List.map (summarize st)
      (Sql.order_by_desc g_last_updated
         (filter (fun g => g_user_id g =? uid) (goals st))).
Proof.
  unfold list_goals_for_user.
  rewrite (SqlFacts.left_join_unique on_goal_id
             (fun g => group_of (activities st) (g_id g)))
    by (intros g _; apply activity_counts_group).
  rewrite where_one.
  rewrite <- (SqlFacts.map_filter (fun g => (g, group_of (activities st) (g_id g)))
                (fun r => g_user_id (fst r) =? uid)).
  rewrite <- (SqlFacts.map_order_by_desc
                (fun g => (g, group_of (activities st) (g_id g)))
                (fun r => g_last_updated (fst r))).
  rewrite map_map. simpl. apply map_ext. intros g. apply annotate_group.
Qed.

Lemma gs_goal_summarize st l : List.map gs_goal (List.map (summarize st) l) = l.
Proof. rewrite map_map. simpl. apply map_id. Qed.

(** What the UPDATEs of [log_activity] do to the goals table as a whole. *)
Lemma log_activity_goals st now now_upd goal_id user_id entry_text progress
    ai_generated st' id :
  log_activity now now_upd goal_id user_id entry_text progress ai_generated st
  = Ok (st', id) ->
  exists u : goal_row -> goal_row,
    goals st' = List.map u (goals st)
    /\ (forall g, g_id (u g) = g_id g /\ g_user_id (u g) = g_user_id g)
    /\ (forall g, g_id g = goal_id -> g_last_updated (u g) = now_upd)
    /\ (forall g, g_id g <> goal_id -> u g = g).
Proof.
  rewrite log_activity_eq.
  destruct (has_goal st goal_id && has_user st user_id); [|discriminate].
  intros [= <- _]. simpl.
  set (touch := fun g => if g_id g =? goal_id then set_last_updated now_upd g
                         else g).
  set (complete := fun g => if (g_id g =? goal_id)
                               && negb (String.eqb (g_status g) "Completed")
                            then set_status "Completed" g else g).
  assert (Ht : forall g, g_id (touch g) = g_id g
                         /\ g_user_id (touch g) = g_user_id g)
    by (intros g; unfold touch; destruct (g_id g =? goal_id); auto).
  assert (Hc : forall g, g_id (complete g) = g_id g
                         /\ g_user_id (complete g) = g_user_id g
                         /\ g_last_updated (complete g) = g_last_updated g)
    by (intros g; unfold complete; destruct (_ && _); auto).
  assert (Htn : forall g, g_id g = goal_id -> g_last_updated (touch g) =
    now_upd)
    by (intros g <-; unfold touch; now rewrite Z.eqb_refl).
  assert (Hto : forall g, g_id g <> goal_id -> touch g = g)
    by (intros g Hg; unfold touch; apply Z.eqb_neq in Hg; now rewrite Hg).
  assert (Hco : forall g, g_id g <> goal_id -> complete g = g)
    by (intros g Hg; unfold complete; apply Z.eqb_neq in Hg; now rewrite Hg).
  assert (both : exists u : goal_row -> goal_row,
             List.map complete (List.map touch (goals st))
             = List.map u (goals st)
             /\ (forall g, g_id (u g) = g_id g
                           /\ g_user_id (u g) = g_user_id g)
             /\ (forall g, g_id g = goal_id -> g_last_updated (u g) = now_upd)
             /\ (forall g, g_id g <> goal_id -> u g = g)).
  { exists (fun g => complete (touch g)). rewrite map_map.
    split; [reflexivity|]. repeat split.
    - destruct (Hc (touch g)) as (-> & _). apply Ht.
    - destruct (Hc (touch g)) as (_ & -> & _). apply Ht.
    - intros g Hg. destruct (Hc (touch g)) as (_ & _ & ->). auto.
    - intros g Hg. rewrite (Hto g Hg). auto. }
  destruct progress as [p|]; [destruct (100 <=? p)|];
    try exact both; exists touch; repeat split; auto; apply Ht.
Qed.

Lemma create_goal_goals st now user_id title description due_date status
    visibility st' id :
  create_goal now user_id title description due_date status visibility st
  = Ok (st', id) ->
  exists row,
    goals st' = (goals st ++ [row])%list
    /\ g_id row = id /\ id = seq_goals st + 1 /\ seq_goals st' = id
    /\ g_user_id row = user_id /\ g_last_updated row = now.
Proof.
  rewrite create_goal_eq.
  destruct (visibility_check visibility); [|discriminate].
  destruct (has_user st user_id); [|discriminate].
  intros [= <- <-]. eexists. split; [reflexivity|]. simpl. auto.
Qed.

(** C7: the listing holds exactly the goals the user owns, each with the
    number of its activities and the time of the newest one (its own
    last-updated time when it has none), most recently updated first.
    So after creating G1, then G2, then logging on G1, with the clock not
    running backwards, G1 comes before G2. *)
Theorem list_goals_for_user_spec st user_id :
  Permutation (List.map gs_goal (list_goals_for_user st user_id))
              (filter (fun g => g_user_id g =? user_id) (goals st))
  /\ (forall r, In r (list_goals_for_user st user_id) ->
        gs_updates_count r
        = Z.of_nat (List.length (activities_of st (g_id (gs_goal r))))
        /\ gs_latest_update r
           = match newest (activities_of st (g_id (gs_goal r))) with
             | Some t => t
             | None => g_last_updated (gs_goal r)
             end)
  /\ descending g_last_updated
                (List.map gs_goal (list_goals_for_user st user_id))
  /\ (forall t1 title1 descr1 due1 status1 vis1 st1 G1
             t2 title2 descr2 due2 status2 vis2 st2 G2
             t3 t3u author entry progress ai st3 a,
        create_goal t1 user_id title1 descr1 due1 status1 vis1 st
        = Ok (st1, G1) ->
        create_goal t2 user_id title2 descr2 due2 status2 vis2 st1
        = Ok (st2, G2) ->
        log_activity t3 t3u G1 author entry progress ai st2 = Ok (st3, a) ->
        t2 <= t3u ->
        exists l1 l2 l3,
          List.map (fun r => g_id (gs_goal r))
                   (list_goals_for_user st3 user_id)
          = (l1 ++ G1 :: l2 ++ G2 :: l3)%list).
Proof.
  split; [|split; [|split]].
  - rewrite list_goals_for_user_eq, gs_goal_summarize.
    symmetry. apply SqlFacts.order_by_desc_perm.
  - intros r. rewrite list_goals_for_user_eq, in_map_iff.
    intros (g & <- & _). split; reflexivity.
  - rewrite list_goals_for_user_eq, gs_goal_summarize.
    apply SqlFacts.order_by_desc_descending.
  - intros t1 title1 descr1 due1 status1 vis1 st1 G1
           t2 title2 descr2 due2 status2 vis2 st2 G2
           t3 t3u author entry progress ai st3 a H1 H2 H3 Hclock.
    apply create_goal_goals in H1
      as (r1 & E1 & Hid1 & Hseq1 & Hseq1' & Hown1 & _).
    apply create_goal_goals in H2
      as (r2 & E2 & Hid2 & Hseq2 & _ & Hown2 & Ht2).
    apply log_activity_goals in H3 as (u & E3 & Hkeep & Hnow & Hother).
    assert (Hne : g_id r2 <> G1) by lia.
    rewrite list_goals_for_user_eq.
    rewrite <- (map_map gs_goal g_id), gs_goal_summarize.
    apply SqlFacts.precedes_split.
    replace G1 with (g_id (u r1)) by (rewrite (proj1 (Hkeep r1)); exact Hid1).
    rewrite <- Hid2.
    apply SqlFacts.map_precedes, SqlFacts.order_by_desc_stable.
    + rewrite E3, E2, E1, <- app_assoc, map_app, filter_app. simpl.
      rewrite (Hother r2 Hne), (proj2 (Hkeep r1)), Hown1, Hown2, Z.eqb_refl.
      apply SqlFacts.precedes_app_r, precedes_here. now left.
    + rewrite (Hnow r1 Hid1), Ht2. exact Hclock.
Qed.

(** ** Foreign keys resolve to one row *)

Lemma filter_by_key {A} (key : A -> Z) (k : Z) (l : list A) (x : A) :
  NoDup (List.map key l) ->
  find (fun y => key y =? k) l = Some x ->
  filter (fun y => key y =? k) l = [x].
Proof.
  induction l as [|y l IH]; simpl; [discriminate|].
  intros Hnd Hfind. inversion Hnd as [|? ? Hnotin Hnd']; subst.
  destruct (key y =? k) eqn:E.
  - injection Hfind as ->. f_equal. apply filter_none.
    intros z Hz. apply Z.eqb_neq. intros Ez. apply Hnotin.
    apply Z.eqb_eq in E. rewrite E, <- Ez. now apply in_map.
  - auto.
Qed.

Lemma find_user_some st uid :
  has_user st uid = true -> exists u, find_user st uid = Some u.
Proof.
  unfold has_user, find_user. induction (users st) as [|u l IH]; simpl;
    [discriminate|].
  destruct (u_id u =? uid); simpl; eauto.
Qed.

Lemma owner_of_row st g :
  schema_ok st -> In g (goals st) ->
  find_user st (g_user_id g) = Some (owner_of st g)
  /\ filter (fun u => u_id u =? g_user_id g) (users st) = [owner_of st g].
Proof.
  intros Hok Hin. unfold owner_of.
  destruct (find_user_some st _ (goals_fk st Hok g Hin)) as [u E].
  rewrite E. split; [reflexivity|].
  apply filter_by_key; [apply (users_pk st Hok) | exact E].
Qed.

Lemma goal_of_row st a :
  schema_ok st -> In a (activities st) ->
  find_goal st (a_goal_id a) = Some (goal_of st a)
  /\ filter (fun g => g_id g =? a_goal_id a) (goals st) = [goal_of st a].
Proof.
  intros Hok Hin. unfold goal_of.
  destruct (find_goal_some st _ (proj1 (activities_fk st Hok a Hin)))
    as [g E].
  rewrite E. split; [reflexivity|].
  apply filter_by_key; [apply (goals_pk st Hok) | exact E].
Qed.

Lemma author_of_row st a :
  schema_ok st -> In a (activities st) ->
  find_user st (a_user_id a) = Some (author_of st a)
  /\ filter (fun u => u_id u =? a_user_id a) (users st) = [author_of st a].
Proof.
  intros Hok Hin. unfold author_of.
  destruct (find_user_some st _ (proj2 (activities_fk st Hok a Hin)))
    as [u E].
  rewrite E. split; [reflexivity|].
  apply filter_by_key; [apply (users_pk st Hok) | exact E].
Qed.

(** ** The team list and the feed *)

Lemma where_map {A B} (h : A -> B) (clauses : list (B -> bool)) (l : list A) :
  Sql.where_ clauses (List.map h l)
  = List.map h (filter (fun a => forallb (fun c => c (h a)) clauses) l).
Proof.
  unfold Sql.where_.
  now rewrite (SqlFacts.map_filter h (fun r => forallb (fun c => c r) clauses)).
Qed.

(** The query of [get_all_goals], read off table by table. *)
Lemma get_all_goals_eq st viewer_role viewer_id :
  schema_ok st ->
  get_all_goals st viewer_role viewer_id
  = List.map (listing st)
      (Sql.order_by_desc g_last_updated
         (filter (goal_visible_to viewer_role viewer_id) (goals st))).
Proof.
  intros Hok. unfold get_all_goals. cbv zeta.
  rewrite (SqlFacts.inner_join_unique _ (owner_of st))
    by (intros g Hg; apply (owner_of_row st g Hok Hg)).
  rewrite (SqlFacts.left_join_unique _
             (fun gu => group_of (activities st) (g_id (fst gu))))
    by (intros gu _; apply activity_counts_group).
  rewrite map_map, where_map.
  rewrite <- (SqlFacts.map_order_by_desc
                (fun g => (g, owner_of st g,
                           group_of (activities st)
                                    (g_id (fst (g, owner_of st g)))))
                (fun r => g_last_updated (fst (fst r)))).
  rewrite map_map. cbn [fst snd].
  replace (filter _ (goals st))
    with (filter (goal_visible_to viewer_role viewer_id) (goals st)).
  - apply map_ext. intros g. unfold listing.
    rewrite <- (annotate_group st g). reflexivity.
  - apply filter_ext. intros g. unfold goal_visible_to.
    destruct (String.eqb viewer_role "mentor"); simpl; [reflexivity|].
    destruct viewer_id as [v|]; simpl; now rewrite andb_true_r.
Qed.

Lemma get_all_goals_rows st viewer_role viewer_id :
  schema_ok st ->
  Permutation (List.map gl_goal (get_all_goals st viewer_role viewer_id))
              (filter (goal_visible_to viewer_role viewer_id) (goals st)).
Proof.
  intros Hok. rewrite (get_all_goals_eq st _ _ Hok), map_map. simpl.
  rewrite map_id. symmetry. apply SqlFacts.order_by_desc_perm.
Qed.

Lemma get_all_goals_in st viewer_role viewer_id g :
  schema_ok st ->
  In g (List.map gl_goal (get_all_goals st viewer_role viewer_id))
  <-> In g (goals st) /\ goal_visible_to viewer_role viewer_id g = true.
Proof.
  intros Hok. rewrite <- filter_In.
  split; apply Permutation_in; [|symmetry]; now apply get_all_goals_rows.
Qed.

(** C1: the team list holds exactly all goals for a mentor (with or without
    a viewer id), the public goals and the viewer's own for any other role
    with a viewer id, and the public goals alone without one.  So a
    private goal of user A is hidden from another non-mentor B, shown to
    A, and shown to every mentor. *)
Theorem get_all_goals_visibility st viewer_role viewer_id :
  schema_ok st ->
  let shown := List.map gl_goal (get_all_goals st viewer_role viewer_id) in
  (viewer_role = "mentor" -> Permutation shown (goals st))
  /\ (forall v, viewer_role <> "mentor" -> viewer_id = Some v ->
        Permutation shown
          (filter (fun g => String.eqb (g_visibility g) "public"
                            || (g_user_id g =? v)) (goals st)))
  /\ (viewer_role <> "mentor" -> viewer_id = None ->
        Permutation shown
          (filter (fun g => String.eqb (g_visibility g) "public") (goals st)))
  /\ (forall g A,
        In g (goals st) -> g_visibility g = "private" -> g_user_id g = A ->
        (forall role B, role <> "mentor" -> B <> A ->
           ~ In g (List.map gl_goal (get_all_goals st role (Some B))))
        /\ (forall role,
              In g (List.map gl_goal (get_all_goals st role (Some A))))
        /\ (forall v,
              In g (List.map gl_goal (get_all_goals st "mentor" v)))).
Proof.
  intros Hok shown. subst shown.
  pose proof (get_all_goals_rows st viewer_role viewer_id Hok) as Hrows.
  split; [|split; [|split]].
  - intros ->. rewrite Hrows. unfold goal_visible_to. simpl.
    clear. induction (goals st) as [|g l IH]; simpl; auto.
  - intros v Hrole ->. rewrite Hrows. unfold goal_visible_to.
    apply String.eqb_neq in Hrole. rewrite Hrole. reflexivity.
  - intros Hrole ->. rewrite Hrows. unfold goal_visible_to.
    apply String.eqb_neq in Hrole. rewrite Hrole. reflexivity.
  - intros g A Hin Hpriv Hown. split; [|split].
    + intros role B Hrole HB Hshown.
      apply (get_all_goals_in st role (Some B) g Hok) in Hshown as [_ Hv].
      unfold goal_visible_to in Hv. apply String.eqb_neq in Hrole.
      rewrite Hrole, Hpriv, Hown in Hv. simpl in Hv.
      apply Z.eqb_eq in Hv. congruence.
    + intros role. apply (get_all_goals_in st role (Some A) g Hok).
      split; [exact Hin|]. unfold goal_visible_to.
      rewrite Hown, Z.eqb_refl, orb_true_r.
      destruct (String.eqb role "mentor"); reflexivity.
    + intros v. apply (get_all_goals_in st "mentor" v g Hok).
      split; [exact Hin|reflexivity].
Qed.

Lemma get_all_goals_visibility_witness :
  ~ In Lab.cultures (List.map gl_goal (get_all_goals Lab.st "student" (Some 2)))
  /\ In Lab.cultures (List.map gl_goal (get_all_goals Lab.st "student" (Some 1)))
  /\ In Lab.cultures (List.map gl_goal (get_all_goals Lab.st "mentor" None)).
Proof.
  destruct (get_all_goals_visibility Lab.st "student" (Some 2) lab_schema_ok)
    as (_ & _ & _ & Hpriv).
  destruct (Hpriv Lab.cultures 1) as (Hhide & Hown & Hmentor);
    [left; reflexivity | reflexivity | reflexivity |].
  split; [|split].
  - apply Hhide; [discriminate | lia].
  - apply Hown.
  - apply Hmentor.
Defined.

Lemma in_feed_of_iff st v a :
  in_feed_of st v a = true
  <-> exists g, find_goal st (a_goal_id a) = Some g
                /\ (g_visibility g = "public" \/ a_user_id a = v).
Proof.
  unfold in_feed_of. destruct (find_goal st (a_goal_id a)) as [g|].
  - rewrite orb_true_iff, String.eqb_eq, Z.eqb_eq. split.
    + intros H. eauto.
    + intros (g' & [= <-] & H). exact H.
  - split; [discriminate|]. intros (g & H & _). discriminate.
Qed.

(** The query of [get_recent_activity] for a viewer who is not a mentor,
    read off table by table. *)
Lemma get_recent_activity_eq st limit v viewer_role :
  schema_ok st -> viewer_role <> "mentor" ->
  get_recent_activity st limit (Some v) viewer_role
  = List.map (joined st)
      (Sql.limit limit
         (Sql.order_by_desc a_created_at
            (filter (in_feed_of st v) (activities st)))).
Proof.
  intros Hok Hrole. unfold get_recent_activity. cbv zeta.
  apply String.eqb_neq in Hrole. rewrite Hrole. simpl negb. cbv iota.
  rewrite (SqlFacts.inner_join_unique _ (goal_of st))
    by (intros a Ha; apply (goal_of_row st a Hok Ha)).
  rewrite (SqlFacts.inner_join_unique _ (fun ag => author_of st (fst ag))).
  2:{ intros ag Hag. apply in_map_iff in Hag as (a & <- & Ha).
      apply (author_of_row st a Hok Ha). }
  rewrite map_map, where_map.
  rewrite <- (SqlFacts.map_order_by_desc
                (fun a => (a, goal_of st a, author_of st (fst (a, goal_of st a))))
                (fun r => a_created_at (fst (fst r)))).
  rewrite <- SqlFacts.map_limit, map_map. cbn [fst snd].
  replace (filter _ (activities st))
    with (filter (in_feed_of st v) (activities st)); [reflexivity|].
  apply filter_ext_in. intros a Ha. simpl. rewrite andb_true_r.
  unfold in_feed_of. now rewrite (proj1 (goal_of_row st a Hok Ha)).
Qed.

Lemma descending_app {A} (key : A -> Z) (l1 l2 : list A) :
  descending key (l1 ++ l2) ->
  descending key l1
  /\ forall x y, In x l1 -> In y l2 -> key y <= key x.
Proof.
  induction l1 as [|a l1 IH]; simpl.
  - intros _. split; [exact I|]. intros x y [].
  - intros [Ha Hl]. destruct (IH Hl) as [Hd Hx]. split.
    + split; [|exact Hd]. intros y Hy. apply Ha, in_or_app. now left.
    + intros x y [<-|Hin] Hy; [|auto]. apply Ha, in_or_app. now right.
Qed.

(** C3, as the code has it: for a viewer who is not a mentor and has an id,
    the feed is the newest [limit] (all, when [limit] is negative) of the
    activities whose goal is public or whose author is the viewer.  Every
    entry is such an activity, joined with the title of its goal and the
    name and role of its author; the entries are newest first; there are
    at most [limit] of them when [limit] is not negative, and exactly the
    smaller of [limit] and the number of eligible activities; they are
    the first [limit] rows of the eligible activities in newest-first
    order; any eligible activity left out is no newer than the entries
    shown; and nothing is left out when the eligible activities fit under
    the cap. *)
Theorem get_recent_activity_feed st limit v viewer_role :
  schema_ok st -> viewer_role <> "mentor" ->
  let feed := get_recent_activity st limit (Some v) viewer_role in
  (forall e, In e feed ->
     In (fe_activity e) (activities st)
     /\ exists g u,
          find_goal st (a_goal_id (fe_activity e)) = Some g
          /\ find_user st (a_user_id (fe_activity e)) = Some u
          /\ (g_visibility g = "public" \/ a_user_id (fe_activity e) = v)
          /\ fe_goal_title e = g_title g
          /\ fe_user_name e = u_name u /\ fe_user_role e = u_role u)
  /\ descending a_created_at (List.map fe_activity feed)
  /\ (0 <= limit -> Z.of_nat (List.length feed) <= limit)
  /\ (exists rest,
        Permutation (List.map fe_activity feed ++ rest)%list
                    (filter (in_feed_of st v) (activities st))
        /\ forall e a, In e feed -> In a rest ->
             a_created_at a <= a_created_at (fe_activity e))
  /\ (limit < 0
      \/ Z.of_nat (List.length (filter (in_feed_of st v) (activities st)))
         <= limit ->
      forall a,
        In a (List.map fe_activity feed)
        <-> In a (activities st) /\ in_feed_of st v a = true)
  /\ Z.of_nat (List.length feed)
     = (if limit <? 0
        then Z.of_nat (List.length (filter (in_feed_of st v) (activities st)))
        else Z.min limit
               (Z.of_nat (List.length (filter (in_feed_of st v)
                                              (activities st)))))
  /\ List.map fe_activity feed
     = (if limit <? 0
        then Sql.order_by_desc a_created_at
               (filter (in_feed_of st v) (activities st))
        else firstn (Z.to_nat limit)
               (Sql.order_by_desc a_created_at
                  (filter (in_feed_of st v) (activities st)))).
Proof.
  intros Hok Hrole feed. subst feed.
  rewrite (get_recent_activity_eq st limit v viewer_role Hok Hrole).
  set (eligible := filter (in_feed_of st v) (activities st)).
  set (sorted := Sql.order_by_desc a_created_at eligible).
  assert (Hact : List.map fe_activity
                   (List.map (joined st) (Sql.limit limit sorted))
                 = Sql.limit limit sorted)
    by (rewrite map_map; simpl; apply map_id).
  destruct (SqlFacts.limit_prefix limit sorted) as [rest Hrest].
  assert (Hsorted : descending a_created_at (Sql.limit limit sorted ++ rest))
    by (rewrite <- Hrest; apply SqlFacts.order_by_desc_descending).
  apply descending_app in Hsorted as [Hdesc Hcut].
  assert (Hin : forall a, In a (Sql.limit limit sorted) ->
                          In a (activities st) /\ in_feed_of st v a = true).
  { intros a Ha. apply filter_In. fold eligible.
    apply (SqlFacts.order_by_desc_in a_created_at). fold sorted.
    rewrite Hrest. apply in_or_app. now left. }
  split; [|split; [|split; [|split; [|split; [|split]]]]].
  - intros e He. apply in_map_iff in He as (a & <- & Ha).
    destruct (Hin a Ha) as [Hmem Hfeed]. split; [exact Hmem|].
    exists (goal_of st a), (author_of st a). simpl.
    destruct (goal_of_row st a Hok Hmem) as [Hg _].
    destruct (author_of_row st a Hok Hmem) as [Hu _].
    apply in_feed_of_iff in Hfeed as (g & Eg & Hvis).
    rewrite Hg in Eg. injection Eg as <-. auto 10.
  - rewrite Hact. exact Hdesc.
  - intros Hn. rewrite length_map. now apply SqlFacts.limit_length.
  - exists rest. rewrite Hact. split.
    + rewrite <- Hrest. symmetry. apply SqlFacts.order_by_desc_perm.
    + intros e a He Ha. apply Hcut; [|exact Ha].
      apply in_map_iff in He as (a0 & <- & Ha0). exact Ha0.
  - intros Hfit a. rewrite Hact, SqlFacts.limit_all.
    + unfold sorted. rewrite SqlFacts.order_by_desc_in. apply filter_In.
    + destruct Hfit as [Hneg|Hfit]; [now left|right].
      unfold sorted.
      now rewrite <- (Permutation_length
                        (SqlFacts.order_by_desc_perm a_created_at eligible)).
  - rewrite length_map. unfold Sql.limit.
    assert (Hlen : List.length sorted = List.length eligible)
      by (symmetry; apply Permutation_length, SqlFacts.order_by_desc_perm).
    destruct (limit <? 0) eqn:E; [now rewrite Hlen|].
    apply Z.ltb_ge in E. rewrite length_firstn, Hlen. lia.
  - rewrite Hact. reflexivity.
Qed.

Lemma get_recent_activity_feed_witness :
  List.map fe_activity (get_recent_activity Lab.st 40 (Some 2) "student")
  = [Lab.note2; Lab.note1]
  /\ (forall a,
        In a (List.map fe_activity
                (get_recent_activity Lab.st 40 (Some 2) "student"))
        <-> In a (activities Lab.st) /\ in_feed_of Lab.st 2 a = true)
  /\ Z.of_nat (List.length (get_recent_activity Lab.st 1 (Some 2) "student"))
     = 1
  /\ List.map fe_activity (get_recent_activity Lab.st 1 (Some 2) "student")
     = [Lab.note2].
Proof.
  assert (Hrole : "student" <> "mentor") by discriminate.
  destruct (get_recent_activity_feed Lab.st 40 2 "student" lab_schema_ok
              Hrole) as (_ & _ & _ & _ & Hall & _ & Hrows).
  destruct (get_recent_activity_feed Lab.st 1 2 "student" lab_schema_ok
              Hrole) as (_ & _ & _ & _ & _ & Hlen1 & Hrows1).
  split; [rewrite Hrows; reflexivity|].
  split; [apply Hall; right; simpl; lia|].
  split; [rewrite Hlen1; reflexivity | rewrite Hrows1; reflexivity].
Defined.

(** C3 as stated fails once the cap bites: with a limit of one, Bob's
    feed keeps his newest entry and drops the older entry on the public
    goal, which the stated rule says is in the feed. *)
Lemma get_recent_activity_cap_counterexample :
  ~ (forall st limit v viewer_role,
       schema_ok st -> viewer_role <> "mentor" ->
       forall a,
         In a (List.map fe_activity
                 (get_recent_activity st limit (Some v) viewer_role))
         <-> In a (activities st)
             /\ exists g, find_goal st (a_goal_id a) = Some g
                          /\ (g_visibility g = "public" \/ a_user_id a = v)).
Proof.
  intros claim.
  assert (Hrole : "student" <> "mentor") by discriminate.
  destruct (claim Lab.st 1 2 "student" lab_schema_ok Hrole Lab.note1)
    as [_ Hback].
  assert (Hshown : In Lab.note1
                      (List.map fe_activity
                         (get_recent_activity Lab.st 1 (Some 2) "student"))).
  { apply Hback. split; [left; reflexivity|].
    exists Lab.writeup. split; [reflexivity|left; reflexivity]. }
  vm_compute in Hshown. destruct Hshown as [H|[]]. discriminate H.
Qed.

Lemma list_goals_for_user_spec_witness :
  exists st1 st2 st3 a l1 l2 l3,
    create_goal 20 1 "Stain slides" None None "Not started" "public" Lab.st
    = Ok (st1, 3)
    /\ create_goal 21 1 "Order reagents" None None "Not started" "private" st1
       = Ok (st2, 4)
    /\ log_activity 21 21 3 1 "first batch stained" (Some 30) false st2
       = Ok (st3, a)
    /\ List.map (fun r => g_id (gs_goal r)) (list_goals_for_user st3 1)
       = (l1 ++ 3 :: l2 ++ 4 :: l3)%list.
Proof.
  assert (E1 : exists st1,
             create_goal 20 1 "Stain slides" None None "Not started" "public"
                         Lab.st = Ok (st1, 3)) by (vm_compute; eauto).
  destruct E1 as (st1 & E1).
  assert (E2 : exists st2,
             create_goal 21 1 "Order reagents" None None "Not started"
                         "private" st1 = Ok (st2, 4))
    by (injection E1 as <-; vm_compute; eauto).
  destruct E2 as (st2 & E2).
  assert (E3 : exists st3 a,
             log_activity 21 21 3 1 "first batch stained" (Some 30) false st2
             = Ok (st3, a))
    by (injection E1 as <-; injection E2 as <-; vm_compute; eauto).
  destruct E3 as (st3 & a & E3).
  destruct (list_goals_for_user_spec Lab.st 1) as (_ & _ & _ & Horder).
  destruct (Horder _ _ _ _ _ _ _ _ _ _ _ _ _ _ _ _ _ _ _ _ _ _ _ _ E1 E2 E3)
    as (l1 & l2 & l3 & H); [lia|].
  exists st1, st2, st3, a, l1, l2, l3. auto.
Defined.

(** * Further properties *)

(** ** What every committed call keeps *)

Lemma same_fixed_columns_refl g : same_fixed_columns g g.
Proof. repeat split. Qed.

Lemma same_fixed_columns_trans g1 g2 g3 :
  same_fixed_columns g1 g2 -> same_fixed_columns g2 g3 ->
  same_fixed_columns g1 g3.
Proof.
  unfold same_fixed_columns.
  intros (A1 & A2 & A3 & A4 & A5 & A6 & A7) (B1 & B2 & B3 & B4 & B5 & B6 & B7).
  repeat split; congruence.
Qed.

(** What [log_activity] leaves alone. *)
Lemma log_activity_frame st now now_upd goal_id user_id entry_text progress
    ai_generated st' id :
  log_activity now now_upd goal_id user_id entry_text progress ai_generated st
  = Ok (st', id) ->
  users st' = users st
  /\ activities st'
     = (activities st
        ++ [mkActivity id goal_id user_id (Str.strip entry_text) progress
                       (Z.b2z ai_generated) now])%list
  /\ id = seq_activities st + 1
  /\ exists u : goal_row -> goal_row,
       goals st' = List.map u (goals st)
       /\ (forall g, same_fixed_columns g (u g))
       /\ (forall g, g_id g <> goal_id -> u g = g).
Proof.
  intros H.
  destruct (log_activity_goals _ _ _ _ _ _ _ _ _ _ H) as (u & Hu & _ & _ & Hother).
  rewrite log_activity_eq in H.
  destruct (has_goal st goal_id && has_user st user_id); [|discriminate].
  injection H as <- <-. simpl. repeat split.
  set (touch := fun g => if g_id g =? goal_id then set_last_updated now_upd g
                         else g).
  set (complete := fun g => if (g_id g =? goal_id)
                               && negb (String.eqb (g_status g) "Completed")
                            then set_status "Completed" g else g).
  assert (Ht : forall g, same_fixed_columns g (touch g))
    by (intros g; unfold touch; destruct (g_id g =? goal_id);
        repeat split).
  assert (Hc : forall g, same_fixed_columns g (complete g))
    by (intros g; unfold complete; destruct (_ && _); repeat split).
  assert (Hto : forall g, g_id g <> goal_id -> touch g = g)
    by (intros g Hg; unfold touch; apply Z.eqb_neq in Hg; now rewrite Hg).
  assert (Hco : forall g, g_id g <> goal_id -> complete g = g)
    by (intros g Hg; unfold complete; apply Z.eqb_neq in Hg; now rewrite Hg).
  destruct progress as [p|]; [destruct (100 <=? p)|];
    try (exists touch; repeat split; solve [auto | apply Ht]).
  exists (fun g => complete (touch g)). rewrite map_map.
  split; [reflexivity|]. split.
  - intros g. eapply same_fixed_columns_trans; [apply Ht | apply Hc].
  - intros g Hg. rewrite (Hto g Hg). auto.
Qed.

(** The shape of one committed call: rows are appended, no row goes
    away, and an existing goal row changes in its status and last-updated
    columns at most. *)
Lemma step_frame st st' :
  step st st' ->
  (exists new_users,
     users st' = (users st ++ new_users)%list
     /\ forall u, In u new_users -> role_check (u_role u) = true)
  /\ extends (activities st') (activities st)
  /\ exists (u : goal_row -> goal_row) new_goals,
       goals st' = (List.map u (goals st) ++ new_goals)%list
       /\ (forall g, same_fixed_columns g (u g))
       /\ forall g, In g new_goals -> visibility_check (g_visibility g) = true.
Proof.
  intros [now name email role ph id H
         |now uid title descr due status vis id H
         |now gid status H
         |now now_upd gid uid entry progress ai id H].
  - rewrite create_user_eq in H.
    destruct (role_check role) eqn:Hrole; [|discriminate].
    destruct (email_taken st _); [discriminate|].
    injection H as <- _. simpl. split; [|split].
    + eexists. split; [reflexivity|]. intros u [<-|[]]. exact Hrole.
    + exists []. now rewrite app_nil_r.
    + exists (fun g => g), []. rewrite map_id, app_nil_r.
      split; [reflexivity|]. split; [intros; apply same_fixed_columns_refl|].
      intros g [].
  - rewrite create_goal_eq in H.
    destruct (visibility_check vis) eqn:Hvis; [|discriminate].
    destruct (has_user st uid); [|discriminate].
    injection H as <- _. simpl. split; [|split].
    + exists []. split; [now rewrite app_nil_r | intros u []].
    + exists []. now rewrite app_nil_r.
    + eexists (fun g => g), _. rewrite map_id.
      split; [reflexivity|]. split; [intros; apply same_fixed_columns_refl|].
      intros g [<-|[]]. exact Hvis.
  - rewrite update_goal_status_eq in H. injection H as <-. simpl.
    split; [|split].
    + exists []. split; [now rewrite app_nil_r | intros u []].
    + exists []. now rewrite app_nil_r.
    + eexists _, []. rewrite app_nil_r. split; [reflexivity|].
      split; [|intros g []].
      intros g. destruct (g_id g =? gid); repeat split.
  - apply log_activity_frame in H as (Hu & Ha & _ & u & Hg & Hfix & _).
    split; [|split].
    + exists []. split; [now rewrite app_nil_r | intros ? []].
    + eexists. exact Ha.
    + exists u, []. rewrite app_nil_r. auto.
Qed.

Lemma step_checks_ok st st' : step st st' -> checks_ok st -> checks_ok st'.
Proof.
  intros Hstep [Hroles Hvis].
  destruct (step_frame st st' Hstep)
    as ((nu & Eu & Hnu) & _ & u & ng & Eg & Hfix & Hng).
  split.
  - intros x Hx. rewrite Eu in Hx. apply in_app_iff in Hx as [Hx|Hx]; auto.
  - intros g Hg. rewrite Eg in Hg. apply in_app_iff in Hg as [Hg|Hg]; auto.
    apply in_map_iff in Hg as (g0 & <- & Hg0).
    destruct (Hfix g0) as (_ & _ & _ & _ & _ & -> & _). auto.
Qed.

Lemma steps_frame st st' :
  steps st st' ->
  extends (users st') (users st)
  /\ extends (activities st') (activities st)
  /\ exists (u : goal_row -> goal_row) new_goals,
       goals st' = (List.map u (goals st) ++ new_goals)%list
       /\ forall g, same_fixed_columns g (u g).
Proof.
  induction 1 as [st|st st' st'' _ IH Hstep].
  - split; [|split]; try (exists []; now rewrite app_nil_r).
    exists (fun g => g), []. rewrite map_id, app_nil_r.
    split; [reflexivity | intros; apply same_fixed_columns_refl].
  - destruct IH as ((nu & Eu) & (na & Ea) & u & ng & Eg & Hfix).
    destruct (step_frame _ _ Hstep)
      as ((nu' & Eu' & _) & (na' & Ea') & u' & ng' & Eg' & Hfix' & _).
    split; [|split].
    + exists (nu ++ nu')%list. now rewrite Eu', Eu, app_assoc.
    + exists (na ++ na')%list. now rewrite Ea', Ea, app_assoc.
    + exists (fun g => u' (u g)), (List.map u' ng ++ ng')%list.
      rewrite Eg', Eg, map_app, map_map, app_assoc. split; [reflexivity|].
      intros g. eapply same_fixed_columns_trans; [apply Hfix | apply Hfix'].
Qed.

Lemma extends_nth {A} (l' l : list A) i x :
  extends l' l -> nth_error l i = Some x -> nth_error l' i = Some x.
Proof.
  intros [added ->] H. rewrite nth_error_app1; [exact H|].
  apply nth_error_Some. congruence.
Qed.

(** X1: users and activities are append-only and goals keep their
    identity: whatever calls are committed, every user row and every
    activity row stays where it was, unchanged, and every goal row stays
    in place with the same id, owner, title, description, due date,
    visibility and creation time. *)
Theorem rows_are_never_lost st st' :
  steps st st' ->
  (forall i u, nth_error (users st) i = Some u ->
               nth_error (users st') i = Some u)
  /\ (forall i a, nth_error (activities st) i = Some a ->
                  nth_error (activities st') i = Some a)
  /\ (forall i g, nth_error (goals st) i = Some g ->
        exists g', nth_error (goals st') i = Some g'
                   /\ same_fixed_columns g g').
Proof.
  intros H. destruct (steps_frame st st' H) as (Hu & Ha & u & ng & Eg & Hfix).
  split; [|split].
  - intros i x. now apply extends_nth.
  - intros i x. now apply extends_nth.
  - intros i g Hi. exists (u g). split; [|apply Hfix].
    rewrite Eg, nth_error_app1.
    + now rewrite nth_error_map, Hi.
    + rewrite length_map. apply nth_error_Some. congruence.
Qed.

Lemma rows_are_never_lost_witness :
  exists st',
    steps Lab.st st'
    /\ nth_error (users st') 0 = Some Lab.ada
    /\ nth_error (activities st') 2 = Some Lab.note3
    /\ exists g', nth_error (goals st') 0 = Some g'
                  /\ same_fixed_columns Lab.cultures g'.
Proof.
  assert (E1 : exists st1, update_goal_status 30 1 "Stuck" Lab.st = Ok (st1, tt))
    by (vm_compute; eauto).
  destruct E1 as (st1 & E1).
  assert (E2 : exists st2 id,
             log_activity 31 31 1 1 "contaminated" (Some 100) false st1
             = Ok (st2, id))
    by (injection E1 as <-; vm_compute; eauto).
  destruct E2 as (st2 & id & E2).
  assert (Hsteps : steps Lab.st st2).
  { eapply steps_then; [eapply steps_then; [apply steps_refl|] |].
    - eapply step_update_goal_status. exact E1.
    - eapply step_log_activity. exact E2. }
  destruct (rows_are_never_lost Lab.st st2 Hsteps) as (Hu & Ha & Hg).
  exists st2. split; [exact Hsteps|]. split; [|split].
  - apply Hu. reflexivity.
  - apply Ha. reflexivity.
  - apply (Hg 0%nat Lab.cultures). reflexivity.
Defined.

(** ** The invariant of the running application *)

Lemma NoDup_map_inj {A K} (key : A -> K) (l : list A) x y :
  NoDup (List.map key l) -> In x l -> In y l -> key x = key y -> x = y.
Proof.
  induction l as [|a l IH]; simpl; [intros _ []|].
  intros Hnd Hx Hy E. inversion Hnd as [|? ? Hnotin Hnd']; subst.
  destruct Hx as [->|Hx], Hy as [->|Hy]; auto.
  - exfalso. apply Hnotin. rewrite E. now apply in_map.
  - exfalso. apply Hnotin. rewrite <- E. now apply in_map.
Qed.

Lemma reachable_checks_ok st : reachable st -> checks_ok st.
Proof.
  induction 1 as [|st st' _ IH Hstep].
  - split; intros ? [].
  - eapply step_checks_ok; eauto.
Qed.

Lemma role_check_iff role :
  role_check role = true <-> role = "student" \/ role = "mentor".
Proof.
  unfold role_check. now rewrite orb_true_iff, !String.eqb_eq.
Qed.

Lemma visibility_check_iff v :
  visibility_check v = true <-> v = "public" \/ v = "private".
Proof.
  unfold visibility_check. now rewrite orb_true_iff, !String.eqb_eq.
Qed.

(** X2: in every store the application can reach from an empty database,
    ids and emails are unique, emails are stored in lower case, every role
    is student or mentor, every visibility is public or private, every
    goal has exactly one owner row, and every activity has exactly one
    goal row and one author row. *)
Theorem reachable_store_is_consistent st :
  reachable st ->
  NoDup (List.map u_id (users st))
  /\ NoDup (List.map g_id (goals st))
  /\ NoDup (List.map a_id (activities st))
  /\ NoDup (List.map u_email (users st))
  /\ (forall u, In u (users st) ->
        Str.lower (u_email u) = u_email u
        /\ (u_role u = "student" \/ u_role u = "mentor"))
  /\ (forall g, In g (goals st) ->
        (g_visibility g = "public" \/ g_visibility g = "private")
        /\ exists u, In u (users st) /\ u_id u = g_user_id g
                     /\ forall u', In u' (users st) ->
                          u_id u' = g_user_id g -> u' = u)
  /\ (forall a, In a (activities st) ->
        (exists g, In g (goals st) /\ g_id g = a_goal_id a
                   /\ forall g', In g' (goals st) ->
                        g_id g' = a_goal_id a -> g' = g)
        /\ (exists u, In u (users st) /\ u_id u = a_user_id a
                      /\ forall u', In u' (users st) ->
                           u_id u' = a_user_id a -> u' = u)).
Proof.
  intros Hr. destruct (reachable_invariant st Hr) as [Hok Hfold].
  destruct (reachable_checks_ok st Hr) as [Hroles Hvis].
  pose proof (users_pk st Hok) as Hupk. pose proof (goals_pk st Hok) as Hgpk.
  assert (Huser : forall uid, has_user st uid = true ->
            exists u, In u (users st) /\ u_id u = uid
                      /\ forall u', In u' (users st) ->
                           u_id u' = uid -> u' = u).
  { intros uid H. apply has_user_iff in H as (u & Hin & E).
    exists u. split; [exact Hin|]. split; [exact E|].
    intros u' Hin' E'. apply (NoDup_map_inj u_id (users st)); congruence. }
  assert (Hgoal : forall gid, has_goal st gid = true ->
            exists g, In g (goals st) /\ g_id g = gid
                      /\ forall g', In g' (goals st) ->
                           g_id g' = gid -> g' = g).
  { intros gid H. apply has_goal_iff in H as (g & Hin & E).
    exists g. split; [exact Hin|]. split; [exact E|].
    intros g' Hin' E'. apply (NoDup_map_inj g_id (goals st)); congruence. }
  split; [exact Hupk|]. split; [exact Hgpk|].
  split; [apply (activities_pk st Hok)|].
  split; [apply (email_unique st Hok)|].
  split; [|split].
  - intros u Hu. split; [now apply Hfold|]. apply role_check_iff. auto.
  - intros g Hg. split; [apply visibility_check_iff; auto|].
    apply Huser, (goals_fk st Hok g Hg).
  - intros a Ha. destruct (activities_fk st Hok a Ha) as [H1 H2]. auto.
Qed.

Lemma reachable_store_is_consistent_witness :
  exists st,
    create_user 5 " Ada " "Ada@Lab.Edu" "student" "h" empty_store = Ok (st, 1)
    /\ NoDup (List.map u_email (users st))
    /\ forall u, In u (users st) -> Str.lower (u_email u) = u_email u.
Proof.
  assert (E : exists st,
             create_user 5 " Ada " "Ada@Lab.Edu" "student" "h" empty_store
             = Ok (st, 1)) by (vm_compute; eauto).
  destruct E as (st & E). exists st. split; [exact E|].
  assert (Hr : reachable st).
  { eapply reachable_step; [apply reachable_init|].
    eapply step_create_user. exact E. }
  destruct (reachable_store_is_consistent st Hr) as (_ & _ & _ & He & Hu & _).
  split; [exact He|]. intros u Hin. now apply Hu.
Defined.

(** ** Looking users up *)

Lemma fetchone_filter {A} (f : A -> bool) (l : list A) :
  fetchone (filter f l) = find f l.
Proof.
  unfold fetchone. induction l as [|x l IH]; simpl; [reflexivity|].
  destruct (f x); [reflexivity|exact IH].
Qed.

Lemma find_unique {A K} (key : A -> K) (f : A -> bool) (l : list A) x :
  NoDup (List.map key l) ->
  (forall y, In y l -> f y = true -> key y = key x) ->
  In x l -> f x = true -> find f l = Some x.
Proof.
  intros Hnd Hkey Hin Hf.
  destruct (find f l) as [y|] eqn:E.
  - apply find_some in E as [Hy Hfy]. f_equal.
    apply (NoDup_map_inj key l); auto.
  - apply (find_none _ _ E) in Hin. congruence.
Qed.

(** X3: [fetch_user_by_id] returns the one row with that id and nothing
    when there is none; the id [create_user] returns is larger than every
    id in use, fetches the row just stored, and no other lookup by id
    changes. *)
Theorem fetch_user_by_id_spec st :
  schema_ok st ->
  (forall uid u,
     fetch_user_by_id st uid = Some u <-> In u (users st) /\ u_id u = uid)
  /\ (forall uid,
        fetch_user_by_id st uid = None <-> has_user st uid = false)
  /\ (forall now name email role password_hash st' id,
        create_user now name email role password_hash st = Ok (st', id) ->
        fetch_user_by_id st' id
        = Some (mkUser id (Str.strip name) (Str.lower (Str.strip email))
                       role password_hash now)
        /\ (forall u, In u (users st) -> u_id u < id)
        /\ (forall uid, uid <> id ->
              fetch_user_by_id st' uid = fetch_user_by_id st uid)).
Proof.
  intros Hok. unfold fetch_user_by_id. split; [|split].
  - intros uid u. rewrite fetchone_filter. split.
    + intros H. apply find_some in H as [Hin H]. now apply Z.eqb_eq in H.
    + intros [Hin E]. apply (find_unique u_id); auto.
      * apply (users_pk st Hok).
      * intros y _ Hy. apply Z.eqb_eq in Hy. congruence.
      * now apply Z.eqb_eq.
  - intros uid. rewrite fetchone_filter. unfold has_user.
    induction (users st) as [|u l IH]; simpl; [tauto|].
    destruct (u_id u =? uid); simpl; [split; discriminate|exact IH].
  - intros now name email role ph st' id H. rewrite create_user_eq in H.
    destruct (role_check role); [|discriminate].
    destruct (email_taken st _); [discriminate|].
    injection H as <- <-. simpl.
    assert (Hlt : forall u, In u (users st) -> u_id u < seq_users st + 1).
    { intros u Hu. apply (users_seq st Hok) in Hu. lia. }
    split; [|split].
    + rewrite filter_app. simpl. rewrite Z.eqb_refl.
      rewrite filter_none; [reflexivity|].
      intros u Hu. apply Z.eqb_neq. apply Hlt in Hu. lia.
    + exact Hlt.
    + intros uid Hne. rewrite filter_app. simpl.
      apply Z.eqb_neq in Hne. rewrite Z.eqb_sym in Hne. rewrite Hne.
      now rewrite app_nil_r.
Qed.

Lemma fetch_user_by_id_spec_witness :
  fetch_user_by_id Lab.st 2 = Some Lab.bob
  /\ fetch_user_by_id Lab.st 9 = None.
Proof.
  destruct (fetch_user_by_id_spec Lab.st lab_schema_ok) as (Hsome & Hnone & _).
  split.
  - apply Hsome. split; [right; left; reflexivity | reflexivity].
  - apply Hnone. reflexivity.
Defined.

(** X4: on a store whose emails are unique and in lower case,
    [fetch_user_by_email] returns a row exactly when that row is stored
    under the stripped, lower-cased argument, and returns nothing exactly
    when no row is. *)
Theorem fetch_user_by_email_spec st email :
  schema_ok st -> emails_folded st ->
  (forall u,
     fetch_user_by_email st email = Some u
     <-> In u (users st) /\ u_email u = Str.lower (Str.strip email))
  /\ (fetch_user_by_email st email = None
      <-> email_taken st (Str.lower (Str.strip email)) = false).
Proof.
  intros Hok Hfold. unfold fetch_user_by_email. rewrite fetchone_filter.
  assert (Hmatch : forall u, In u (users st) ->
            String.eqb (Str.sqlite_lower (u_email u))
                       (Str.lower (Str.strip email)) = true
            <-> u_email u = Str.lower (Str.strip email)).
  { intros u Hu. rewrite String.eqb_eq.
    now rewrite (sqlite_lower_folded _ (Hfold u Hu)). }
  split.
  - intros u. split.
    + intros H. apply find_some in H as [Hin H].
      split; [exact Hin|]. now apply Hmatch.
    + intros [Hin E]. apply (find_unique u_email).
      * apply (email_unique st Hok).
      * intros y Hy Hfy. apply (Hmatch y Hy) in Hfy. congruence.
      * exact Hin.
      * now apply Hmatch.
  - split.
    + intros H. destruct (email_taken st _) eqn:E; [|reflexivity].
      apply email_taken_iff, in_map_iff in E as (u & E & Hin).
      pose proof (find_none _ _ H u Hin) as Hno.
      apply (proj2 (Hmatch u Hin)) in E. congruence.
    + intros H. destruct (find _ (users st)) as [u|] eqn:E; [|reflexivity].
      apply find_some in E as [Hin E]. apply (Hmatch u Hin) in E.
      assert (email_taken st (Str.lower (Str.strip email)) = true);
        [|congruence].
      apply email_taken_iff, in_map_iff. eauto.
Qed.

Lemma fetch_user_by_email_spec_witness :
  fetch_user_by_email Lab.st " EVE@lab.edu" = Some Lab.eve
  /\ fetch_user_by_email Lab.st "mallory@lab.edu" = None.
Proof.
  split.
  - destruct (fetch_user_by_email_spec Lab.st " EVE@lab.edu" lab_schema_ok
                lab_emails_folded) as (Hsome & _).
    apply Hsome. split; [right; right; left; reflexivity | reflexivity].
  - destruct (fetch_user_by_email_spec Lab.st "mallory@lab.edu" lab_schema_ok
                lab_emails_folded) as (_ & Hnone).
    apply Hnone. reflexivity.
Defined.

(** ** When the mutating functions raise *)

(** X5: [create_goal] raises an integrity error, leaving the store as it
    was, exactly when the visibility is neither public nor private or the
    owner id names no user.  Otherwise it returns an id larger than every
    goal id in use and appends one row with that id, the given owner,
    the stripped title, the given status and visibility, and both
    timestamps set to now; users and activities are untouched. *)
Theorem create_goal_outcome st now user_id title description due_date status
    visibility :
  schema_ok st ->
  ((visibility <> "public" /\ visibility <> "private")
   \/ has_user st user_id = false ->
   exists c,
     commit (create_goal now user_id title description due_date status
                         visibility) st
     = (st, Raise (IntegrityError c)))
  /\ ((visibility = "public" \/ visibility = "private") ->
      has_user st user_id = true ->
      exists st' id row,
        commit (create_goal now user_id title description due_date status
                            visibility) st = (st', Ok id)
        /\ (forall g, In g (goals st) -> g_id g < id)
        /\ goals st' = (goals st ++ [row])%list
        /\ users st' = users st /\ activities st' = activities st
        /\ g_id row = id /\ g_user_id row = user_id
        /\ g_title row = Str.strip title
        /\ g_due_date row = due_date /\ g_status row = status
        /\ g_visibility row = visibility
        /\ g_created_at row = now /\ g_last_updated row = now).
Proof.
  intros Hok. unfold commit. rewrite create_goal_eq. split.
  - intros [[H1 H2]|H].
    + assert (E : visibility_check visibility = false).
      { destruct (visibility_check visibility) eqn:E; [|reflexivity].
        apply visibility_check_iff in E. tauto. }
      rewrite E. eauto.
    + rewrite H. destruct (visibility_check visibility); eauto.
  - intros Hvis Huser. apply visibility_check_iff in Hvis.
    rewrite Hvis, Huser. eexists _, _, _. split; [reflexivity|].
    split.
    + intros g Hg. apply (goals_seq st Hok) in Hg. lia.
    + simpl. repeat split; reflexivity.
Qed.

Lemma create_goal_outcome_witness :
  (exists c,
     commit (create_goal 40 9 "Orphan" None None "Not started" "public")
            Lab.st = (Lab.st, Raise (IntegrityError c)))
  /\ (exists c,
        commit (create_goal 40 1 "Hidden" None None "Not started" "secret")
               Lab.st = (Lab.st, Raise (IntegrityError c)))
  /\ exists st' row,
       commit (create_goal 40 1 " Stain slides " None (Some "2026-12-01")
                           "Not started" "private") Lab.st = (st', Ok 3)
       /\ goals st' = [Lab.cultures; Lab.writeup; row]
       /\ g_title row = "Stain slides".
Proof.
  split; [|split].
  - destruct (create_goal_outcome Lab.st 40 9 "Orphan" None None
                "Not started" "public" lab_schema_ok) as [Hfail _].
    apply Hfail. right. reflexivity.
  - destruct (create_goal_outcome Lab.st 40 1 "Hidden" None None
                "Not started" "secret" lab_schema_ok) as [Hfail _].
    apply Hfail. left. split; discriminate.
  - destruct (create_goal_outcome Lab.st 40 1 " Stain slides " None
                (Some "2026-12-01") "Not started" "private" lab_schema_ok)
      as [_ Hrun].
    destruct Hrun as (st' & id & row & E & _ & Hg & _ & _ & _ & _ & Ht & _);
      [right; reflexivity | reflexivity |].
    assert (Hid : id = 3) by (vm_compute in E; congruence).
    rewrite Hid in E.
    exists st', row. split; [exact E|]. split; [exact Hg|].
    rewrite Ht. reflexivity.
Defined.

(** X6: [log_activity] raises the foreign-key integrity error exactly when
    the goal id or the author id names no row, and then nothing at all is
    stored: no activity, no bump of last-updated, no completion.  When it
    succeeds it appends exactly one activity with the stripped text, and
    the users table and every goal other than the target are untouched. *)
Theorem log_activity_outcome st now now_upd goal_id user_id entry_text progress
    ai_generated :
  (has_goal st goal_id = false \/ has_user st user_id = false ->
   commit (log_activity now now_upd goal_id user_id entry_text progress
     ai_generated)
          st
   = (st, Raise (IntegrityError ForeignKey)))
  /\ (has_goal st goal_id = true -> has_user st user_id = true ->
      exists st' id,
        commit (log_activity now now_upd goal_id user_id entry_text progress
                             ai_generated) st = (st', Ok id)
        /\ activities st'
           = (activities st
              ++ [mkActivity id goal_id user_id (Str.strip entry_text)
                             progress (Z.b2z ai_generated) now])%list
        /\ users st' = users st
        /\ List.length (goals st') = List.length (goals st)
        /\ forall i g, nth_error (goals st) i = Some g ->
             g_id g <> goal_id -> nth_error (goals st') i = Some g).
Proof.
  split.
  - intros H. unfold commit. rewrite log_activity_eq.
    replace (has_goal st goal_id && has_user st user_id) with false;
      [reflexivity|].
    destruct H as [-> | ->]; [reflexivity|]. now rewrite andb_false_r.
  - intros Hg Hu.
    destruct (log_activity_succeeds st now now_upd goal_id user_id entry_text
      progress
                ai_generated Hg Hu) as [st' E].
    destruct (log_activity_frame _ _ _ _ _ _ _ _ _ _ E)
      as (Eu & Ea & _ & u & Egoals & _ & Hother).
    exists st', (seq_activities st + 1). unfold commit. rewrite E.
    split; [reflexivity|]. split; [exact Ea|]. split; [exact Eu|]. split.
    + rewrite Egoals. apply length_map.
    + intros i g Hi Hne. rewrite Egoals, nth_error_map, Hi. simpl.
      now rewrite (Hother g Hne).
Qed.

Lemma log_activity_outcome_witness :
  commit (log_activity 40 40 7 1 "lost" (Some 100) false) Lab.st
  = (Lab.st, Raise (IntegrityError ForeignKey))
  /\ exists st' id,
       commit (log_activity 40 40 1 1 " plated " (Some 100) false) Lab.st
       = (st', Ok id)
       /\ nth_error (goals st') 1 = Some Lab.writeup.
Proof.
  split.
  - destruct (log_activity_outcome Lab.st 40 40 7 1 "lost" (Some 100) false)
      as [Hfail _].
    apply Hfail. left. reflexivity.
  - destruct (log_activity_outcome Lab.st 40 40 1 1 " plated " (Some 100) false)
      as [_ Hrun].
    destruct (Hrun eq_refl eq_refl) as (st' & id & E & _ & _ & _ & Hkeep).
    exists st', id. split; [exact E|].
    apply Hkeep; [reflexivity|]. simpl. lia.
Defined.

(** ** Logging and listing together *)

Lemma activities_of_snoc st st' row gid :
  activities st' = (activities st ++ [row])%list ->
  activities_of st' gid
  = (activities_of st gid
     ++ if a_goal_id row =? gid then [row] else [])%list.
Proof.
  intros E. unfold activities_of. rewrite E, filter_app. simpl.
  destruct (a_goal_id row =? gid); reflexivity.
Qed.

Lemma newest_snoc l a :
  newest (l ++ [a])
  = Some (match newest l with
          | Some t => Z.max t (a_created_at a)
          | None => a_created_at a
          end).
Proof.
  destruct l as [|x l]; simpl; [reflexivity|].
  now rewrite map_app, fold_left_app.
Qed.

(** X7: after a successful [log_activity] on a goal, every listing of
    goals per user shows that goal with one more update, with the newest
    activity time moved to the later of its old value and the time of the
    INSERT, and with last-updated set to the time of the UPDATE; the rows
    of all other goals are exactly the rows listed before. *)
Theorem log_activity_updates_listing st now now_upd goal_id user_id entry_text
    progress ai_generated st' id :
  log_activity now now_upd goal_id user_id entry_text progress ai_generated st
  = Ok (st', id) ->
  forall owner r,
    In r (list_goals_for_user st' owner) ->
    (g_id (gs_goal r) = goal_id ->
       gs_updates_count r
       = Z.of_nat (List.length (activities_of st goal_id)) + 1
       /\ gs_latest_update r
          = match newest (activities_of st goal_id) with
            | Some t => Z.max t now
            | None => now
            end
       /\ g_last_updated (gs_goal r) = now_upd)
    /\ (g_id (gs_goal r) <> goal_id -> In r (list_goals_for_user st owner)).
Proof.
  intros H owner r Hr.
  destruct (log_activity_goals _ _ _ _ _ _ _ _ _ _ H)
    as (u & Eg & Hkeep & Hnow & Hother).
  destruct (log_activity_frame _ _ _ _ _ _ _ _ _ _ H) as (_ & Ea & _).
  rewrite list_goals_for_user_eq in Hr.
  apply in_map_iff in Hr as (g & <- & Hg).
  apply SqlFacts.order_by_desc_in, filter_In in Hg as [Hg Hown].
  rewrite Eg in Hg. apply in_map_iff in Hg as (g0 & <- & Hg0).
  destruct (Hkeep g0) as [Hid Huid]. simpl. split.
  - intros E. rewrite E. rewrite (activities_of_snoc st st' _ goal_id Ea).
    simpl. rewrite Z.eqb_refl, length_app, newest_snoc. simpl.
    split; [lia|]. split; [reflexivity|]. apply Hnow. congruence.
  - intros Hne. rewrite Hid in Hne. rewrite (Hother g0 Hne) in *.
    rewrite list_goals_for_user_eq. apply in_map_iff. exists g0. split.
    + unfold summarize. rewrite (activities_of_snoc st st' _ (g_id g0) Ea).
      simpl. apply Z.eqb_neq in Hne. rewrite Z.eqb_sym in Hne. rewrite Hne.
      now rewrite app_nil_r.
    + apply SqlFacts.order_by_desc_in, filter_In. auto.
Qed.

Lemma log_activity_updates_listing_witness :
  exists st' id r,
    log_activity 40 41 2 2 "day 1" (Some 10) false Lab.st = Ok (st', id)
    /\ In r (list_goals_for_user st' 2)
    /\ gs_updates_count r = 2 /\ gs_latest_update r = 40
    /\ g_last_updated (gs_goal r) = 41.
Proof.
  assert (E : exists st' id,
             log_activity 40 41 2 2 "day 1" (Some 10) false Lab.st
             = Ok (st', id)) by (vm_compute; eauto).
  destruct E as (st' & id & E).
  assert (Hr : exists r, In r (list_goals_for_user st' 2)
                         /\ g_id (gs_goal r) = 2).
  { injection E as <- _. eexists. split; [left; reflexivity|reflexivity]. }
  destruct Hr as (r & Hr & Hid).
  destruct (log_activity_updates_listing _ _ _ _ _ _ _ _ _ _ E 2 r Hr)
    as [Hsame _].
  destruct (Hsame Hid) as (Hc & Hl & Hu).
  exists st', id, r. split; [exact E|]. split; [exact Hr|].
  split; [rewrite Hc; reflexivity|].
  split; [rewrite Hl; reflexivity | exact Hu].
Defined.

(** ** The log of one goal *)

(** The query of [get_goal_activity], read off table by table. *)
Lemma get_goal_activity_eq st goal_id limit :
  schema_ok st ->
  get_goal_activity st goal_id limit
  = List.map (fun a => mkGoalUpdate a (u_name (author_of st a)))
      (Sql.limit limit
         (Sql.order_by_desc a_created_at (activities_of st goal_id))).
Proof.
  intros Hok. unfold get_goal_activity. cbv zeta.
  rewrite (SqlFacts.inner_join_unique _ (author_of st))
    by (intros a Ha; apply (author_of_row st a Hok Ha)).
  rewrite where_one.
  rewrite <- (SqlFacts.map_filter (fun a => (a, author_of st a))
                (fun r => a_goal_id (fst r) =? goal_id)).
  rewrite <- (SqlFacts.map_order_by_desc (fun a => (a, author_of st a))
                (fun r => a_created_at (fst r))).
  rewrite <- SqlFacts.map_limit, map_map. reflexivity.
Qed.

Lemma limit_length_exact {A} n (l : list A) :
  Z.of_nat (List.length (Sql.limit n l))
  = if n <? 0 then Z.of_nat (List.length l)
    else Z.min n (Z.of_nat (List.length l)).
Proof.
  unfold Sql.limit. destruct (n <? 0) eqn:E; [reflexivity|].
  apply Z.ltb_ge in E. rewrite length_firstn. lia.
Qed.

(** X8: [get_goal_activity] shows activities of the asked goal only, each
    with the name of its author, newest first; it shows all of them when
    the limit is negative and the smaller of the limit and their number
    otherwise; and it pays no regard to the goal's visibility or to who
    asks. *)
Theorem get_goal_activity_spec st goal_id limit :
  schema_ok st ->
  let shown := get_goal_activity st goal_id limit in
  let total := Z.of_nat (List.length (activities_of st goal_id)) in
  (forall e, In e shown ->
     In (gu_activity e) (activities st)
     /\ a_goal_id (gu_activity e) = goal_id
     /\ exists u, find_user st (a_user_id (gu_activity e)) = Some u
                  /\ gu_user_name e = u_name u)
  /\ descending a_created_at (List.map gu_activity shown)
  /\ Z.of_nat (List.length shown)
     = (if limit <? 0 then total else Z.min limit total)
  /\ (limit < 0 \/ total <= limit ->
      Permutation (List.map gu_activity shown) (activities_of st goal_id)).
Proof.
  intros Hok shown total. subst shown total.
  rewrite (get_goal_activity_eq st goal_id limit Hok).
  set (sorted := Sql.order_by_desc a_created_at (activities_of st goal_id)).
  assert (Hact : List.map gu_activity
                   (List.map (fun a => mkGoalUpdate a (u_name (author_of st a)))
                             (Sql.limit limit sorted))
                 = Sql.limit limit sorted)
    by (rewrite map_map; simpl; apply map_id).
  assert (Hlen : List.length sorted = List.length (activities_of st goal_id))
    by (symmetry; apply Permutation_length, SqlFacts.order_by_desc_perm).
  destruct (SqlFacts.limit_prefix limit sorted) as [rest Hrest].
  split; [|split; [|split]].
  - intros e He. apply in_map_iff in He as (a & <- & Ha). simpl.
    assert (Hin : In a (activities_of st goal_id)).
    { apply (SqlFacts.order_by_desc_in a_created_at). fold sorted.
      rewrite Hrest. apply in_or_app. now left. }
    apply filter_In in Hin as [Hin Hgid]. apply Z.eqb_eq in Hgid.
    split; [exact Hin|]. split; [exact Hgid|].
    exists (author_of st a). split; [|reflexivity].
    apply (author_of_row st a Hok Hin).
  - rewrite Hact.
    assert (Hd : descending a_created_at (Sql.limit limit sorted ++ rest))
      by (rewrite <- Hrest; apply SqlFacts.order_by_desc_descending).
    now apply descending_app in Hd.
  - rewrite length_map, limit_length_exact, Hlen. reflexivity.
  - intros Hfit. rewrite Hact, SqlFacts.limit_all.
    + symmetry. apply SqlFacts.order_by_desc_perm.
    + rewrite Hlen. exact Hfit.
Qed.

Lemma get_goal_activity_spec_witness :
  List.map gu_activity (get_goal_activity Lab.st 1 5) = [Lab.note2; Lab.note3]
  /\ Z.of_nat (List.length (get_goal_activity Lab.st 1 1)) = 1
  /\ Permutation (List.map gu_activity (get_goal_activity Lab.st 1 (-1)))
                 (activities_of Lab.st 1).
Proof.
  split; [reflexivity|].
  destruct (get_goal_activity_spec Lab.st 1 1 lab_schema_ok)
    as (_ & _ & Hlen & _).
  destruct (get_goal_activity_spec Lab.st 1 (-1) lab_schema_ok)
    as (_ & _ & _ & Hall).
  split; [rewrite Hlen; reflexivity|].
  apply Hall. left. lia.
Defined.

Lemma order_by_desc_snoc_newest {A} (key : A -> Z) (l : list A) (x : A) :
  (forall y, In y l -> key y < key x) ->
  Sql.order_by_desc key (l ++ [x]) = x :: Sql.order_by_desc key l.
Proof.
  induction l as [|a l IH]; simpl; intros H; [reflexivity|].
  rewrite IH by (intros y Hy; apply H; now right). simpl.
  assert (Ha : key a < key x) by (apply H; now left).
  apply Z.ltb_lt in Ha. now rewrite Ha.
Qed.

Lemma limit_head {A} n (x : A) (l : list A) :
  n <> 0 -> hd_error (Sql.limit n (x :: l)) = Some x.
Proof.
  intros Hn. unfold Sql.limit. destruct (n <? 0) eqn:E; [reflexivity|].
  apply Z.ltb_ge in E. destruct (Z.to_nat n) eqn:En; [lia|reflexivity].
Qed.

Lemma find_user_same st st' uid :
  users st' = users st -> find_user st' uid = find_user st uid.
Proof. unfold find_user. now intros ->. Qed.

(** X9: an activity just logged is on the goal's log: with a negative
    limit, or one larger than the number of earlier entries, the new entry
    is among those shown, carrying its author's name; and when the clock
    has moved past every earlier entry of the goal it is the first one
    shown, for any limit other than zero. *)
Theorem logged_activity_is_shown st now now_upd goal_id user_id entry_text
    progress
    ai_generated st' id limit :
  schema_ok st ->
  log_activity now now_upd goal_id user_id entry_text progress ai_generated st
  = Ok (st', id) ->
  exists author,
    find_user st user_id = Some author
    /\ let entry :=
         mkGoalUpdate
           (mkActivity id goal_id user_id (Str.strip entry_text) progress
                       (Z.b2z ai_generated) now)
           (u_name author) in
       (limit < 0
        \/ Z.of_nat (List.length (activities_of st goal_id)) < limit ->
        In entry (get_goal_activity st' goal_id limit))
       /\ (limit <> 0 ->
           (forall a, In a (activities_of st goal_id) ->
                      a_created_at a < now) ->
           hd_error (get_goal_activity st' goal_id limit) = Some entry).
Proof.
  intros Hok H.
  assert (Hok' : schema_ok st')
    by (eapply step_schema_ok; [eapply step_log_activity; exact H|exact Hok]).
  destruct (log_activity_needs_goal _ _ _ _ _ _ _ _ _ _ H) as [_ Hu].
  destruct (find_user_some st _ Hu) as [author Eauthor].
  destruct (log_activity_frame _ _ _ _ _ _ _ _ _ _ H) as (Eu & Ea & _).
  exists author. split; [exact Eauthor|]. cbv zeta.
  set (row := mkActivity id goal_id user_id (Str.strip entry_text) progress
                         (Z.b2z ai_generated) now).
  assert (Hname : u_name (author_of st' row) = u_name author).
  { unfold author_of. simpl. now rewrite (find_user_same st st' _ Eu), Eauthor. }
  assert (Hof : activities_of st' goal_id
                = (activities_of st goal_id ++ [row])%list).
  { rewrite (activities_of_snoc st st' row goal_id Ea). simpl.
    now rewrite Z.eqb_refl. }
  rewrite (get_goal_activity_eq st' goal_id limit Hok'), Hof.
  split.
  - intros Hfit. apply in_map_iff. exists row. split; [now rewrite Hname|].
    rewrite SqlFacts.limit_all.
    + apply SqlFacts.order_by_desc_in, in_or_app. right. now left.
    + destruct Hfit as [Hneg|Hfit]; [now left|right].
      rewrite <- (Permutation_length (SqlFacts.order_by_desc_perm _ _)).
      rewrite length_app. simpl. lia.
  - intros Hlimit Hnewer.
    rewrite order_by_desc_snoc_newest by exact Hnewer.
    destruct (Sql.limit limit (row :: _)) as [|x rest] eqn:E.
    + pose proof (limit_head limit row
                    (Sql.order_by_desc a_created_at (activities_of st goal_id))
                    Hlimit) as Hhd.
      rewrite E in Hhd. discriminate.
    + pose proof (limit_head limit row
                    (Sql.order_by_desc a_created_at (activities_of st goal_id))
                    Hlimit) as Hhd.
      rewrite E in Hhd. injection Hhd as ->. simpl. now rewrite Hname.
Qed.

Lemma logged_activity_is_shown_witness :
  exists st' id,
    log_activity 40 40 1 1 " streaked plates " (Some 60) false Lab.st
    = Ok (st', id)
    /\ hd_error (get_goal_activity st' 1 5)
       = Some (mkGoalUpdate
                 (mkActivity id 1 1 "streaked plates" (Some 60) 0 40) "Ada").
Proof.
  assert (E : exists st' id,
             log_activity 40 40 1 1 " streaked plates " (Some 60) false Lab.st
             = Ok (st', id)) by (vm_compute; eauto).
  destruct E as (st' & id & E). exists st', id. split; [exact E|].
  destruct (logged_activity_is_shown Lab.st 40 40 1 1 " streaked plates "
              (Some 60) false st' id 5 lab_schema_ok E)
    as (author & Eauthor & _ & Hfirst).
  injection Eauthor as <-.
  apply Hfirst; [lia|].
  intros a [<-|[<-|[]]]; simpl; lia.
Defined.

(** ** The public list and the team list *)

Lemma update_counts_snoc acts a :
  update_counts (acts ++ [a]) = count_add a (update_counts acts).
Proof. unfold update_counts. now rewrite fold_left_app. Qed.

Lemma count_add_filter a groups gid :
  filter (fun c => uc_goal_id c =? gid) (count_add a groups)
  = if a_goal_id a =? gid then
      match filter (fun c => uc_goal_id c =? gid) groups with
      | [] => [mkUpdateCount (a_goal_id a) 1]
      | c :: rest =>
          mkUpdateCount (uc_goal_id c) (uc_total_updates c + 1) :: rest
      end
    else filter (fun c => uc_goal_id c =? gid) groups.
Proof.
  induction groups as [|c r IH]; simpl.
  - destruct (a_goal_id a =? gid); reflexivity.
  - destruct (uc_goal_id c =? a_goal_id a) eqn:E1; simpl.
    + apply Z.eqb_eq in E1.
      replace (uc_goal_id c =? gid) with (a_goal_id a =? gid)
        by now rewrite E1.
      destruct (a_goal_id a =? gid); reflexivity.
    + rewrite IH. destruct (uc_goal_id c =? gid) eqn:E2;
        destruct (a_goal_id a =? gid) eqn:E3; try reflexivity.
      apply Z.eqb_eq in E2, E3. apply Z.eqb_neq in E1. congruence.
Qed.

Lemma update_counts_group acts gid :
  filter (fun c => uc_goal_id c =? gid) (update_counts acts)
  = match filter (fun a => a_goal_id a =? gid) acts with
    | [] => []
    | a :: r => [mkUpdateCount gid (Z.of_nat (List.length (a :: r)))]
    end.
Proof.
  induction acts as [|a acts IH] using rev_ind; [reflexivity|].
  rewrite update_counts_snoc, count_add_filter, IH, filter_app. simpl.
  destruct (a_goal_id a =? gid) eqn:E.
  - apply Z.eqb_eq in E.
    destruct (filter _ acts) as [|x r]; simpl; [now rewrite E|].
    rewrite length_app. simpl. do 2 f_equal. lia.
  - rewrite app_nil_r. reflexivity.
Qed.

(** The query of [list_public_goals], read off table by table. *)
Lemma list_public_goals_eq st :
  schema_ok st ->
  list_public_goals st
  = List.map (fun g => mkPublicGoal g (u_name (owner_of st g))
                         (u_role (owner_of st g))
                         (Z.of_nat (List.length (activities_of st (g_id g)))))
      (Sql.order_by_desc g_last_updated
         (filter (fun g => String.eqb (g_visibility g) "public") (goals st))).
Proof.
  intros Hok. unfold list_public_goals. cbv zeta.
  rewrite (SqlFacts.inner_join_unique _ (owner_of st))
    by (intros g Hg; apply (owner_of_row st g Hok Hg)).
  rewrite (SqlFacts.left_join_unique _
             (fun gu => match activities_of st (g_id (fst gu)) with
                        | [] => None
                        | a :: r =>
                            Some (mkUpdateCount (g_id (fst gu))
                                    (Z.of_nat (List.length (a :: r))))
                        end)).
  2:{ intros gu _. unfold activities_of. rewrite update_counts_group.
      destruct (filter _ (activities st)); reflexivity. }
  rewrite map_map, where_one.
  rewrite <- (SqlFacts.map_filter
                (fun g => (g, owner_of st g,
                           match activities_of st (g_id (fst (g, owner_of st g)))
                           with
                           | [] => None
                           | a :: r =>
                               Some (mkUpdateCount
                                       (g_id (fst (g, owner_of st g)))
                                       (Z.of_nat (List.length (a :: r))))
                           end))
                (fun r => String.eqb (g_visibility (fst (fst r))) "public")).
  rewrite <- (SqlFacts.map_order_by_desc _
                (fun r => g_last_updated (fst (fst r)))).
  rewrite map_map. cbn [fst snd]. apply map_ext. intros g. f_equal.
  destruct (activities_of st (g_id g)); reflexivity.
Qed.

(** X10: [list_public_goals] returns exactly the public goals, most
    recently updated first, each with its owner's name and role and the
    number of its activities; and it is what [get_all_goals] returns for a
    viewer who is not a mentor and gives no id, the latest-update column
    aside. *)
Theorem list_public_goals_spec st :
  schema_ok st ->
  Permutation (List.map pg_goal (list_public_goals st))
              (filter (fun g => String.eqb (g_visibility g) "public")
                      (goals st))
  /\ descending g_last_updated (List.map pg_goal (list_public_goals st))
  /\ (forall p, In p (list_public_goals st) ->
        g_visibility (pg_goal p) = "public"
        /\ pg_updates_count p
           = Z.of_nat (List.length (activities_of st (g_id (pg_goal p))))
        /\ exists u, find_user st (g_user_id (pg_goal p)) = Some u
                     /\ pg_user_name p = u_name u
                     /\ pg_user_role p = u_role u)
  /\ (forall viewer_role, viewer_role <> "mentor" ->
        List.map (fun r => mkPublicGoal (gl_goal r) (gl_user_name r)
                             (gl_user_role r) (gl_updates_count r))
                 (get_all_goals st viewer_role None)
        = list_public_goals st).
Proof.
  intros Hok. rewrite (list_public_goals_eq st Hok).
  split; [|split; [|split]].
  - rewrite map_map. simpl. rewrite map_id. symmetry.
    apply SqlFacts.order_by_desc_perm.
  - rewrite map_map. simpl. rewrite map_id.
    apply SqlFacts.order_by_desc_descending.
  - intros p Hp. apply in_map_iff in Hp as (g & <- & Hg). simpl.
    apply SqlFacts.order_by_desc_in, filter_In in Hg as [Hg Hpub].
    split; [now apply String.eqb_eq|]. split; [reflexivity|].
    exists (owner_of st g). split; [|split; reflexivity].
    apply (owner_of_row st g Hok Hg).
  - intros role Hrole. rewrite (get_all_goals_eq st role None Hok), map_map.
    unfold goal_visible_to. apply String.eqb_neq in Hrole. rewrite Hrole.
    reflexivity.
Qed.

Lemma list_public_goals_spec_witness :
  List.map pg_goal (list_public_goals Lab.st) = [Lab.writeup]
  /\ List.map (fun r => mkPublicGoal (gl_goal r) (gl_user_name r)
                          (gl_user_role r) (gl_updates_count r))
              (get_all_goals Lab.st "student" None)
     = list_public_goals Lab.st.
Proof.
  split; [reflexivity|].
  destruct (list_public_goals_spec Lab.st lab_schema_ok) as (_ & _ & _ & H).
  apply H. discriminate.
Defined.

(** X11: every row of [get_all_goals] carries the name and role of the
    goal's owner, the number of its activities and the time of the newest
    one (its own last-updated time when it has none); the rows come most
    recently updated first; and each goal is shown with the same count
    and latest update as in its owner's own listing. *)
Theorem get_all_goals_rows_annotated st viewer_role viewer_id :
  schema_ok st ->
  descending g_last_updated
             (List.map gl_goal (get_all_goals st viewer_role viewer_id))
  /\ forall r, In r (get_all_goals st viewer_role viewer_id) ->
       (exists u, find_user st (g_user_id (gl_goal r)) = Some u
                  /\ gl_user_name r = u_name u /\ gl_user_role r = u_role u)
       /\ gl_updates_count r
          = Z.of_nat (List.length (activities_of st (g_id (gl_goal r))))
       /\ gl_latest_update r
          = match newest (activities_of st (g_id (gl_goal r))) with
            | Some t => t
            | None => g_last_updated (gl_goal r)
            end
       /\ In (mkSummary (gl_goal r) (gl_updates_count r) (gl_latest_update r))
             (list_goals_for_user st (g_user_id (gl_goal r))).
Proof.
  intros Hok. rewrite (get_all_goals_eq st viewer_role viewer_id Hok). split.
  - rewrite map_map. simpl. rewrite map_id.
    apply SqlFacts.order_by_desc_descending.
  - intros r Hr. apply in_map_iff in Hr as (g & <- & Hg). simpl.
    apply SqlFacts.order_by_desc_in, filter_In in Hg as [Hg _].
    split; [|split; [reflexivity|split; [reflexivity|]]].
    + exists (owner_of st g). split; [|split; reflexivity].
      apply (owner_of_row st g Hok Hg).
    + rewrite list_goals_for_user_eq. apply in_map_iff. exists g.
      split; [reflexivity|].
      apply SqlFacts.order_by_desc_in, filter_In. split; [exact Hg|].
      apply Z.eqb_refl.
Qed.

Lemma get_all_goals_rows_annotated_witness :
  List.map (fun r => (gl_user_name r, gl_updates_count r, gl_latest_update r))
           (get_all_goals Lab.st "mentor" None)
  = [("Ada", 2, 16); ("Bob", 1, 15)]
  /\ descending g_last_updated
                (List.map gl_goal (get_all_goals Lab.st "mentor" None)).
Proof.
  split; [reflexivity|].
  apply (get_all_goals_rows_annotated Lab.st "mentor" None lab_schema_ok).
Defined.

(** ** The feed for the other viewers *)

Lemma get_recent_activity_eq_any st limit viewer_id viewer_role :
  schema_ok st ->
  get_recent_activity st limit viewer_id viewer_role
  = List.map (joined st)
      (Sql.limit limit
         (Sql.order_by_desc a_created_at
            (filter (feed_visible_to st viewer_role viewer_id)
                    (activities st)))).
Proof.
  intros Hok. unfold get_recent_activity. cbv zeta.
  rewrite (SqlFacts.inner_join_unique _ (goal_of st))
    by (intros a Ha; apply (goal_of_row st a Hok Ha)).
  rewrite (SqlFacts.inner_join_unique _ (fun ag => author_of st (fst ag))).
  2:{ intros ag Hag. apply in_map_iff in Hag as (a & <- & Ha).
      apply (author_of_row st a Hok Ha). }
  rewrite map_map, where_map.
  rewrite <- (SqlFacts.map_order_by_desc
                (fun a => (a, goal_of st a, author_of st (fst (a, goal_of st a))))
                (fun r => a_created_at (fst (fst r)))).
  rewrite <- SqlFacts.map_limit, map_map. cbn [fst snd].
  replace (filter _ (activities st))
    with (filter (feed_visible_to st viewer_role viewer_id) (activities st));
    [reflexivity|].
  apply filter_ext_in. intros a Ha. unfold feed_visible_to.
  destruct (String.eqb viewer_role "mentor"); simpl; [reflexivity|].
  destruct viewer_id as [v|]; simpl; rewrite andb_true_r; [|reflexivity].
  unfold in_feed_of. now rewrite (proj1 (goal_of_row st a Hok Ha)).
Qed.

Lemma filter_all {A} (l : list A) : filter (fun _ => true) l = l.
Proof. induction l as [|x l IH]; simpl; congruence. Qed.

(** X12: a mentor's feed does not depend on the viewer id and, when the
    limit is negative or not below the number of activities, holds every
    activity; a viewer who is not a mentor and gives no id gets entries on
    public goals only, and all of those when they fit under the limit.
    Either feed is newest first. *)
Theorem get_recent_activity_other_viewers st limit :
  schema_ok st ->
  (forall viewer_id viewer_id',
     get_recent_activity st limit viewer_id "mentor"
     = get_recent_activity st limit viewer_id' "mentor")
  /\ (forall viewer_id,
        limit < 0 \/ Z.of_nat (List.length (activities st)) <= limit ->
        Permutation
          (List.map fe_activity
                    (get_recent_activity st limit viewer_id "mentor"))
          (activities st))
  /\ (forall viewer_role e,
        viewer_role <> "mentor" ->
        In e (get_recent_activity st limit None viewer_role) ->
        exists g, find_goal st (a_goal_id (fe_activity e)) = Some g
                  /\ g_visibility g = "public"
                  /\ fe_goal_title e = g_title g)
  /\ (forall viewer_role a,
        viewer_role <> "mentor" ->
        limit < 0 \/ Z.of_nat (List.length (activities st)) <= limit ->
        In a (activities st) ->
        g_visibility (goal_of st a) = "public" ->
        In a (List.map fe_activity
                       (get_recent_activity st limit None viewer_role)))
  /\ (forall viewer_id viewer_role,
        descending a_created_at
          (List.map fe_activity
                    (get_recent_activity st limit viewer_id viewer_role))).
Proof.
  intros Hok.
  assert (Hact : forall l, List.map fe_activity (List.map (joined st) l) = l)
    by (intros l; rewrite map_map; simpl; apply map_id).
  assert (Hfit : forall f,
            limit < 0 \/ Z.of_nat (List.length (activities st)) <= limit ->
            Sql.limit limit
              (Sql.order_by_desc a_created_at (filter f (activities st)))
            = Sql.order_by_desc a_created_at (filter f (activities st))).
  { intros f H. apply SqlFacts.limit_all.
    destruct H as [H|H]; [now left|right].
    rewrite <- (Permutation_length (SqlFacts.order_by_desc_perm _ _)).
    pose proof (filter_length_le f (activities st)). lia. }
  split; [|split; [|split; [|split]]].
  - intros v v'. now rewrite !get_recent_activity_eq_any.
  - intros v H. rewrite (get_recent_activity_eq_any st limit v "mentor" Hok).
    rewrite Hact, Hfit by exact H. unfold feed_visible_to. simpl.
    rewrite filter_all. symmetry. apply SqlFacts.order_by_desc_perm.
  - intros role e Hrole He.
    rewrite (get_recent_activity_eq_any st limit None role Hok) in He.
    apply in_map_iff in He as (a & <- & Ha). simpl.
    destruct (SqlFacts.limit_prefix limit
                (Sql.order_by_desc a_created_at
                   (filter (feed_visible_to st role None) (activities st))))
      as [rest Hrest].
    assert (Hin : In a (filter (feed_visible_to st role None) (activities st))).
    { apply (SqlFacts.order_by_desc_in a_created_at). rewrite Hrest.
      apply in_or_app. now left. }
    apply filter_In in Hin as [Hin Hvis]. unfold feed_visible_to in Hvis.
    apply String.eqb_neq in Hrole. rewrite Hrole in Hvis.
    apply String.eqb_eq in Hvis.
    exists (goal_of st a). split; [apply (goal_of_row st a Hok Hin)|auto].
  - intros role a Hrole H Hin Hpub.
    rewrite (get_recent_activity_eq_any st limit None role Hok).
    rewrite Hact, Hfit by exact H.
    apply SqlFacts.order_by_desc_in, filter_In. split; [exact Hin|].
    unfold feed_visible_to. apply String.eqb_neq in Hrole.
    rewrite Hrole, Hpub. reflexivity.
  - intros v role. rewrite (get_recent_activity_eq_any st limit v role Hok).
    rewrite Hact.
    destruct (SqlFacts.limit_prefix limit
                (Sql.order_by_desc a_created_at
                   (filter (feed_visible_to st role v) (activities st))))
      as [rest Hrest].
    assert (Hd : descending a_created_at
                   (Sql.limit limit
                      (Sql.order_by_desc a_created_at
                         (filter (feed_visible_to st role v) (activities st)))
                    ++ rest))
      by (rewrite <- Hrest; apply SqlFacts.order_by_desc_descending).
    now apply descending_app in Hd.
Qed.

Lemma get_recent_activity_other_viewers_witness :
  Permutation
    (List.map fe_activity (get_recent_activity Lab.st 40 (Some 3) "mentor"))
    (activities Lab.st)
  /\ List.map fe_activity (get_recent_activity Lab.st 40 None "student")
     = [Lab.note1].
Proof.
  destruct (get_recent_activity_other_viewers Lab.st 40 lab_schema_ok)
    as (_ & Hall & _).
  split; [|reflexivity].
  apply Hall. right. simpl. lia.
Defined.

(** X13: the feed tests authorship where the goal list tests ownership.
    When a viewer who is not a mentor wrote an entry on somebody else's
    private goal, the goal list hides that goal from the viewer, yet the
    feed shows the entry, with the title of the hidden goal, as soon as
    the eligible entries fit under the limit. *)
Theorem feed_shows_title_of_hidden_goal st limit viewer_role v a g :
  schema_ok st -> viewer_role <> "mentor" ->
  In a (activities st) -> a_user_id a = v ->
  find_goal st (a_goal_id a) = Some g ->
  g_visibility g = "private" -> g_user_id g <> v ->
  limit < 0
  \/ Z.of_nat (List.length (filter (in_feed_of st v) (activities st)))
     <= limit ->
  ~ In g (List.map gl_goal (get_all_goals st viewer_role (Some v)))
  /\ exists e,
       In e (get_recent_activity st limit (Some v) viewer_role)
       /\ fe_activity e = a /\ fe_goal_title e = g_title g.
Proof.
  intros Hok Hrole Ha Hauthor Hg Hpriv Hown Hfit. split.
  - intros Hshown.
    apply (get_all_goals_in st viewer_role (Some v) g Hok) in Hshown
      as [_ Hvis].
    unfold goal_visible_to in Hvis. apply String.eqb_neq in Hrole.
    rewrite Hrole, Hpriv in Hvis. simpl in Hvis.
    apply Z.eqb_eq in Hvis. contradiction.
  - exists (joined st a). split; [|split].
    + rewrite (get_recent_activity_eq st limit v viewer_role Hok Hrole).
      apply in_map. rewrite SqlFacts.limit_all.
      * apply SqlFacts.order_by_desc_in, filter_In. split; [exact Ha|].
        unfold in_feed_of. rewrite Hg, Hauthor, Z.eqb_refl.
        apply orb_true_r.
      * destruct Hfit as [H|H]; [now left|right].
        now rewrite <- (Permutation_length
                          (SqlFacts.order_by_desc_perm _ _)).
    + reflexivity.
    + unfold joined, goal_of. simpl. now rewrite Hg.
Qed.

Lemma feed_shows_title_of_hidden_goal_witness :
  ~ In Lab.cultures (List.map gl_goal (get_all_goals Lab.st "student" (Some 2)))
  /\ exists e,
       In e (get_recent_activity Lab.st 40 (Some 2) "student")
       /\ fe_activity e = Lab.note2 /\ fe_goal_title e = "Grow cultures".
Proof.
  assert (Hrole : "student" <> "mentor") by discriminate.
  apply (feed_shows_title_of_hidden_goal Lab.st 40 "student" 2 Lab.note2
           Lab.cultures lab_schema_ok Hrole).
  - right. left. reflexivity.
  - reflexivity.
  - reflexivity.
  - reflexivity.
  - simpl. lia.
  - right. simpl. lia.
Defined.

(** ** Status updates in sequence *)

(** X14: of two status updates of the same goal the later one wins, as if
    the earlier had not happened; updates of different goals commute. *)
Theorem update_goal_status_last_write_wins st now1 status1 now2 status2
    goal_id :
  (forall st1,
     update_goal_status now1 goal_id status1 st = Ok (st1, tt) ->
     update_goal_status now2 goal_id status2 st1
     = update_goal_status now2 goal_id status2 st)
  /\ (forall other sta stb,
        other <> goal_id ->
        update_goal_status now1 goal_id status1 st = Ok (sta, tt) ->
        update_goal_status now2 other status2 st = Ok (stb, tt) ->
        update_goal_status now2 other status2 sta
        = update_goal_status now1 goal_id status1 stb).
Proof.
  split.
  - intros st1 H. rewrite update_goal_status_eq in H. injection H as <-.
    rewrite !update_goal_status_eq. simpl. rewrite map_map.
    do 3 f_equal. apply map_ext. intros g.
    destruct (g_id g =? goal_id) eqn:E; simpl; now rewrite E.
  - intros other sta stb Hne Ha Hb.
    rewrite update_goal_status_eq in Ha, Hb.
    injection Ha as <-. injection Hb as <-.
    rewrite !update_goal_status_eq. simpl. rewrite !map_map.
    do 3 f_equal. apply map_ext. intros g.
    destruct (g_id g =? goal_id) eqn:E1, (g_id g =? other) eqn:E2; simpl;
      rewrite ?E1, ?E2; try reflexivity.
    apply Z.eqb_eq in E1, E2. congruence.
Qed.

Lemma update_goal_status_last_write_wins_witness :
  exists st1,
    update_goal_status 40 1 "Stuck" Lab.st = Ok (st1, tt)
    /\ update_goal_status 41 1 "Waiting for review" st1
       = update_goal_status 41 1 "Waiting for review" Lab.st.
Proof.
  destruct (update_goal_status_last_write_wins Lab.st 40 "Stuck" 41
              "Waiting for review" 1) as [Hlast _].
  eexists. split; [reflexivity|]. apply Hlast. reflexivity.
Defined.

(** ** More on stripping *)

Lemma rstrip_idem s : Str.rstrip (Str.rstrip s) = Str.rstrip s.
Proof.
  induction s as [|c s IH]; simpl; [reflexivity|].
  destruct (Str.rstrip s) as [|d r] eqn:E.
  - destruct (Str.is_space c) eqn:Ec; simpl; [reflexivity|].
    now rewrite Ec.
  - simpl in *. now rewrite IH.
Qed.

Lemma lstrip_head s :
  Str.lstrip s = ""
  \/ exists c r, Str.lstrip s = String c r /\ Str.is_space c = false.
Proof.
  induction s as [|c s IH]; simpl; [now left|].
  destruct (Str.is_space c) eqn:E; [exact IH|]. right. eauto.
Qed.

Lemma rstrip_head c r :
  Str.is_space c = false ->
  exists r', Str.rstrip (String c r) = String c r'.
Proof.
  intros Hc. simpl. destruct (Str.rstrip r); [rewrite Hc|]; eauto.
Qed.

(** A stripped string has nothing left to strip. *)
Lemma strip_idem s : Str.strip (Str.strip s) = Str.strip s.
Proof.
  unfold Str.strip. destruct (lstrip_head s) as [->|(c & r & -> & Hc)];
    [reflexivity|].
  destruct (rstrip_head c r Hc) as [r' E].
  replace (Str.lstrip (Str.rstrip (String c r))) with (Str.rstrip (String c r)).
  - apply rstrip_idem.
  - rewrite E. simpl. now rewrite Hc.
Qed.

Lemma rstrip_app_kept p s :
  Str.rstrip s <> "" -> Str.rstrip (p ++ s) = p ++ Str.rstrip s.
Proof.
  intros Hs. induction p as [|c p IH]; simpl; [reflexivity|].
  rewrite IH. destruct (p ++ Str.rstrip s) as [|d r] eqn:E; [|reflexivity].
  exfalso. apply Hs. destruct p; [exact E|discriminate].
Qed.

Lemma rstrip_strip s : Str.rstrip (Str.strip s) = Str.strip s.
Proof. unfold Str.strip. apply rstrip_idem. Qed.

(** ** More on the AI-assist client *)

Section ClientMore.
Variable float : Type.
Import Groq.

Lemma or_default_spec (o : option string) (d : string) :
  or_default o d
  = match o with
    | Some s => if String.eqb s "" then d else s
    | None => d
    end.
Proof. destruct o as [[|c s]|]; reflexivity. Qed.

(** X15: [request_completion] posts at most once, and not at all exactly
    when no usable credential is found.  The one request goes to the
    configured URL with the resolved credential, the stripped prompt, the
    temperature and token limit as given, and the model and system prompt
    as given unless absent or empty, in which case the defaults are
    sent. *)
Theorem request_completion_posts_once env prompt temperature max_tokens
    api_key sys model net :
  let sent := snd (run net (request_completion float env prompt temperature
                              max_tokens api_key sys model)) in
  (List.length sent <= 1)%nat
  /\ (sent = [] <-> falsy (_load_key env api_key) = true)
  /\ forall rq, In rq sent ->
       rq_url float rq = API_URL env
       /\ _load_key env api_key = Some (rq_bearer float rq)
       /\ rq_user float rq = Str.strip prompt
       /\ rq_temperature float rq = temperature
       /\ rq_max_tokens float rq = max_tokens
       /\ rq_model float rq
          = match model with
            | Some m => if String.eqb m "" then DEFAULT_MODEL env else m
            | None => DEFAULT_MODEL env
            end
       /\ rq_system float rq
          = match sys with
            | Some s => if String.eqb s "" then DEFAULT_SYSTEM_PROMPT else s
            | None => DEFAULT_SYSTEM_PROMPT
            end.
Proof.
  intros sent. subst sent. unfold Groq.request_completion, falsy.
  destruct (_load_key env api_key) as [k|]; simpl.
  - destruct (truthy k) eqn:Hk; simpl.
    + destruct (net _) as [r|exc];
        [destruct (400 <=? status_code r);
         [|destruct (extract_content r) as [c|[]]] |];
        simpl;
        (split; [lia|]; split; [split; discriminate|];
         intros rq [<-|[]]; simpl; rewrite !or_default_spec; auto 10).
    + split; [lia|]. split; [tauto|]. intros rq [].
  - split; [lia|]. split; [tauto|]. intros rq [].
Qed.
End ClientMore.

Lemma request_completion_posts_once_witness :
  let env := Groq.mkEnv (Some "gsk-env") Groq.SecretsRaise
               "https://api.groq.com/openai/v1/chat/completions"
               "llama3-8b-8192" in
  snd (Groq.run (fun _ => Groq.RequestException "timed out")
         (Groq.request_completion unit env "  note " tt 400 None (Some "")
                                  None))
  = [Groq.mkRequest unit (Groq.API_URL env) (Groq.VStr "gsk-env")
       "llama3-8b-8192" tt 400 Groq.DEFAULT_SYSTEM_PROMPT "note"].
Proof.
  intros env.
  destruct (request_completion_posts_once unit env "  note " tt 400 None
              (Some "") None (fun _ => Groq.RequestException "timed out"))
    as (_ & _ & Hrq).
  set (sent := snd (Groq.run _ _)) in *.
  assert (Hsent : exists rq, sent = [rq]) by (vm_compute; eauto).
  destruct Hsent as [rq Hsent]. rewrite Hsent in *.
  destruct (Hrq rq (or_introl eq_refl)) as (H1 & H2 & H3 & H4 & H5 & H6 & H7).
  destruct rq as [url bearer model temp maxt sys user]. simpl in *.
  injection H2 as <-. subst. reflexivity.
Defined.

Section ClientResults.
Variable float : Type.
Import Groq.

(** X16: whatever [request_completion] returns, a returned text has no
    whitespace left at either end, and a returned error message is never
    empty, so a caller testing [if error] sees every failure. *)
Theorem request_completion_result_shape env prompt temperature max_tokens
    api_key sys model net content error :
  fst (run net (request_completion float env prompt temperature max_tokens
                                   api_key sys model))
  = Returned content error ->
  (forall t, content = Some t -> Str.strip t = t)
  /\ (forall m, error = Some m -> Str.truthy m = true).
Proof.
  unfold Groq.request_completion.
  destruct (_load_key env api_key) as [k|]; simpl.
  - destruct (truthy k); simpl.
    + destruct (net _) as [r|exc]; simpl.
      * destruct (400 <=? status_code r); simpl.
        -- intros [= <- <-]. split; [discriminate|]. now intros m [= <-].
        -- unfold extract_content.
           destruct (response_json r) as [data|e]; simpl.
           ++ destruct (getitem_str data "choices") as [x1|e1]; simpl.
              ** destruct (getitem_0 x1) as [x2|e2]; simpl.
                 --- destruct (getitem_str x2 "message") as [x3|e3]; simpl.
                     +++ destruct (getitem_str x3 "content") as [x4|e4]; simpl.
                         *** destruct x4; simpl; try discriminate.
                             intros [= <- <-]. split; [|discriminate].
                             intros t [= <-]. apply strip_idem.
                         *** destruct e4; intros [= <- <-];
                               (split; [discriminate|]; now intros m [= <-]).
                     +++ destruct e3; intros [= <- <-];
                           (split; [discriminate|]; now intros m [= <-]).
                 --- destruct e2; intros [= <- <-];
                       (split; [discriminate|]; now intros m [= <-]).
              ** destruct e1; intros [= <- <-];
                   (split; [discriminate|]; now intros m [= <-]).
           ++ destruct e; intros [= <- <-];
                (split; [discriminate|]; now intros m [= <-]).
      * intros [= <- <-]. split; [discriminate|]. now intros m [= <-].
    + intros [= <- <-]. split; [discriminate|]. now intros m [= <-].
  - intros [= <- <-]. split; [discriminate|]. now intros m [= <-].
Qed.
End ClientResults.

Lemma request_completion_result_shape_witness :
  Str.strip "Grew 3 cultures." = "Grew 3 cultures.".
Proof.
  pose (body := Groq.JObj [("choices",
                  Groq.JArr [Groq.JObj [("message",
                    Groq.JObj [("content",
                                Groq.JStr "  Grew 3 cultures.  ")])]])]).
  pose (env := Groq.mkEnv (Some "gsk") Groq.SecretsRaise "u" "m").
  destruct (request_completion_result_shape unit env "note" tt 400 None None
              None
              (fun _ => Groq.Responded (Groq.mkResponse 200 "{...}" (Some body)))
              (Some "Grew 3 cultures.") None eq_refl) as [Hc _].
  apply Hc. reflexivity.
Defined.

(** ** The sidebar check and the client agree *)

(** X17: whenever the client, called without an explicit key, finds a
    usable credential, [has_groq_key] is true; so when the sidebar warns
    that the key is missing, a completion request without an explicit key
    does end in the set-the-credential message, with nothing posted. *)
Theorem has_groq_key_covers_client env :
  (Groq.falsy (Groq._load_key env None) = false -> has_groq_key env = true)
  /\ (has_groq_key env = false ->
      forall float prompt (temperature : float) max_tokens sys model,
        Groq.request_completion float env prompt temperature max_tokens None
                                sys model
        = Groq.Done (Groq.Returned None (Some set_credential_message))).
Proof.
  assert (H : Groq.falsy (Groq._load_key env None) = false ->
              has_groq_key env = true).
  { unfold Groq._load_key, has_groq_key, Groq.secrets_key. simpl.
    destruct (Groq.if_set (Groq.env_GROQ_API_KEY env)); [reflexivity|].
    destruct (Groq.st_secrets env) as [|top]; [discriminate|].
    destruct (Groq.lookup "GROQ_API_KEY" top); [reflexivity|].
    destruct (Groq.lookup "groq" top) as [[s|z|b|kvs]|]; try discriminate.
    destruct (Groq.lookup "api_key" kvs); [reflexivity|discriminate]. }
  split; [exact H|].
  intros Hno float prompt temperature max_tokens sys model.
  apply no_key_no_call.
  destruct (Groq.falsy (Groq._load_key env None)); [reflexivity|].
  specialize (H eq_refl). congruence.
Qed.

Lemma has_groq_key_covers_client_witness :
  let env := Groq.mkEnv None
               (Groq.Secrets [("groq", Groq.VTable [("api_key",
                                                     Groq.VStr "gsk-1")])])
               "u" "m" in
  has_groq_key env = true
  /\ has_groq_key (Groq.mkEnv (Some "") (Groq.Secrets [("groq", Groq.VInt 3)])
                              "u" "m") = false.
Proof.
  intros env. split; [|reflexivity].
  apply (has_groq_key_covers_client env). reflexivity.
Defined.

(** ** The polishing helper *)

Lemma string_app_assoc (a b c : string) : (a ++ b) ++ c = a ++ b ++ c.
Proof. induction a as [|x a IH]; simpl; [reflexivity|now rewrite IH]. Qed.

Lemma string_app_empty_r (a : string) : a ++ "" = a.
Proof. induction a as [|x a IH]; simpl; [reflexivity|now rewrite IH]. Qed.

Section PolishFacts.
Variable float : Type.
Variable default_temperature : float.
Import Groq.

Lemma polish_prompt_split text intent :
  polish_prompt text intent
  = ("Rewrite the following note so it clearly communicates "
     ++ intent
     ++ ". Keep technical terminology, reply in less than 180 words."
     ++ newline ++ newline)
    ++ ("TEXT:" ++ newline) ++ Str.strip text.
Proof.
  unfold polish_prompt. now rewrite !string_app_assoc.
Qed.

Lemma strip_polish_prompt text intent :
  Str.strip (polish_prompt text intent)
  = if String.eqb (Str.strip text) ""
    then "Rewrite the following note so it clearly communicates "
         ++ intent
         ++ ". Keep technical terminology, reply in less than 180 words."
         ++ newline ++ newline ++ "TEXT:"
    else polish_prompt text intent.
Proof.
  unfold Str.strip at 1.
  replace (Str.lstrip (polish_prompt text intent))
    with (polish_prompt text intent) by reflexivity.
  destruct (String.eqb (Str.strip text) "") eqn:E.
  - apply String.eqb_eq in E. rewrite polish_prompt_split, E.
    rewrite string_app_empty_r, rstrip_app_kept by (vm_compute; discriminate).
    rewrite !string_app_assoc. reflexivity.
  - apply String.eqb_neq in E. rewrite polish_prompt_split.
    rewrite <- string_app_assoc.
    rewrite rstrip_app_kept by (rewrite rstrip_strip; exact E).
    now rewrite rstrip_strip.
Qed.

(** X18: [polish_text] never passes an explicit key, model or system
    prompt: without a usable credential in the environment or the secrets
    it returns the set-the-credential message and posts nothing, and any
    request it posts carries the default model, the default system prompt,
    400 tokens and the default temperature.  The message sent is the
    prompt built around the stripped text; when the text is blank the
    message ends right after "TEXT:" and is posted all the same. *)
Theorem polish_text_request env text intent net :
  let call := polish_text float default_temperature env text intent in
  (falsy (_load_key env None) = true ->
   run net call = (Returned None (Some set_credential_message), []))
  /\ (falsy (_load_key env None) = false ->
      exists rq,
        snd (run net call) = [rq]
        /\ _load_key env None = Some (rq_bearer float rq)
        /\ rq_model float rq = DEFAULT_MODEL env
        /\ rq_system float rq = DEFAULT_SYSTEM_PROMPT
        /\ rq_max_tokens float rq = 400
        /\ rq_temperature float rq = default_temperature
        /\ (Str.strip text <> "" ->
            rq_user float rq = polish_prompt text intent)
        /\ (Str.strip text = "" ->
            rq_user float rq
            = "Rewrite the following note so it clearly communicates "
              ++ intent
              ++ ". Keep technical terminology, reply in less than 180 words."
              ++ newline ++ newline ++ "TEXT:")).
Proof.
  intros call. subst call. unfold polish_text. split.
  - intros H. now rewrite no_key_no_call.
  - intros H. unfold Groq.request_completion. unfold falsy in H.
    destruct (_load_key env None) as [k|]; [|discriminate].
    destruct (truthy k); [|discriminate].
    eexists. split.
    + simpl.
      destruct (net _) as [r|exc];
        [destruct (400 <=? status_code r);
         [|destruct (extract_content r) as [c|[]]] |];
        reflexivity.
    + simpl. rewrite strip_polish_prompt.
      repeat split; try reflexivity.
      * intros Ht. apply String.eqb_neq in Ht. now rewrite Ht.
      * intros Ht. now rewrite Ht.
Qed.
End PolishFacts.

Lemma polish_text_request_witness :
  let env := Groq.mkEnv (Some "gsk-env") Groq.SecretsRaise "u" "m" in
  exists rq,
    snd (Groq.run (fun _ => Groq.RequestException "down")
           (polish_text unit tt env "   " "the result")) = [rq]
    /\ Groq.rq_user unit rq
       = "Rewrite the following note so it clearly communicates the result"
         ++ ". Keep technical terminology, reply in less than 180 words."
         ++ newline ++ newline ++ "TEXT:".
Proof.
  intros env.
  destruct (polish_text_request unit tt env "   " "the result"
              (fun _ => Groq.RequestException "down")) as [_ Hpost].
  destruct (Hpost eq_refl) as (rq & Hsent & _ & _ & _ & _ & _ & _ & Hblank).
  exists rq. split; [exact Hsent|]. rewrite (Hblank eq_refl). reflexivity.
Defined.

(** ** The forms *)

Lemma truthy_iff s : Str.truthy s = true <-> s <> "".
Proof. destruct s; simpl; split; congruence. Qed.

(** The row [create_user] stored is the one a lookup by its email gives. *)
Lemma fetch_created_user st now name email role password_hash st' id v :
  emails_folded st ->
  create_user now name email role password_hash st = Ok (st', id) ->
  Str.lower (Str.strip v) = Str.lower (Str.strip email) ->
  fetch_user_by_email st' v
  = Some (mkUser id (Str.strip name) (Str.lower (Str.strip email)) role
                 password_hash now).
Proof.
  intros Hf H Hv. rewrite create_user_eq in H.
  destruct (role_check role); [|discriminate].
  destruct (email_taken st _) eqn:Hfree; [discriminate|].
  injection H as <- <-.
  unfold fetch_user_by_email. simpl. rewrite Hv, filter_app. simpl.
  rewrite StrFacts.sqlite_lower_lower, String.eqb_refl.
  rewrite filter_none; [reflexivity|].
  intros u Hin. rewrite (sqlite_lower_folded _ (Hf u Hin)).
  destruct (String.eqb (u_email u) _) eqn:E; [|reflexivity].
  apply String.eqb_eq in E.
  assert (email_taken st (Str.lower (Str.strip email)) = true);
    [|congruence].
  apply email_taken_iff, in_map_iff. eauto.
Qed.

Section FormFacts.
Variable bcrypt_hashpw : string -> string -> string.
Variable bcrypt_checkpw : string -> string -> option bool.


(** X20: registering and then signing in.  After the registration form
    reports success, signing in with the same password and the email in
    any letter case, with any whitespace around it, puts exactly the new
    user in the session, provided bcrypt accepts the password against the
    hash it made; with a password bcrypt rejects, or fails on, the answer
    is "Invalid credentials" and nobody is signed in. *)
Theorem register_then_sign_in st now salt name email role password confirm
    st' message :
  emails_folded st ->
  register_submitted bcrypt_hashpw now salt name email role password confirm
                     true st = (st', st_success message) ->
  exists id,
    let user := mkUser id (Str.strip name) (Str.lower (Str.strip email)) role
                       (bcrypt_hashpw password salt) now in
    (forall l w r,
       Str.all_space l = true -> Str.all_space r = true ->
       Str.lower w = Str.lower email ->
       bcrypt_checkpw password (bcrypt_hashpw password salt) = Some true ->
       sign_in_submitted bcrypt_checkpw (l ++ w ++ r) password st'
       = (Some user, st_success "Welcome back! Redirecting..."))
    /\ (forall attempt,
          bcrypt_checkpw attempt (bcrypt_hashpw password salt) <> Some true ->
          sign_in_submitted bcrypt_checkpw email attempt st'
          = (None, st_error "Invalid credentials")).
Proof.
  intros Hf H. unfold register_submitted, commit, hash_password in H.
  destruct (negb _); [discriminate|].
  destruct (negb (String.eqb password confirm)); [discriminate|].
  simpl in H.
  destruct (create_user now name email role (bcrypt_hashpw password salt) st)
    as [[st1 id]|[c]] eqn:E; [|discriminate].
  injection H as <- _. exists id. cbv zeta. split.
  - intros l w r Hl Hr Hw Hcheck. unfold sign_in_submitted.
    rewrite (fetch_created_user _ _ _ _ _ _ _ _ _ Hf E).
    + unfold verify_password. simpl. now rewrite Hcheck.
    + rewrite strip_pad by assumption. now apply StrFacts.lower_strip_congr.
  - intros attempt Hbad. unfold sign_in_submitted.
    rewrite (fetch_created_user _ _ _ _ _ _ _ _ _ Hf E) by reflexivity.
    unfold verify_password. simpl.
    destruct (bcrypt_checkpw attempt _) as [[|]|]; try reflexivity.
    congruence.
Qed.
End FormFacts.


Lemma register_then_sign_in_witness :
  let hashpw := fun password salt : string => salt ++ password in
  let checkpw := fun password hashed : string =>
                   if String.prefix "$2b$" hashed
                   then Some (String.eqb hashed ("$2b$" ++ password))
                   else None in
  exists st',
    register_submitted hashpw 50 "$2b$" " Kay " "Kay@Lab.Edu" "student"
                       "pw" "pw" true Lab.st
    = (st', st_success "Account created. Sign in on the previous tab.")
    /\ sign_in_submitted checkpw "  KAY@lab.edu " "pw" st'
       = (Some (mkUser 4 "Kay" "kay@lab.edu" "student" "$2b$pw" 50),
          st_success "Welcome back! Redirecting...")
    /\ sign_in_submitted checkpw "Kay@Lab.Edu" "guess" st'
       = (None, st_error "Invalid credentials").
Proof.
  intros hashpw checkpw.
  assert (E : exists st',
             register_submitted hashpw 50 "$2b$" " Kay " "Kay@Lab.Edu"
                                "student" "pw" "pw" true Lab.st
             = (st', st_success "Account created. Sign in on the previous tab."))
    by (vm_compute; eauto).
  destruct E as (st' & E). exists st'. split; [exact E|].
  destruct (register_then_sign_in hashpw checkpw Lab.st 50 "$2b$" " Kay "
              "Kay@Lab.Edu" "student" "pw" "pw" st' _ lab_emails_folded E)
    as (id & Hin & Hout).
  assert (Hid : id = 4).
  { specialize (Hin "" "Kay@Lab.Edu" "" eq_refl eq_refl eq_refl eq_refl).
    injection E as <-. vm_compute in Hin. congruence. }
  subst id. split.
  - apply (Hin "  " "KAY@lab.edu" " "); reflexivity.
  - apply Hout. vm_compute. discriminate.
Defined.

(** X21: the goal form never stores a goal without a title.  A title that
    is empty or all whitespace ends in the give-a-title warning with the
    store untouched; when the form reports success exactly one goal was
    appended, owned by the user, whose title is the stripped input and so
    is neither empty nor padded, and whose description is NULL for an
    empty text area and the stripped text otherwise; and when
    [create_goal] raises, the error passes through and the store is as
    before. *)
Theorem save_goal_clicked_spec st now user_id title description due_date
    status visibility :
  let outcome := save_goal_clicked now user_id title description due_date
                                   status visibility st in
  (Str.strip title = "" ->
   outcome = (st, Ok (st_warning "Give your goal a title.")))
  /\ (forall st' message,
        outcome = (st', Ok (st_success message)) ->
        exists row,
          goals st' = (goals st ++ [row])%list
          /\ users st' = users st /\ activities st' = activities st
          /\ g_user_id row = user_id
          /\ g_title row = Str.strip title
          /\ g_title row <> "" /\ Str.strip (g_title row) = g_title row
          /\ g_description row
             = (if String.eqb description "" then None
                else Some (Str.strip description)))
  /\ (forall st' e, outcome = (st', Raise e) -> st' = st).
Proof.
  intros outcome. subst outcome. unfold save_goal_clicked, commit.
  rewrite create_goal_eq. split; [|split].
  - intros ->. reflexivity.
  - intros st' message.
    destruct (Str.truthy (Str.strip title)) eqn:Ht; [|discriminate]. simpl.
    destruct (visibility_check visibility); [|discriminate].
    destruct (has_user st user_id); [|discriminate].
    intros [= <- _]. eexists. split; [reflexivity|]. simpl.
    repeat split.
    + now apply truthy_iff.
    + apply strip_idem.
    + destruct description; reflexivity.
  - intros st' e.
    destruct (Str.truthy (Str.strip title)); [|discriminate]. simpl.
    destruct (visibility_check visibility);
      [destruct (has_user st user_id)|]; now intros [= <-].
Qed.

Lemma save_goal_clicked_spec_witness :
  save_goal_clicked 50 1 "   " "why it matters" None "In progress" "public"
                    Lab.st
  = (Lab.st, Ok (st_warning "Give your goal a title."))
  /\ exists st' row,
       save_goal_clicked 50 1 " Stain slides " "" (Some "2026-12-01")
                         "In progress" "public" Lab.st
       = (st', Ok (st_success "Goal saved! Scroll below to track it."))
       /\ goals st' = [Lab.cultures; Lab.writeup; row]
       /\ g_title row = "Stain slides" /\ g_description row = None.
Proof.
  split.
  - destruct (save_goal_clicked_spec Lab.st 50 1 "   " "why it matters" None
                "In progress" "public") as [Hblank _].
    apply Hblank. reflexivity.
  - assert (E : exists st',
               save_goal_clicked 50 1 " Stain slides " "" (Some "2026-12-01")
                                 "In progress" "public" Lab.st
               = (st', Ok (st_success "Goal saved! Scroll below to track it.")))
      by (vm_compute; eauto).
    destruct E as (st' & E).
    destruct (save_goal_clicked_spec Lab.st 50 1 " Stain slides " ""
                (Some "2026-12-01") "In progress" "public") as (_ & Hok & _).
    destruct (Hok st' _ E) as (row & Hg & _ & _ & _ & Ht & _ & _ & Hd).
    exists st', row. split; [exact E|]. split; [exact Hg|].
    split; [rewrite Ht; reflexivity | exact Hd].
Defined.

(** X22: the activity form never stores an empty note and never stores a
    NULL progress.  A note that is empty or all whitespace ends in the
    write-a-note warning with the store untouched; when the form reports
    success exactly one activity was appended, with the stripped note,
    the slider value as its progress and the AI flag as 0 or 1, and the
    goal is "Completed" exactly when the slider value is at least 100 or
    it was "Completed" before; when [log_activity] raises, the error
    passes through and the store is as before. *)
Theorem log_activity_clicked_spec st now now_upd goal_id user_id text
    progress_value
    ai_flag :
  let outcome := log_activity_clicked now now_upd goal_id user_id text
                                      progress_value ai_flag st in
  (Str.strip text = "" ->
   outcome = (st, Ok (st_warning "Write a short note before saving.")))
  /\ (forall st' message,
        outcome = (st', Ok (st_success message)) ->
        Str.strip text <> ""
        /\ (exists id,
              activities st'
              = (activities st
                 ++ [mkActivity id goal_id user_id (Str.strip text)
                                (Some progress_value) (Z.b2z ai_flag) now])%list)
        /\ exists g g',
             find_goal st goal_id = Some g /\ find_goal st' goal_id = Some g'
             /\ (g_status g' = "Completed"
                 <-> 100 <= progress_value \/ g_status g = "Completed"))
  /\ (forall st' e, outcome = (st', Raise e) -> st' = st).
Proof.
  intros outcome. subst outcome. unfold log_activity_clicked, commit.
  cbv zeta. split; [|split].
  - intros ->. reflexivity.
  - intros st' message.
    destruct (Str.truthy (Str.strip text)) eqn:Ht; [|discriminate]. simpl.
    destruct (log_activity now now_upd goal_id user_id (Str.strip text)
                           (Some progress_value) ai_flag st)
      as [[st1 id]|e] eqn:E; [|discriminate].
    intros [= <- _]. split; [now apply truthy_iff|]. split.
    + destruct (log_activity_frame _ _ _ _ _ _ _ _ _ _ E) as (_ & Ea & _).
      rewrite strip_idem in Ea. eauto.
    + destruct (log_activity_needs_goal _ _ _ _ _ _ _ _ _ _ E) as [Hg _].
      destruct (find_goal_some _ _ Hg) as [g Eg].
      destruct (log_activity_goal _ _ _ _ _ _ _ _ _ _ _ E Eg)
        as (g' & Eg' & Hs & _).
      exists g, g'. split; [exact Eg|]. split; [exact Eg'|].
      rewrite Hs. simpl. destruct (100 <=? progress_value) eqn:Ep.
      * apply Z.leb_le in Ep. tauto.
      * apply Z.leb_gt in Ep. split; [tauto|]. intros [H|H]; [lia|exact H].
  - intros st' e.
    destruct (Str.truthy (Str.strip text)); [|discriminate]. simpl.
    destruct (log_activity now now_upd goal_id user_id (Str.strip text)
                           (Some progress_value) ai_flag st)
      as [[st1 id]|e']; [discriminate|]. now intros [= <-].
Qed.

Lemma log_activity_clicked_spec_witness :
  log_activity_clicked 50 50 1 1 "  " 25 false Lab.st
  = (Lab.st, Ok (st_warning "Write a short note before saving."))
  /\ exists st' g',
       log_activity_clicked 50 50 1 1 " all plates grown " 100 false Lab.st
       = (st', Ok (st_success "Update stored"))
       /\ find_goal st' 1 = Some g' /\ g_status g' = "Completed".
Proof.
  split.
  - destruct (log_activity_clicked_spec Lab.st 50 50 1 1 "  " 25 false)
      as [Hblank _].
    apply Hblank. reflexivity.
  - assert (E : exists st',
               log_activity_clicked 50 50 1 1 " all plates grown " 100 false
                                    Lab.st
               = (st', Ok (st_success "Update stored")))
      by (vm_compute; eauto).
    destruct E as (st' & E).
    destruct (log_activity_clicked_spec Lab.st 50 50 1 1 " all plates grown "
                100 false) as (_ & Hok & _).
    destruct (Hok st' _ E) as (_ & _ & g & g' & _ & Eg' & Hs).
    exists st', g'. split; [exact E|]. split; [exact Eg'|].
    apply Hs. left. lia.
Defined.
